(** * EO_river_ice: the acquisition scripts, embedded and verified

    A shallow embedding of the three Python scripts of the repository

      - [scripts/RCM/get_rcm.py]          (RADARSAT Constellation Mission),
      - [scripts/sentinel/SentinelClient.py],
      - [scripts/sentinel/get_sentinel.py],

    followed by the properties of the acquisition pipeline.

    Conventions of the embedding.

      - A Python [str] is a [string] (a sequence of bytes, UTF-8 for the
        characters outside ASCII).
      - A Python number is an exact rational ([Q]): the finite values of
        [int] and [float].  [nan] and the infinities are outside the model.
      - A Python exception is a value of [exn]; code that can raise returns
        an [outcome].
      - Code with side effects (logging, files, network calls) is a function
        of the monad [M]: it takes the world before the call and returns the
        world after it together with the outcome.  The world after a call
        that raises keeps every effect that happened before the exception,
        as in Python. *)

From Stdlib Require Import NArith ZArith QArith String Ascii List Bool Lia.
Import ListNotations.

#[local] Close Scope Q_scope.
#[local] Open Scope list_scope.
#[local] Open Scope string_scope.

(* ===================================================================== *)
(** * Python values: exceptions, strings, lists                          *)
(* ===================================================================== *)

Module Py.

(** The exceptions that the scripts raise or let escape. *)
Inductive exn : Type :=
| IndexError
| KeyError (key : string)
| TypeError
| ValueError (msg : string)
| BadZipFile
| OSError
| RequestException (msg : string)
| Exception (msg : string)
| SystemExit (code : option Z)
| Unfinished.
    (* not an exception: a loop that has not ended within its fuel; no
       handler catches it *)

Inductive outcome (A : Type) : Type :=
| Ret (a : A)
| Raise (e : exn).
Arguments Ret {A} a.
Arguments Raise {A} e.

Definition obind {A B} (o : outcome A) (k : A -> outcome B) : outcome B :=
  match o with
  | Ret a => k a
  | Raise e => Raise e
  end.

(** [list(map(f, xs))] for an [f] that can raise: the first exception wins. *)
Section Omap.

Context {A B : Type} (f : A -> outcome B).

Fixpoint omap (xs : list A) : outcome (list B) :=
  match xs with
  | [] => Ret []
  | x :: xs' =>
      match f x with
      | Raise e => Raise e
      | Ret y =>
          match omap xs' with
          | Raise e => Raise e
          | Ret ys => Ret (y :: ys)
          end
      end
  end.

End Omap.

(** ** Characters *)

Definition dquote : ascii := "034"%char.
Definition newline : ascii := "010"%char.
Definition carriage_return : ascii := "013"%char.

Definition is_digit (c : ascii) : bool :=
  let n := nat_of_ascii c in (48 <=? n)%nat && (n <=? 57)%nat.

(** The ASCII characters for which [str.isspace] holds. *)
Definition is_space (c : ascii) : bool :=
  let n := nat_of_ascii c in
  ((9 <=? n)%nat && (n <=? 13)%nat) || ((28 <=? n)%nat && (n <=? 32)%nat).

Definition upper_char (c : ascii) : ascii :=
  let n := nat_of_ascii c in
  if (97 <=? n)%nat && (n <=? 122)%nat then ascii_of_nat (n - 32) else c.

(** ** Strings *)

Fixpoint str_upper (s : string) : string :=
  match s with
  | EmptyString => EmptyString
  | String c s' => String (upper_char c) (str_upper s')
  end.

Fixpoint lstrip (s : string) : string :=
  match s with
  | EmptyString => EmptyString
  | String c s' => if is_space c then lstrip s' else s
  end.

Fixpoint rstrip (s : string) : string :=
  match s with
  | EmptyString => EmptyString
  | String c s' =>
      match rstrip s' with
      | EmptyString => if is_space c then EmptyString else String c EmptyString
      | r => String c r
      end
  end.

(** [s.strip()] *)
Definition str_strip (s : string) : string := rstrip (lstrip s).

(** [s.split(sep)] for a non-empty [sep]: the pieces between the
    non-overlapping occurrences of [sep], found from left to right.  [skip]
    counts the characters of an occurrence that are still to be passed. *)
Fixpoint split_from (sep : string) (skip : nat) (s : string) : list string :=
  match s with
  | EmptyString => [EmptyString]
  | String c s' =>
      match skip with
      | S k => split_from sep k s'
      | O =>
          if prefix sep s
          then EmptyString :: split_from sep (String.length sep - 1) s'
          else match split_from sep 0 s' with
               | p :: ps => String c p :: ps
               | [] => [String c EmptyString]
               end
      end
  end.

Definition str_split (sep s : string) : list string := split_from sep 0 s.

(** [s.replace(old, new)] for a non-empty [old]. *)
Fixpoint replace_from (old new : string) (skip : nat) (s : string) : string :=
  match s with
  | EmptyString => EmptyString
  | String c s' =>
      match skip with
      | S k => replace_from old new k s'
      | O =>
          if prefix old s
          then new ++ replace_from old new (String.length old - 1) s'
          else String c (replace_from old new 0 s')
      end
  end.

Definition str_replace (old new s : string) : string := replace_from old new 0 s.

(** [sep.join(xs)] *)
Definition str_join (sep : string) (xs : list string) : string :=
  String.concat sep xs.

(** [s[0:n]] *)
Definition str_take (n : nat) (s : string) : string := String.substring 0 n s.

(** [s[:-n]] for [n > 0] *)
Definition str_drop_last (n : nat) (s : string) : string :=
  String.substring 0 (String.length s - n) s.

Fixpoint str_in (c : ascii) (s : string) : bool :=
  match s with
  | EmptyString => false
  | String c' s' => Ascii.eqb c c' || str_in c s'
  end.

Fixpoint str_forall (p : ascii -> bool) (s : string) : bool :=
  match s with
  | EmptyString => true
  | String c s' => p c && str_forall p s'
  end.

Fixpoint str_last (s : string) : option ascii :=
  match s with
  | EmptyString => None
  | String c EmptyString => Some c
  | String _ s' => str_last s'
  end.

(** ** Lists and dictionaries *)

(** [xs[i]] with Python's negative indices. *)
Definition py_index (len : nat) (i : Z) : option nat :=
  if (0 <=? i)%Z && (i <? Z.of_nat len)%Z then Some (Z.to_nat i)
  else if (i <? 0)%Z && (- Z.of_nat len <=? i)%Z then Some (Z.to_nat (Z.of_nat len + i))
  else None.

Fixpoint list_set {A} (xs : list A) (n : nat) (x : A) : list A :=
  match xs, n with
  | [], _ => []
  | _ :: xs', O => x :: xs'
  | y :: xs', S n' => y :: list_set xs' n' x
  end.

(** A [dict] with string keys, in insertion order. *)
Definition dict (V : Type) : Type := list (string * V).

Fixpoint dict_find {V} (d : dict V) (k : string) : option V :=
  match d with
  | [] => None
  | (k', v) :: d' => if String.eqb k k' then Some v else dict_find d' k
  end.

(** [k in d] *)
Definition dict_mem {V} (d : dict V) (k : string) : bool :=
  match dict_find d k with Some _ => true | None => false end.

(** [d[k]] *)
Definition dict_get {V} (d : dict V) (k : string) : outcome V :=
  match dict_find d k with
  | Some v => Ret v
  | None => Raise (KeyError k)
  end.

(** [d[k] = v]: an existing key keeps its place. *)
Fixpoint dict_set {V} (d : dict V) (k : string) (v : V) : dict V :=
  match d with
  | [] => [(k, v)]
  | (k', v') :: d' =>
      if String.eqb k k' then (k', v) :: d' else (k', v') :: dict_set d' k v
  end.

(** [{k: v for (k, v) in kvs}] *)
Definition dict_of_pairs {V} (kvs : list (string * V)) : dict V :=
  fold_left (fun d kv => dict_set d (fst kv) (snd kv)) kvs [].

(** [d.get(k, default)] *)
Definition dict_get_default {V} (d : dict V) (k : string) (default : V) : V :=
  match dict_find d k with Some v => v | None => default end.

End Py.

Import Py.

(* ===================================================================== *)
(** * Numbers and their decimal rendering                                *)
(* ===================================================================== *)

Module Num.

#[local] Open Scope N_scope.

Definition digit_char (n : N) : ascii := ascii_of_N (48 + n).

(** The [k] low-order decimal digits of [n], most significant first. *)
Fixpoint fixed_digits (k : nat) (n : N) : string :=
  match k with
  | O => EmptyString
  | S k' => fixed_digits k' (n / 10) ++ String (digit_char (n mod 10)) EmptyString
  end.

Fixpoint digits_fuel (fuel : nat) (n : N) : string :=
  match fuel with
  | O => EmptyString
  | S f =>
      if n <? 10 then String (digit_char n) EmptyString
      else digits_fuel f (n / 10) ++ String (digit_char (n mod 10)) EmptyString
  end.

(** The decimal digits of [n] without leading zeros; ["0"] for zero. *)
Definition nat_digits (n : N) : string :=
  digits_fuel (S (N.to_nat (N.log2 n))) n.

(** [repr(z)] for an [int]. *)
Definition repr_int (z : Z) : string :=
  ((if (z <? 0)%Z then "-" else "") ++ nat_digits (Z.abs_N z))%string.

(** Division of [num] by [den] rounded to the nearest integer, ties to the
    even one: the rounding of Python's [round]. *)
Definition round_half_even (num : Z) (den : positive) : Z :=
  let q := (num / Zpos den)%Z in
  let r := (num mod Zpos den)%Z in
  match (2 * r ?= Zpos den)%Z with
  | Lt => q
  | Gt => (q + 1)%Z
  | Eq => if Z.even q then q else (q + 1)%Z
  end.

(** [round(x, d)], as the integer number of units of [10^-d]. *)
Definition round_units (x : Q) (d : nat) : Z :=
  round_half_even (Qnum x * 10 ^ Z.of_nat d) (Qden x).

(** The value of [round(x, d)]. *)
Definition py_round (x : Q) (d : nat) : Q :=
  Qmake (round_units x d) (Z.to_pos (10 ^ Z.of_nat d)).

(** [n * '0'] *)
Fixpoint zeros (n : nat) : string :=
  match n with
  | O => EmptyString
  | S k => String "0" (zeros k)
  end.

(** [s.rstrip('0')] *)
Fixpoint drop_zeros (s : string) : string :=
  match s with
  | EmptyString => EmptyString
  | String c s' =>
      match drop_zeros s' with
      | EmptyString => if Ascii.eqb c "0" then EmptyString else String c EmptyString
      | r => String c r
      end
  end.

(** [repr(x)] for the float [x] of value [m / 10^d], negative zero
    included, with its sign apart.  Python writes the shortest decimal
    that reads back as [x].  As long as [m] has no more than 15 significant
    digits that decimal is [m / 10^d] itself, without the zeros that end
    it; beyond, it depends on the binary value of the float, which the
    model does not have.  The notation is positional when
    [1e-4 <= x < 1e16], with one digit at least after the point, and
    scientific otherwise, with a point only when there are two digits at
    least, and an exponent of two digits at least. *)
Definition repr_float (negative : bool) (m : N) (d : nat) : string :=
  let p := 10 ^ N.of_nat d in
  ((if negative then "-" else "")
   ++ (if (m =? 0)%N then "0.0"
       else if ((p <=? m * 10 ^ 4) && (m <? 10 ^ 16 * p))%N then
         nat_digits (m / p)%N ++ "."
         ++ match drop_zeros (fixed_digits d (m mod p)%N) with
            | EmptyString => "0"
            | f => f
            end
       else
         let e := (Z.of_nat (String.length (nat_digits m)) - 1 - Z.of_nat d)%Z in
         match drop_zeros (nat_digits m) with
         | EmptyString => EmptyString
         | String d1 rest =>
             String d1 (match rest with
                        | EmptyString => EmptyString
                        | _ => "." ++ rest
                        end)
             ++ "e" ++ (if (e <? 0)%Z then "-" else "+")
             ++ (if (Z.abs e <? 10)%Z then "0" else "") ++ nat_digits (Z.abs_N e)
         end))%string.

(** [geomet.wkt._round_and_pad(value, decimals)]

<<
    if isinstance(value, int) and decimals != 0:
        value = float(value)
    elif decimals == 0:
        return repr(int(round(value, decimals)))
    rounded = repr(round(value, decimals))
    rounded += '0' * (decimals - len(rounded.split('.')[1]))
    return rounded
>>

    A negative value that rounds to zero keeps its sign, as the float
    [-0.0] does.  When [repr] gives the scientific notation the padding
    counts the exponent among the decimals, and a text without a point
    ([1e-05]) has no second part: the subscript raises [IndexError]. *)
Definition round_and_pad (value : Q) (decimals : nat) : outcome string :=
  match decimals with
  | O => Ret (repr_int (round_units value 0))
  | S _ =>
      let rounded := repr_float (Qnum value <? 0)%Z
                                (Z.abs_N (round_units value decimals)) decimals in
      match str_split "." rounded with
      | _ :: decimal_part :: _ =>
          Ret (rounded ++ zeros (decimals - String.length decimal_part))%string
      | _ => Raise IndexError
      end
  end.

(** The value of a string of decimal digits; the empty string counts 0. *)
Fixpoint digits_value_from (acc : N) (s : string) : option N :=
  match s with
  | EmptyString => Some acc
  | String c s' =>
      if is_digit c
      then digits_value_from (10 * acc + (N_of_ascii c - 48)) s'
      else None
  end.

Definition digits_value (s : string) : option N := digits_value_from 0 s.

(** The number written by an unsigned decimal literal: digits, with at most
    one point among them, and at least one digit. *)
Definition unsigned_decimal (s : string) : option Q :=
  match str_split "." s with
  | [ip] =>
      match ip, digits_value ip with
      | String _ _, Some n => Some (Qmake (Z.of_N n) 1)
      | _, _ => None
      end
  | [ip; fp] =>
      match digits_value ip, digits_value fp with
      | Some n, Some m =>
          if (String.length ip + String.length fp =? 0)%nat then None
          else
            let d := Z.of_nat (String.length fp) in
            Some (Qmake (Z.of_N n * 10 ^ d + Z.of_N m) (Z.to_pos (10 ^ d)))
      | _, _ => None
      end
  | _ => None
  end.

(** The number written by a decimal literal with an optional sign. *)
Definition parse_decimal (s : string) : option Q :=
  match s with
  | String "-" s' =>
      match unsigned_decimal s' with
      | Some x => Some (Qmake (- Qnum x) (Qden x))
      | None => None
      end
  | String "+" s' => unsigned_decimal s'
  | _ => unsigned_decimal s
  end.

(** [int(float(s))] for a decimal literal [s]: the value truncated towards
    zero.  The exponent forms, [inf] and [nan] are not modelled. *)
Definition int_of_float_str (s : string) : outcome Z :=
  match parse_decimal (str_strip s) with
  | Some x => Ret (Z.quot (Qnum x) (Zpos (Qden x)))
  | None => Raise (ValueError "could not convert string to float")
  end.

End Num.

Import Num.

(* ===================================================================== *)
(** * The geometry converter of [get_rcm.py]                            *)
(* ===================================================================== *)

Module Geo.

(** The value under ['coordinates']: numbers nested in lists. *)
#[warnings="-register-all"]
Inductive coords : Type :=
| Num (x : Q)
| Seq (xs : list coords).

(** The GeoJSON geometry types that carry ['coordinates']. *)
Inductive geom_type : Type :=
| Point | LineString | Polygon | MultiPoint | MultiLineString | MultiPolygon.

Record geometry : Type := mkGeometry {
  g_type : geom_type;
  g_coordinates : coords
}.

Record feature : Type := mkFeature {
  f_geometry : geometry;
  f_properties : dict string
}.

(** A GeoJSON object, told apart as [geojson_to_wkt] does: an object with
    ['coordinates'] is a geometry, one with ['geometry'] is a feature, any
    other is read as a feature collection. *)
Inductive geojson : Type :=
| Geometry (g : geometry)
| Feature (f : feature)
| FeatureCollection (fs : list feature).

(** <<
    def ensure_2d(geometry):
        if isinstance(geometry[0], (list, tuple)):
            return list(map(ensure_2d, geometry))
        else:
            return geometry[:2]
>> *)
Fixpoint ensure_2d (geometry : coords) : outcome coords :=
  match geometry with
  | Num _ => Raise TypeError
  | Seq xs =>
      match xs with
      | [] => Raise IndexError
      | Seq _ :: _ =>
          match omap ensure_2d xs with
          | Raise e => Raise e
          | Ret ys => Ret (Seq ys)
          end
      | Num _ :: _ => Ret (Seq (firstn 2 xs))
      end
  end.

Definition lon_msg : string :=
  "Longitude is out of bounds, check your JSON format or data".
Definition lat_msg : string :=
  "Latitude is out of bounds, check your JSON format or data".

(** [x > hi or x < -hi] *)
Definition out_of (hi : Z) (x : Q) : bool :=
  negb (Qle_bool x (inject_Z hi)) || negb (Qle_bool (inject_Z (- hi)) x).

(** <<
    def check_bounds(geometry):
        if isinstance(geometry[0], (list, tuple)):
            return list(map(check_bounds, geometry))
        else:
            if geometry[0] > 180 or geometry[0] < -180:
                raise ValueError('Longitude is out of bounds, ...')
            if geometry[1] > 90 or geometry[1] < -90:
                raise ValueError('Latitude is out of bounds, ...')
>> *)
Fixpoint check_bounds (geometry : coords) : outcome unit :=
  match geometry with
  | Num _ => Raise TypeError
  | Seq xs =>
      match xs with
      | [] => Raise IndexError
      | Seq _ :: _ =>
          match omap check_bounds xs with
          | Raise e => Raise e
          | Ret _ => Ret tt
          end
      | Num lon :: rest =>
          if out_of 180 lon then Raise (ValueError lon_msg)
          else match rest with
               | [] => Raise IndexError
               | Seq _ :: _ => Raise TypeError
               | Num lat :: _ =>
                   if out_of 90 lat then Raise (ValueError lat_msg) else Ret tt
               end
      end
  end.

(** ** [geomet.wkt.dumps]

    The scripts call the WKT writer of the geomet library.  Its exporters
    join the rendered numbers of a vertex with [" "], the vertices of a ring
    with [", "], wrap rings in parentheses and put the upper-case type name
    and a space in front. *)

Definition dump_number (decimals : nat) (c : coords) : outcome string :=
  match c with
  | Num x => round_and_pad x decimals
  | Seq _ => Raise TypeError
  end.

(** [' '.join(_round_and_pad(c, decimals) for c in pt)] *)
Definition dump_vertex (decimals : nat) (pt : coords) : outcome string :=
  match pt with
  | Num _ => Raise TypeError
  | Seq cs => obind (omap (dump_number decimals) cs) (fun ss => Ret (str_join " " ss))
  end.

(** [', '.join(' '.join(...) for pt in ring)] *)
Definition dump_vertices (decimals : nat) (ring : coords) : outcome string :=
  match ring with
  | Num _ => Raise TypeError
  | Seq pts => obind (omap (dump_vertex decimals) pts) (fun ss => Ret (str_join ", " ss))
  end.

Definition paren (s : string) : string := "(" ++ s ++ ")".

(** [', '.join('(%s)' % f(x) for x in xs)] *)
Definition dump_wrapped (f : coords -> outcome string) (xs : coords) : outcome string :=
  match xs with
  | Num _ => Raise TypeError
  | Seq l => obind (omap f l) (fun ss => Ret (str_join ", " (map paren ss)))
  end.

(** The number of numbers in the coordinates ([util.flatten_multi_dim]). *)
Fixpoint leaf_count (c : coords) : nat :=
  match c with
  | Num _ => 1
  | Seq xs => list_sum (map leaf_count xs)
  end.

Definition wkt_name (t : geom_type) : string :=
  match t with
  | Point => "POINT"
  | LineString => "LINESTRING"
  | Polygon => "POLYGON"
  | MultiPoint => "MULTIPOINT"
  | MultiLineString => "MULTILINESTRING"
  | MultiPolygon => "MULTIPOLYGON"
  end.

Definition wkt_body (t : geom_type) (decimals : nat) (c : coords) : outcome string :=
  match t with
  | Point => dump_vertex decimals c
  | LineString => dump_vertices decimals c
  | Polygon => dump_wrapped (dump_vertices decimals) c
  | MultiPoint => dump_wrapped (dump_vertex decimals) c
  | MultiLineString => dump_wrapped (dump_vertices decimals) c
  | MultiPolygon =>
      dump_wrapped (dump_wrapped (dump_vertices decimals)) c
  end.

Definition wkt_dumps (g : geometry) (decimals : nat) : outcome string :=
  match g_coordinates g with
  | Num _ => Raise TypeError
  | Seq _ =>
      if Nat.eqb (leaf_count (g_coordinates g)) 0
      then Ret (wkt_name (g_type g) ++ " EMPTY")
      else obind (wkt_body (g_type g) decimals (g_coordinates g))
                 (fun body => Ret (wkt_name (g_type g) ++ " (" ++ body ++ ")"))
  end.

(** [re.sub(r'(?<!\d) ', '', wkt)]: every space that does not follow a
    digit is deleted.  [after_digit] tells whether the character before the
    current one, in the subject string, is a digit. *)
Fixpoint strip_spaces (after_digit : bool) (s : string) : string :=
  match s with
  | EmptyString => EmptyString
  | String c s' =>
      if Ascii.eqb c " " && negb after_digit
      then strip_spaces false s'
      else String c (strip_spaces (is_digit c) s')
  end.

Definition re_sub_spaces (wkt : string) : string := strip_spaces false wkt.

(** ** [geojson_to_wkt] *)

(** Where the selected geometry sits in the object. *)
Inductive place : Type :=
| Here
| InFeature
| InCollection (n : nat).

(** <<
    if 'coordinates' in geojson_obj:
        geometry = geojson_obj
    elif 'geometry' in geojson_obj:
        geometry = geojson_obj['geometry']
    else:
        geometry = geojson_obj['features'][feature_number]['geometry']
>> *)
Definition select_geometry (obj : geojson) (feature_number : Z)
  : outcome (place * geometry) :=
  match obj with
  | Geometry g => Ret (Here, g)
  | Feature f => Ret (InFeature, f_geometry f)
  | FeatureCollection fs =>
      match py_index (List.length fs) feature_number with
      | None => Raise IndexError
      | Some n =>
          match nth_error fs n with
          | Some f => Ret (InCollection n, f_geometry f)
          | None => Raise IndexError
          end
      end
  end.

Definition set_coordinates (g : geometry) (c : coords) : geometry :=
  mkGeometry (g_type g) c.

(** [geometry['coordinates'] = c], seen from the object that [geometry] is
    a part of: [geometry] is the object itself or a dictionary inside it,
    not a copy. *)
Definition store_coordinates (obj : geojson) (p : place) (c : coords) : geojson :=
  match obj, p with
  | Geometry g, Here => Geometry (set_coordinates g c)
  | Feature f, InFeature =>
      Feature (mkFeature (set_coordinates (f_geometry f) c) (f_properties f))
  | FeatureCollection fs, InCollection n =>
      match nth_error fs n with
      | Some f =>
          FeatureCollection
            (list_set fs n (mkFeature (set_coordinates (f_geometry f) c) (f_properties f)))
      | None => obj
      end
  | _, _ => obj
  end.

(** [geojson_to_wkt(geojson_obj, feature_number=0, decimals=4)]: the object
    after the call and the result of the call. *)
Definition geojson_to_wkt (geojson_obj : geojson) (feature_number : Z) (decimals : nat)
  : geojson * outcome string :=
  match select_geometry geojson_obj feature_number with
  | Raise e => (geojson_obj, Raise e)
  | Ret (p, geometry) =>
      (* Discard z-coordinate, if it exists *)
      match ensure_2d (g_coordinates geometry) with
      | Raise e => (geojson_obj, Raise e)
      | Ret c2 =>
          let obj' := store_coordinates geojson_obj p c2 in
          let geometry' := set_coordinates geometry c2 in
          match check_bounds c2 with
          | Raise e => (obj', Raise e)
          | Ret _ =>
              match wkt_dumps geometry' decimals with
              | Raise e => (obj', Raise e)
              | Ret wkt => (obj', Ret (re_sub_spaces wkt))
              end
          end
      end
  end.

End Geo.

Import Geo.

(* ===================================================================== *)
(** * The world of a run: files, the log, the network                    *)
(* ===================================================================== *)

Module Sys.

Inductive level : Type := DEBUG | INFO | WARNING | ERROR | CRITICAL.

Definition level_no (l : level) : Z :=
  match l with
  | DEBUG => 10 | INFO => 20 | WARNING => 30 | ERROR => 40 | CRITICAL => 50
  end%Z.

Definition level_name (l : level) : string :=
  match l with
  | DEBUG => "DEBUG" | INFO => "INFO" | WARNING => "WARNING"
  | ERROR => "ERROR" | CRITICAL => "CRITICAL"
  end.

(** [getattr(logging, loglevel.upper(), None)] for the names of levels. *)
Definition numeric_level (loglevel : string) : option Z :=
  let u := str_upper loglevel in
  if String.eqb u "NOTSET" then Some 0%Z
  else if String.eqb u "DEBUG" then Some 10%Z
  else if String.eqb u "INFO" then Some 20%Z
  else if String.eqb u "WARNING" || String.eqb u "WARN" then Some 30%Z
  else if String.eqb u "ERROR" then Some 40%Z
  else if String.eqb u "CRITICAL" || String.eqb u "FATAL" then Some 50%Z
  else None.

(** The value of a filter of an EODMS search. *)
Inductive filter_value : Type :=
| FStr (s : string)
| FList (l : list string).

(** The calls that leave the machine. *)
Inductive net_call : Type :=
| EodmsSearch (collection : string)
              (filters : dict (string * filter_value))
              (features : list (string * string))
              (dates : list (string * string))
| EodmsOrder (images : list string)
| EodmsDownload (order : list string) (dest : string) (max_attempts : Z)
| HttpPost (url : string)
| HttpGet (url : string) (bearer : option string).

(** A record accepted by the handler of the root logger. *)
Record log_record : Type := mkRecord {
  r_asctime : string;
  r_level : level;
  r_message : string
}.

Record world : Type := mkWorld {
  w_files : dict string;        (* the files written so far, the log apart *)
  w_dirs : list string;         (* the directories that exist *)
  w_log_file : option string;   (* the file of the root logger; None: stderr *)
  w_log_level : Z;              (* the threshold of the root logger *)
  w_log : list log_record;      (* the records in the log file, oldest first *)
  w_log_count : nat;            (* the number of records emitted so far *)
  w_stderr : list string;
  w_stdout : list string;
  w_net : list net_call         (* the calls issued so far, oldest first *)
}.

(** The world at the start of the interpreter: no file written by the run,
    the root logger without a handler and at level [WARNING]. *)
Definition initial_world (dirs : list string) : world :=
  mkWorld [] dirs None 30%Z [] 0 [] [] [].

Definition set_files (fs : dict string) (w : world) : world :=
  mkWorld fs (w_dirs w) (w_log_file w) (w_log_level w) (w_log w)
          (w_log_count w) (w_stderr w) (w_stdout w) (w_net w).

Definition set_dirs (ds : list string) (w : world) : world :=
  mkWorld (w_files w) ds (w_log_file w) (w_log_level w) (w_log w)
          (w_log_count w) (w_stderr w) (w_stdout w) (w_net w).

Definition set_stdout (out : list string) (w : world) : world :=
  mkWorld (w_files w) (w_dirs w) (w_log_file w) (w_log_level w) (w_log w)
          (w_log_count w) (w_stderr w) out (w_net w).

Definition set_net (calls : list net_call) (w : world) : world :=
  mkWorld (w_files w) (w_dirs w) (w_log_file w) (w_log_level w) (w_log w)
          (w_log_count w) (w_stderr w) (w_stdout w) calls.

(** ** The monad of effectful code *)

Definition M (A : Type) : Type := world -> world * outcome A.

Definition ret {A} (a : A) : M A := fun w => (w, Ret a).
Definition raise {A} (e : exn) : M A := fun w => (w, Raise e).
Definition bind {A B} (m : M A) (k : A -> M B) : M B :=
  fun w =>
    match m w with
    | (w', Ret a) => k a w'
    | (w', Raise e) => (w', Raise e)
    end.
Definition lift {A} (o : outcome A) : M A := fun w => (w, o).

(** [try: m  except <the exceptions h accepts>: handler] *)
Definition try_except {A} (m : M A) (h : exn -> option (M A)) : M A :=
  fun w =>
    match m w with
    | (w', Ret a) => (w', Ret a)
    | (w', Raise e) =>
        match h e with
        | Some handler => handler w'
        | None => (w', Raise e)
        end
    end.

(** [for x in xs: body(x)] *)
Fixpoint for_each {A} (xs : list A) (body : A -> M unit) : M unit :=
  match xs with
  | [] => ret tt
  | x :: xs' => bind (body x) (fun _ => for_each xs' body)
  end.

Definition nl : string := String newline EmptyString.

(** ** Files and directories *)

(** [open(path, 'w').write(text)] *)
Definition write_file (path text : string) : M unit :=
  fun w => (set_files (dict_set (w_files w) path text) w, Ret tt).

Definition print (text : string) : M unit :=
  fun w => (set_stdout (w_stdout w ++ [text])%list w, Ret tt).

Definition call_net (c : net_call) : M unit :=
  fun w => (set_net (w_net w ++ [c])%list w, Ret tt).

Definition dir_exists (d : string) (w : world) : bool :=
  existsb (String.eqb d) (w_dirs w).

Definition add_dir (d : string) : M unit :=
  fun w => (set_dirs (w_dirs w ++ [d])%list w, Ret tt).

(** [os.path.join(a, b)] on POSIX. *)
Definition path_join (a b : string) : string :=
  match b with
  | String "/" _ => b
  | _ =>
      match str_last a with
      | None => b
      | Some "/"%char => a ++ b
      | Some _ => a ++ "/" ++ b
      end
  end.

(** [os.path.normpath(path)] on POSIX: the empty and the [.] components
    go, a [..] takes the component before it away, or stays when the path
    is relative and nothing is left to take; two slashes at the start are
    kept, three or more are read as one.

<<
    initial_slashes = path.startswith('/')
    if initial_slashes and path.startswith('//') and not path.startswith('///'):
        initial_slashes = 2
    comps = path.split('/')
    new_comps = []
    for comp in comps:
        if comp in ('', '.'):
            continue
        if (comp != '..' or (not initial_slashes and not new_comps) or
             (new_comps and new_comps[-1] == '..')):
            new_comps.append(comp)
        elif new_comps:
            new_comps.pop()
    path = '/'.join(new_comps)
    if initial_slashes:
        path = '/'*initial_slashes + path
    return path or '.'
>> *)
Definition norm_step (initial_slashes : nat) (new_comps : list string)
           (comp : string) : list string :=
  if String.eqb comp "" || String.eqb comp "." then new_comps
  else if negb (String.eqb comp "..")
          || (Nat.eqb initial_slashes 0
              && match new_comps with [] => true | _ :: _ => false end)
          || String.eqb (last new_comps "") ".."
       then (new_comps ++ [comp])%list
       else removelast new_comps.

Definition normpath (path : string) : string :=
  let initial_slashes :=
    if prefix "/" path
    then if prefix "//" path && negb (prefix "///" path) then 2%nat else 1%nat
    else 0%nat in
  let new_comps := fold_left (norm_step initial_slashes) (str_split "/" path) [] in
  match (match initial_slashes with
         | O => ""
         | S O => "/"
         | _ => "//"
         end ++ str_join "/" new_comps)%string with
  | EmptyString => "."
  | normal => normal
  end.

(** [os.path.dirname(p)] on POSIX: the path up to its last slash, without
    the slashes that end it unless it is made of slashes only. *)
Fixpoint up_to_last_slash (p : string) : string :=
  match p with
  | EmptyString => EmptyString
  | String c p' =>
      if Ascii.eqb c "/" || str_in "/" p' then String c (up_to_last_slash p')
      else EmptyString
  end.

Fixpoint rstrip_slashes (s : string) : string :=
  match s with
  | EmptyString => EmptyString
  | String c s' =>
      match rstrip_slashes s' with
      | EmptyString => if Ascii.eqb c "/" then EmptyString else String c EmptyString
      | r => String c r
      end
  end.

Definition dirname (p : string) : string :=
  let head := up_to_last_slash p in
  if str_forall (Ascii.eqb "/") head then head else rstrip_slashes head.

(** ** Logging *)

(** The line of the format
    ['%(asctime)s - %(name)s - %(levelname)s - %(message)s']; the module
    functions of [logging] log to the root logger. *)
Definition format_record (r : log_record) : string :=
  r_asctime r ++ " - root - " ++ level_name (r_level r) ++ " - " ++ r_message r ++ nl.

Fixpoint log_text (rs : list log_record) : string :=
  match rs with
  | [] => ""
  | r :: rs' => format_record r ++ log_text rs'
  end.

(** The content of a file, if the file exists: the log file holds the
    records logged since it was opened. *)
Definition read_file (w : world) (path : string) : option string :=
  match w_log_file w with
  | Some f => if String.eqb f path then Some (log_text (w_log w))
              else dict_find (w_files w) path
  | None => dict_find (w_files w) path
  end.

(** A file of the run has the path. *)
Definition file_exists (path : string) (w : world) : bool :=
  match read_file w path with Some _ => true | None => false end.

(** [os.path.exists(path)], for what the run knows of the file system. *)
Definition path_exists (path : string) (w : world) : bool :=
  dir_exists path w || file_exists path w.

(** A directory that the zip library makes when nothing has its path. *)
Definition ensure_dir (d : string) : M unit :=
  fun w => if path_exists d w then (w, Ret tt) else add_dir d w.

(** [logging.basicConfig(filename=f, filemode='w', level=lvl, format=...)]
    on a root logger without handlers (or with [force=True]): the file is
    opened empty and becomes the log file; a level of [None] leaves the
    threshold as it is. *)
Definition basicConfig (filename : string) (lvl : option Z) : M unit :=
  fun w =>
    (mkWorld (w_files w) (w_dirs w) (Some filename)
             (match lvl with Some l => l | None => w_log_level w end)
             [] (w_log_count w) (w_stderr w) (w_stdout w) (w_net w),
     Ret tt).

(** [logging.debug(msg)], [logging.info(msg)], ...: a record below the
    threshold is dropped; without a configured file the record goes to
    stderr in the default format. *)
Definition log (clock : nat -> string) (l : level) (msg : string) : M unit :=
  fun w =>
    if (level_no l <? w_log_level w)%Z then (w, Ret tt)
    else
      match w_log_file w with
      | Some f =>
          (mkWorld (w_files w) (w_dirs w) (w_log_file w) (w_log_level w)
                   (w_log w ++ [mkRecord (clock (w_log_count w)) l msg])%list
                   (S (w_log_count w)) (w_stderr w) (w_stdout w) (w_net w),
           Ret tt)
      | None =>
          (mkWorld (w_files w) (w_dirs w) (w_log_file w) (w_log_level w)
                   (w_log w) (S (w_log_count w))
                   (w_stderr w ++ [(level_name l ++ ":root:" ++ msg)%string])%list
                   (w_stdout w) (w_net w),
           Ret tt)
      end.

(** The levels and messages of the records in the log file. *)
Definition log_entries (w : world) : list (level * string) :=
  map (fun r => (r_level r, r_message r)) (w_log w).

(** What a file opened with [open(path, "r")] gives for its content: in
    text mode, with the default [newline=None], a carriage return followed
    by a newline and a carriage return alone are both read as a newline. *)
Fixpoint universal_newlines (s : string) : string :=
  match s with
  | EmptyString => EmptyString
  | String c s' =>
      if Ascii.eqb c carriage_return
      then String newline
                  match s' with
                  | String c' s'' =>
                      if Ascii.eqb c' newline then universal_newlines s''
                      else universal_newlines s'
                  | EmptyString => EmptyString
                  end
      else String c (universal_newlines s')
  end.

(** The lines of a text, each with the newline that ends it. *)
Fixpoint readlines_from (cur : string) (s : string) : list string :=
  match s with
  | EmptyString =>
      match cur with EmptyString => [] | _ => [cur] end
  | String c s' =>
      if Ascii.eqb c newline
      then (cur ++ String c EmptyString) :: readlines_from EmptyString s'
      else readlines_from (cur ++ String c EmptyString) s'
  end.

(** [f.readlines()] for a file opened in text mode, from its content. *)
Definition readlines (text : string) : list string :=
  readlines_from "" (universal_newlines text).

(** ** Dates *)

Record datetime : Type := mkDatetime {
  year : N; month : N; day : N; hour : N; minute : N; second : N
}.

(** [strftime('%Y%m%d_%H%M%S')], for a year of four digits. *)
Definition strftime_compact (t : datetime) : string :=
  fixed_digits 4 (year t) ++ fixed_digits 2 (month t) ++ fixed_digits 2 (day t)
  ++ "_" ++ fixed_digits 2 (hour t) ++ fixed_digits 2 (minute t)
  ++ fixed_digits 2 (second t).

(** [strftime('%Y-%m-%dT%H:%M:%SZ')], for a year of four digits. *)
Definition strftime_iso (t : datetime) : string :=
  fixed_digits 4 (year t) ++ "-" ++ fixed_digits 2 (month t) ++ "-"
  ++ fixed_digits 2 (day t) ++ "T" ++ fixed_digits 2 (hour t) ++ ":"
  ++ fixed_digits 2 (minute t) ++ ":" ++ fixed_digits 2 (second t) ++ "Z".

(** [str(e)] *)
Definition exn_str (e : exn) : string :=
  match e with
  | IndexError => "list index out of range"
  | KeyError k => "'" ++ k ++ "'"
  | TypeError => "unsupported operand"
  | ValueError m => m
  | BadZipFile => "Bad zip file"
  | OSError => "OS error"
  | RequestException m => m
  | Exception m => m
  | SystemExit _ => ""
  | Unfinished => ""
  end.

End Sys.

Import Sys.

Declare Scope monad_scope.
Delimit Scope monad_scope with monad.
Notation "x <- m ;; k" := (bind m (fun x => k))
  (at level 61, m at next level, right associativity) : monad_scope.
Notation "m ;; k" := (bind m (fun _ => k))
  (at level 61, right associativity) : monad_scope.
#[local] Open Scope monad_scope.

(* ===================================================================== *)
(** * The diagnostics reporter of [get_rcm.py]                           *)
(* ===================================================================== *)

Module Diag.

(** [trans = {'WARNING': '2', 'ERROR': '1', 'INFO': '3', 'DEBUG': '4'}] *)
Definition trans : dict string :=
  [("WARNING", "2"); ("ERROR", "1"); ("INFO", "3"); ("DEBUG", "4")].

Definition dq : string := String dquote EmptyString.

(** The en dash U+2013, in UTF-8. *)
Definition en_dash : string :=
  String "226" (String "128" (String "147" EmptyString)).

Definition header : string :=
  "<?xml version=" ++ dq ++ "1.0" ++ dq ++ " encoding=" ++ dq ++ "UTF-8" ++ dq
    ++ "?>" ++ nl
  ++ "<Diag xmlns:xsi=" ++ dq ++ "http://www.w3.org/2001/XMLSchema-instance" ++ dq
    ++ " " ++ nl
  ++ "xmlns=" ++ dq ++ "http://www.wldelft.nl/fews/PI" ++ dq
    ++ " xsi:schemaLocation=" ++ dq ++ "http://www.wldelft.nl/fews/PI "
  ++ "http://fews.wldelft.nl/schemas/version1.0/pi-schemas/pi_diag.xsd" ++ dq
    ++ " version=" ++ dq ++ "1.2" ++ dq ++ ">" ++ nl.

Definition footer : string := "</Diag>".

(** [nth_error] as the subscript of a list: [xs[n]]. *)
Definition subscript {A} (xs : list A) (n : nat) : outcome A :=
  match nth_error xs n with
  | Some x => Ret x
  | None => Raise IndexError
  end.

(** The element written for one valid line. *)
Definition line_element (date time lvl description : string) : string :=
  "<line date=" ++ dq ++ date ++ dq ++ " time=" ++ dq ++ time ++ dq
  ++ " level=" ++ dq ++ lvl ++ dq ++ " description=" ++ dq ++ description ++ dq
  ++ "/>" ++ nl.

(** The body of the [try] in the loop of [log2xml] (DQ stands for the
    double-quote character):

<<
    lineparts = aline.strip().split(' - ')
    lineparts = [l.replace('\u2013', '').replace('DQ', '') for l in lineparts]
    datetime = lineparts[0].replace(',', ':').split(' ')
    line = '<line date=DQ{}DQ time=DQ{}DQ level=DQ{}DQ description=DQ{}DQ/>\n'
             .format(datetime[0], datetime[1][0:8], trans[lineparts[2]], lineparts[3])
>> *)
Definition clean_part (l : string) : string :=
  str_replace dq "" (str_replace en_dash "" l).

Definition diag_line (aline : string) : outcome string :=
  let lineparts := str_split " - " (str_strip aline) in
  let lineparts := map clean_part lineparts in
  obind (subscript lineparts 0) (fun first =>
  let datetime := str_split " " (str_replace "," ":" first) in
  obind (subscript datetime 0) (fun date =>
  obind (subscript datetime 1) (fun time =>
  obind (subscript lineparts 2) (fun severity =>
  obind (dict_get trans severity) (fun lvl =>
  obind (subscript lineparts 3) (fun description =>
  Ret (line_element date (str_take 8 time) lvl description))))))).

(** One turn of the loop: [try: ... xml_file.write(line)  except: nothing = True] *)
Definition diag_entry (aline : string) : string :=
  match diag_line aline with
  | Ret line => line
  | Raise _ => ""
  end.

Fixpoint diag_entries (all_lines : list string) : string :=
  match all_lines with
  | [] => ""
  | aline :: rest => diag_entry aline ++ diag_entries rest
  end.

(** What [log2xml] writes to [xmldiag] for the lines of the log file. *)
Definition diag_document (all_lines : list string) : string :=
  header ++ diag_entries all_lines ++ footer.

(** [log2xml(logfile, xmldiag)] *)
Definition log2xml (logfile xmldiag : string) : M unit :=
  fun w =>
    match read_file w logfile with
    | Some text => write_file xmldiag (diag_document (readlines text)) w
    | None => (w, Ret tt)
    end.

End Diag.

Import Diag.

(* ===================================================================== *)
(** * [scripts/RCM/get_rcm.py]                                           *)
(* ===================================================================== *)

Module Rcm.

(** What the run-description file holds, once parsed. *)
Record run_info : Type := mkRunInfo {
  ri_properties : list (list (string * string));
      (* the [fews:properties] elements: the key and value of each child *)
  ri_workdir : string;
  ri_timezone : string;
  ri_start : datetime;        (* [startDateTime], read by [strptime] *)
  ri_end : datetime;          (* [endDateTime], read by [strptime] *)
  ri_loglevel : string
}.

(** What the zip library meets when it reads the data of a member: the
    content, or an exception.  A member that cannot be opened (a header
    that does not match) fails before the target is opened and leaves
    nothing; a failure met while the data are copied (a wrong CRC) comes
    after the target is opened, and leaves what was copied by then, an
    empty file for a short member. *)
Inductive extraction : Type :=
| Extracts (content : string)
| Breaks (copied : option string) (ex : exn).

(** A member of a zip archive: its name in the archive and its data. *)
Record member : Type := mkMember {
  m_name : string;
  m_extract : extraction
}.

Record archive : Type := mkArchive {
  a_path : string;
  a_open : outcome (list member)  (* [zipfile.ZipFile(item)] and [infolist()] *)
}.

(** What [os.makedirs(d)] meets when the run knows of nothing at [d]: the
    directory is made; or something that is no directory was there before
    the run, and the call fails with the error number [EEXIST]; or the call
    fails with another error number. *)
Inductive mkdir_answer : Type := Made | Occupied | Refused.

(** What the run meets outside the script. *)
Record env : Type := mkEnv {
  info_file : option run_info;      (* None: [ET.parse(infofile)] raises *)
  clock : nat -> string;            (* the [asctime] of the n-th log record *)
  elapsed : string;                 (* ['{:.2f}'.format(time.time() - start_time)] *)
  geojson_files : list geojson;     (* the objects in [workdir/*.geojson] *)
  eodms_search : string -> dict (string * filter_value) -> list (string * string)
                 -> list (string * string) -> outcome (list string);
      (* [rapi.search(...)] followed by [rapi.get_results('raw')] *)
  results_text : list string -> string;  (* what [rapi.print_results()] prints *)
  eodms_order : list string -> outcome (list string);
  eodms_download : list string -> string -> Z -> outcome (list string);
  mkdir : string -> mkdir_answer;   (* what [os.makedirs] meets *)
  glob_zip : string -> list archive (* the archives matching [out_dir/*.zip] *)
}.

(** [producttype = 'GRD'] *)
Definition producttype : string := "GRD".

(** [quit()], that is [sys.exit()]. *)
Definition quit {A} : M A := raise (SystemExit None).

(** <<
    def create_subdir(directory):
        try:
            os.makedirs(directory)
        except OSError as e:
            if e.errno != errno.EEXIST:
                raise
        return directory
>>

    [os.makedirs] fails with [EEXIST] when the path exists, whether a
    directory has it or a file: the handler lets the call return in both
    cases, and in the second no directory is there. *)
Definition create_subdir (e : env) (directory : string) : M string :=
  fun w =>
    if path_exists directory w then (w, Ret directory)
    else match mkdir e directory with
         | Made => (add_dir directory ;; ret directory) w
         | Occupied => (w, Ret directory)
         | Refused => (w, Raise OSError)
         end.

(** [sorted(files)]: insertion into a list ordered by path. *)
Fixpoint insert_sorted (a : archive) (l : list archive) : list archive :=
  match l with
  | [] => [a]
  | b :: l' =>
      if String.leb (a_path a) (a_path b) then a :: l
      else b :: insert_sorted a l'
  end.

Definition sorted (l : list archive) : list archive :=
  fold_left (fun acc a => insert_sorted a acc) l [].

(** [os.remove(path)] *)
Definition remove_file (path : string) : M unit :=
  fun w =>
    (set_files (filter (fun kv => negb (String.eqb (fst kv) path)) (w_files w)) w,
     Ret tt).

(** ** [zipfile.ZipFile.extract]

    The member is written under [path], at a place that its name cannot
    take out of [path]: the library drops the empty, [.] and [..]
    components of the name before it joins it to [path].

<<
    arcname = member.filename.replace('/', os.path.sep)
    ...
    invalid_path_parts = ('', os.path.curdir, os.path.pardir)
    arcname = os.path.sep.join(x for x in arcname.split(os.path.sep)
                               if x not in invalid_path_parts)
    ...
    targetpath = os.path.join(targetpath, arcname)
    targetpath = os.path.normpath(targetpath)
    upperdirs = os.path.dirname(targetpath)
    if upperdirs and not os.path.exists(upperdirs):
        os.makedirs(upperdirs)
    if member.is_dir():
        if not os.path.isdir(targetpath):
            os.mkdir(targetpath)
        return targetpath
    with self.open(member, pwd=pwd) as source, \
         open(targetpath, "wb") as target:
        shutil.copyfileobj(source, target)
    return targetpath
>>

    The file system takes the directories and the files that the library
    asks for, but a file whose path is the one of the directory [path]
    itself, which a name without a component gives: [open] fails on it with
    an [OSError].  A member without a name at all is outside the model (the
    versions of the library differ on it). *)
Definition valid_part (x : string) : bool :=
  negb (String.eqb x "" || String.eqb x "." || String.eqb x "..").

Definition arcname (filename : string) : string :=
  str_join "/" (filter valid_part (str_split "/" filename)).

(** [member.is_dir()]: the name ends with a slash. *)
Definition is_dir (m : member) : bool :=
  match str_last (m_name m) with
  | Some c => Ascii.eqb c "/"
  | None => false
  end.

Definition targetpath (path : string) (m : member) : string :=
  normpath (path_join path (arcname (m_name m))).

Definition zf_extract (path : string) (m : member) : M unit :=
  let target := targetpath path m in
  let upperdirs := dirname target in
  (if String.eqb upperdirs "" then ret tt else ensure_dir upperdirs) ;;
  if is_dir m then ensure_dir target
  else
    match m_extract m with
    | Breaks None ex => raise ex
    | Extracts content =>
        if String.eqb (arcname (m_name m)) "" then raise OSError
        else write_file target content
    | Breaks (Some copied) ex =>
        if String.eqb (arcname (m_name m)) "" then raise OSError
        else write_file target copied ;; raise ex
    end.

(** <<
    try:
        zf.extract(member, path=new_path)
    except zipfile.error as e:
        pass
>> *)
Definition extract_member (new_path : string) (m : member) : M unit :=
  try_except
    (zf_extract new_path m)
    (fun ex => match ex with BadZipFile => Some (ret tt) | _ => None end).

(** <<
    def extract_all(out_dir, remove=False):
        files = sorted(glob.glob(os.path.join(out_dir, '*.zip')))
        for item in files:
            logging.debug(item)
            new_path = create_subdir(os.path.join(out_dir, os.path.splitext(item)[0]))
            with zipfile.ZipFile(item) as zf:
                for member in tqdm(zf.infolist(), desc='Extracting '):
                    try:
                        zf.extract(member, path=new_path)
                    except zipfile.error as e:
                        pass
            zf.close()
            if remove is True:
                os.remove(item)
>>
    A path matched by [*.zip] ends in [.zip], so that [splitext(item)[0]]
    is the path without its last four characters. *)
Definition extract_item (e : env) (out_dir : string) (remove : bool) (item : archive)
  : M unit :=
  log (clock e) DEBUG (a_path item) ;;
  new_path <- create_subdir e (path_join out_dir (str_drop_last 4 (a_path item))) ;;
  members <- lift (a_open item) ;;
  for_each members (extract_member new_path) ;;
  if remove then remove_file (a_path item) else ret tt.

Definition extract_all (e : env) (out_dir : string) (remove : bool) : M unit :=
  let files := sorted (glob_zip e out_dir) in
  for_each files (extract_item e out_dir remove).

(** <<
    def remove_html_tags(text):
        TAG_RE = re.compile(r'<[^>]+>')
        text_new = TAG_RE.sub('', text)
        return text_new.replace('\n', ' ').replace('-', ':')
>>
    A match of the expression starts at a [<] that is followed by a
    character other than [>] and, further on, by a [>]; it ends at the first
    such [>].  [sub] deletes the matches found from left to right, each
    search starting where the match before it ended.  [in_tag] tells
    whether the current character is inside a match. *)
Definition opens_tag (rest : string) : bool :=
  match rest with
  | EmptyString => false
  | String c t => negb (Ascii.eqb c ">") && str_in ">" t
  end.

Fixpoint sub_tags (in_tag : bool) (s : string) : string :=
  match s with
  | EmptyString => EmptyString
  | String c s' =>
      if in_tag then
        if Ascii.eqb c ">" then sub_tags false s' else sub_tags true s'
      else if Ascii.eqb c "<" && opens_tag s' then sub_tags true s'
      else String c (sub_tags false s')
  end.

Definition remove_html_tags (text : string) : string :=
  let text_new := sub_tags false text in
  str_replace "-" ":" (str_replace nl " " text_new).

(** [repr] of a list of strings without quotes or backslashes. *)
Definition repr_list (l : list string) : string :=
  "[" ++ str_join ", " (map (fun s => "'" ++ s ++ "'") l) ++ "]".

Definition required_keys : list string :=
  ["destinationDir"; "user"; "secret"; "mission"; "unzip"; "download_type";
   "timeout"; "resolution"; "polarization"].

Definition check : dict (list string) :=
  [("mission", ["RCMImageProducts"]);
   ("download_type", ["acquisition"; "ingestion"]);
   ("unzip", ["True"; "False"]);
   ("resolution", ["Any"; "100M"; "50M"; "30M"; "16M"; "5M"; "3M"; "FSL"; "H"; "LNS"]);
   ("polarization", ["Any"; "CH CV"; "HH"; "HH HV"; "HH HV VH VV"; "HH VV"; "HV";
                     "VH"; "VH VV"; "VV"])].

Definition missing_msg (k : string) : string :=
  "Property [ " ++ k ++ " ] is not configured. Add property [ " ++ k
  ++ " ] to the xml input file. ".

Definition wrong_msg (key : string) (allowed : list string) : string :=
  "Wrong input to property [ " ++ key ++ " ], has to be one of: " ++ repr_list allowed.

(** [x in l] for strings. *)
Definition str_mem (x : string) (l : list string) : bool := existsb (String.eqb x) l.

(** <<
    def error_check(properties):
        for k in ['destinationDir', ..., 'polarization']:
            if k not in properties.keys():
                logging.error('Property [ {} ] is not configured. ...'.format(k, k))
                quit()
        check = {...}
        for key in properties:
            if key in check:
                if properties[key] not in check[key]:
                    logging.error('Wrong input to property [ {} ], has to be one of: {}'
                                  .format(key, check[key]))
                    quit()
        return properties
>> *)
Definition error_check (e : env) (properties : dict string) : M (dict string) :=
  for_each required_keys
    (fun k =>
       if dict_mem properties k then ret tt
       else log (clock e) ERROR (missing_msg k) ;; quit) ;;
  for_each properties
    (fun kv =>
       match dict_find check (fst kv) with
       | Some allowed =>
           if str_mem (snd kv) allowed then ret tt
           else log (clock e) ERROR (wrong_msg (fst kv) allowed) ;; quit
       | None => ret tt
       end) ;;
  ret properties.

(** <<
    filters = {'Beam Mnemonic': ('like', ['%'+properties['resolution']+'%']),
               'Product Type': ('=', producttype),
               'Polarization': ('like', ['%'+properties['polarization']+'%'])}
>> *)
Definition build_filters (resolution polarization : string)
  : dict (string * filter_value) :=
  [("Beam Mnemonic", ("like", FList ["%" ++ resolution ++ "%"]));
   ("Product Type", ("=", FStr producttype));
   ("Polarization", ("like", FList ["%" ++ polarization ++ "%"]))].

(** [execute_download()], with the module-level names it reads. *)
Definition execute_download (e : env) (properties : dict string)
           (workdir t0 t1 : string) : M unit :=
  let logfile := path_join workdir "log.txt" in
  let diagfile := path_join workdir "diag.xml" in
  log (clock e) DEBUG "RCMSearch loaded" ;;
  (* rapi = EODMSRAPI(properties['user'], properties['secret']) *)
  _ <- lift (dict_get properties "user") ;;
  _ <- lift (dict_get properties "secret") ;;
  geo_object <- lift (subscript (geojson_files e) 0) ;;
  wkt <- lift (snd (geojson_to_wkt geo_object 0 4)) ;;
  let feat := [("intersects", wkt)] in
  resolution <- lift (dict_get properties "resolution") ;;
  polarization <- lift (dict_get properties "polarization") ;;
  let filters := build_filters resolution polarization in
  let dates := [(t0, t1)] in
  mission <- lift (dict_get properties "mission") ;;
  call_net (EodmsSearch mission filters feat dates) ;;
  res <- lift (eodms_search e mission filters feat dates) ;;
  print (results_text e res) ;;
  (if (List.length res =? 0)%nat
   then log (clock e) INFO "No images found, exiting download script..." ;;
        log2xml logfile diagfile ;;
        quit
   else ret tt) ;;
  call_net (EodmsOrder res) ;;
  order_res <- lift (eodms_order e res) ;;
  timeout <- lift (dict_get properties "timeout") ;;
  max_attempts <- lift (int_of_float_str timeout) ;;
  dest <- lift (dict_get properties "destinationDir") ;;
  dest <- create_subdir e dest ;;
  call_net (EodmsDownload order_res dest max_attempts) ;;
  download_res <- lift (eodms_download e order_res dest max_attempts) ;;
  (if (List.length download_res =? 0)%nat
   then print ("Ordering images took longer than " ++ repr_int max_attempts
               ++ " minutes. Continue...") ;;
        log (clock e) WARNING ("Ordering RCM images took longer than "
                               ++ repr_int max_attempts ++ " minutes. Continue...") ;;
        log2xml logfile diagfile
   else ret tt) ;;
  unzip <- lift (dict_get properties "unzip") ;;
  (if String.eqb unzip "True"
   then log (clock e) DEBUG "Extracting products : ..." ;;
        dest <- lift (dict_get properties "destinationDir") ;;
        dest <- create_subdir e dest ;;
        extract_all e dest false ;;
        log (clock e) DEBUG "Extracting finished."
   else log (clock e) DEBUG "Attribute unzip set to false, not unzipping files.") ;;
  log (clock e) INFO ("Download finished in : " ++ elapsed e ++ "s") ;;
  log2xml logfile diagfile.

(** The script from its first line: the module-level code, then
    [execute_download()]. *)
Definition main (e : env) : M unit :=
  match info_file e with
  | None =>
      print "ERROR: Reading INFO file - file not found. Check path to INFO file. " ;;
      raise (SystemExit None)
  | Some info =>
      props <- lift (subscript (ri_properties info) 0) ;;
      let properties := dict_of_pairs props in
      let workdir := ri_workdir info in
      let t0 := strftime_compact (ri_start info) in
      let t1 := strftime_compact (ri_end info) in
      basicConfig (path_join workdir "log.txt") (numeric_level (ri_loglevel info)) ;;
      execute_download e properties workdir t0 t1
  end.

End Rcm.

(* ===================================================================== *)
(** * [scripts/sentinel/SentinelClient.py] and [get_sentinel.py]         *)
(* ===================================================================== *)

Module Sentinel.

(** The fields of [SentinelProduct] that the client reads. *)
Record product : Type := mkProduct {
  p_id : string;
  p_name : string
}.

(** What [response.json()] gives: not JSON at all, or an object of which
    the members ["value"] and ["access_token"] are looked at.  An item of
    ["value"] that lacks one of the keys read by [create_sentinel_product]
    is [None]. *)
Inductive json_doc : Type :=
| JsonInvalid
| JsonObject (value : option (list (option product))) (access_token : option string).

Record response : Type := mkResponse {
  status_code : Z;
  reason : string;
  location : option string;      (* the header [Location] *)
  content : string;
  json : json_doc
}.

(** A file matched by [workdir/*.geojson]: text that is not JSON, or the
    list under ["features"] with, for each feature, what
    [shape(feature.get("geometry"))] gives: the geometry, by its WKT. *)
Inductive geojson_file : Type :=
| NotJson
| Features (fs : list (outcome string)).

Record info : Type := mkInfo {
  i_properties : list (list (string * string));
  i_log_level : string;
  i_workdir : string;
  i_timezone : string;
  i_start : option datetime;     (* None: [strptime] raises ValueError *)
  i_end : option datetime
}.

Inductive info_file_result : Type :=
| FileNotFound (err : string)
| Unparsable (err : string)
| Parsed (i : info).

Record env : Type := mkEnv {
  info_file : info_file_result;
  clock : nat -> string;
  geojson_files : list geojson_file;
  http_get : string -> outcome response;   (* [session.get(url, ...)] *)
  http_post : string -> outcome response;  (* [session.post(url, ...)] *)
  time_error : string                      (* the text of strptime's ValueError *)
}.

(** The attributes of [FewsConfig] set by [__post_init__]. *)
Record config : Type := mkConfig {
  log_level : string;
  mission : string;
  user : string;
  secret : string;
  download_type : string;
  product_type : string;
  product_mode : string;
  out_dir : string;
  workdir : string;
  timezone : string;
  start_time : string;
  end_time : string;
  geometry_wkt : string
}.

Definition no_polygon_msg : string :=
  "No polygon available, please place a geojson object in the WORK directory".

(** [FewsConfig.__post_init__] *)
Definition FewsConfig (e : env) : M config :=
  match info_file e with
  | FileNotFound err =>
      log (clock e) ERROR ("ERROR: Reading INFO file - " ++ err) ;;
      raise (SystemExit (Some 1%Z))
  | Unparsable err =>
      log (clock e) ERROR
          ("ERROR: An error occurred while parsing the INFO file: " ++ err) ;;
      raise (SystemExit (Some 1%Z))
  | Parsed i =>
      match i_properties i with
      | [] =>
          log (clock e) ERROR "ERROR: No 'properties' element found in INFO file." ;;
          raise (SystemExit (Some 1%Z))
      | first :: _ =>
          let props := dict_of_pairs first in
          let wd := i_workdir i in
          basicConfig (path_join wd "log.txt") (numeric_level (i_log_level i)) ;;
          log (clock e) INFO "start logging" ;;
          times <-
            match i_start i, i_end i with
            | Some t0, Some t1 => ret (strftime_iso t0, strftime_iso t1)
            | _, _ =>
                log (clock e) ERROR
                    ("ERROR: Error parsing start or end time - " ++ time_error e) ;;
                raise (ValueError (time_error e))
            end ;;
          first_file <-
            match geojson_files e with
            | [] => log (clock e) ERROR no_polygon_msg ;; raise (Exception no_polygon_msg)
            | f :: rest =>
                (match rest with
                 | [] => ret tt
                 | _ :: _ =>
                     log (clock e) WARNING
                       "Multiple geojson files detected. Selecting the first file from the list."
                 end) ;;
                ret f
            end ;;
          features <-
            match first_file with
            | NotJson =>
                log (clock e) ERROR
                  "Can not decode geojson, check the file and make sure it contains a polygon" ;;
                raise (SystemExit (Some 1%Z))
            | Features fs => ret fs
            end ;;
          match features with
          | [] =>
              log (clock e) ERROR "Geojson does not contain a feature" ;;
              raise (Exception "Geojson does not contain a feature")
          | g :: more =>
              wkt <- lift g ;;
              (match more with
               | [] => ret tt
               | _ :: _ =>
                   log (clock e) WARNING
                     "Multiple geojson objects detected. Selecting the first object from the list."
               end) ;;
              ret (mkConfig (i_log_level i)
                            (dict_get_default props "mission" "")
                            (dict_get_default props "user" "")
                            (dict_get_default props "secret" "")
                            (dict_get_default props "download_type" "")
                            (dict_get_default props "product_type" "")
                            (dict_get_default props "product_mode" "")
                            (dict_get_default props "destinationDir" "")
                            wd (i_timezone i) (fst times) (snd times) wkt)
          end
      end
  end.

(** [response.raise_for_status()]: an [HTTPError], which is a
    [RequestException], for the status codes from 400 to 599. *)
Definition raise_for_status (url : string) (r : response) : outcome unit :=
  if (400 <=? status_code r)%Z && (status_code r <? 500)%Z
  then Raise (RequestException
                (repr_int (status_code r) ++ " Client Error: " ++ reason r
                 ++ " for url: " ++ url))
  else if (500 <=? status_code r)%Z && (status_code r <? 600)%Z
  then Raise (RequestException
                (repr_int (status_code r) ++ " Server Error: " ++ reason r
                 ++ " for url: " ++ url))
  else Ret tt.

Definition token_url : string :=
  "https://identity.dataspace.copernicus.eu/auth/realms/CDSE/protocol/openid-connect/token".

Definition is_request_exception (ex : exn) : bool :=
  match ex with RequestException _ => true | _ => false end.

Definition is_value_or_key_error (ex : exn) : bool :=
  match ex with ValueError _ | KeyError _ => true | _ => false end.

(** [try: m  except C as e: logging.error(text(e)); raise Exception(text(e))] *)
Definition log_and_wrap {A} (e : env) (catches : exn -> bool)
           (text : exn -> string) (m : M A) : M A :=
  try_except m
    (fun ex =>
       if catches ex
       then Some (log (clock e) ERROR (text ex) ;; raise (Exception (text ex)))
       else None).

(** [SentinelClient.get_keycloak] *)
Definition get_keycloak (e : env) : M string :=
  r <- log_and_wrap e is_request_exception
         (fun ex => "Keycloak token creation failed, check your login credentials. Error: "
                    ++ exn_str ex)
         (call_net (HttpPost token_url) ;;
          r <- lift (http_post e token_url) ;;
          lift (raise_for_status token_url r) ;;
          ret r) ;;
  log_and_wrap e is_value_or_key_error
    (fun ex => "Error parsing Keycloak response: " ++ exn_str ex)
    (match json r with
     | JsonInvalid => raise (ValueError "Expecting value")
     | JsonObject _ None => raise (KeyError "access_token")
     | JsonObject _ (Some token) => ret token
     end).

Definition catalogue : string :=
  "https://catalogue.dataspace.copernicus.eu/odata/v1/Products".

Definition search_tail (c : config) (date_type : string) : string :=
  "and OData.CSC.Intersects(area=geography'SRID=4326;" ++ geometry_wkt c
  ++ "') and " ++ date_type ++ " gt " ++ start_time c ++ " "
  ++ "and " ++ date_type ++ " lt " ++ end_time c
  ++ " and Attributes/OData.CSC.StringAttribute/any(att:att/Name eq 'productType' "
  ++ "and att/OData.CSC.StringAttribute/Value eq '" ++ product_type c
  ++ "')&$top=100".

Definition search_url_s1 (c : config) (date_type : string) : string :=
  catalogue ++ "?$filter=Collection/Name eq '" ++ mission c ++ "' "
  ++ "and contains(Name,'_" ++ product_mode c ++ "_') "
  ++ "and contains(Name,'1SDV') "
  ++ search_tail c date_type.

Definition search_url_s2 (c : config) (date_type : string) : string :=
  catalogue ++ "?$filter=Collection/Name eq '" ++ mission c ++ "' "
  ++ search_tail c date_type.

Definition mission_msg : string :=
  "Choose one of SENTINEL-1 or SENTINEL-2 for the mission".

(** [[self.create_sentinel_product(item) for item in items]] *)
Definition create_products (items : list (option product)) : outcome (list product) :=
  omap (fun item => match item with
                    | Some p => Ret p
                    | None => Raise (KeyError "Id")
                    end) items.

(** [SentinelClient.search_products] *)
Definition search_products (e : env) (c : config) : M (list product) :=
  date_type <-
    (if String.eqb (download_type c) "ingestion" then ret "PublicationDate"
     else if String.eqb (download_type c) "acquisition" then ret "ContentDate/Start"
     else log (clock e) ERROR
              "Choose one of acquistion or ingestion for the download_type" ;;
          raise (ValueError
                   "Choose one of acquisition or ingestion for the download_type")) ;;
  response <-
    log_and_wrap e is_request_exception
      (fun ex => "Product search failed. Error: " ++ exn_str ex)
      (url <-
         (if String.eqb (mission c) "SENTINEL-1" then ret (search_url_s1 c date_type)
          else if String.eqb (mission c) "SENTINEL-2" then ret (search_url_s2 c date_type)
          else log (clock e) ERROR mission_msg ;; raise (ValueError mission_msg)) ;;
       call_net (HttpGet url None) ;;
       r <- lift (http_get e url) ;;
       lift (raise_for_status url r) ;;
       ret r) ;;
  sentinel_products <-
    log_and_wrap e is_value_or_key_error
      (fun ex => "Error parsing product search response: " ++ exn_str ex)
      (match json response with
       | JsonInvalid => raise (ValueError "Expecting value")
       | JsonObject None _ => ret []
       | JsonObject (Some items) _ => lift (create_products items)
       end) ;;
  log (clock e) INFO
      ("Returned product IDS: " ++ Rcm.repr_list (map p_id sentinel_products)) ;;
  (match sentinel_products with
   | [] => log (clock e) INFO "No products found for given search criteria"
   | _ :: _ => ret tt
   end) ;;
  ret sentinel_products.

Definition is_redirect (code : Z) : bool :=
  (code =? 301)%Z || (code =? 302)%Z || (code =? 303)%Z || (code =? 307)%Z.

(** <<
    while response.status_code in (301, 302, 303, 307):
        url = response.headers["Location"]
        response = self.session.get(url, allow_redirects=False)
>>
    [fuel] bounds the number of turns of the loop; the result carries the
    last [url] with the response.  The headers of a response ignore the
    case of their keys: the [KeyError] of a missing header carries the key
    in lower case. *)
Fixpoint follow_redirects (e : env) (token : string) (fuel : nat)
         (url : string) (r : response) : M (string * response) :=
  if is_redirect (status_code r) then
    match fuel with
    | O => raise Unfinished
    | S fuel' =>
        match location r with
        | None => raise (KeyError "location")
        | Some url' =>
            call_net (HttpGet url' (Some token)) ;;
            r' <- lift (http_get e url') ;;
            follow_redirects e token fuel' url' r'
        end
    end
  else ret (url, r).

(** The body of the loop of [download_products], for one product. *)
Definition download_one (e : env) (c : config) (token : string) (fuel : nat)
           (p : product) : M unit :=
  let url := catalogue ++ "(" ++ p_id p ++ ")/$value" in
  log (clock e) INFO ("Download file from: " ++ url) ;;
  call_net (HttpGet url (Some token)) ;;
  response <- lift (http_get e url) ;;
  ur <- follow_redirects e token fuel url response ;;
  lift (raise_for_status (fst ur) (snd ur)) ;;
  let file_content := content (snd ur) in
  (fun w => if dir_exists (out_dir c) w then (w, Ret tt) else add_dir (out_dir c) w) ;;
  write_file (path_join (out_dir c) (p_name p ++ ".zip")) file_content ;;
  log (clock e) INFO
      ("Written product file to: " ++ path_join (out_dir c) (p_name p ++ ".zip")).

(** [SentinelClient.download_products] *)
Definition download_products (e : env) (c : config) (fuel : nat) : M unit :=
  log_and_wrap e is_request_exception
    (fun ex => "Product download failed. Error: " ++ exn_str ex)
    (sentinel_products <- search_products e c ;;
     match sentinel_products with
     | [] => ret tt
     | _ :: _ =>
         keycloak_token <- get_keycloak e ;;
         log (clock e) DEBUG "Token generated" ;;
         for_each sentinel_products (download_one e c keycloak_token fuel)
     end).

(** [main()] of [get_sentinel.py]: the configuration is built twice. *)
Definition main (e : env) (fuel : nat) : M unit :=
  _ <- FewsConfig e ;;
  config <- FewsConfig e ;;
  download_products e config fuel.

End Sentinel.

(* ===================================================================== *)
(** * Reading a polygon back from its text                               *)
(* ===================================================================== *)

(** The reader against which the round trip of [geojson_to_wkt] is stated:
    it accepts the text [POLYGON((x y,x y,...),(x y,...))] and returns, ring
    by ring, the numbers of each vertex. *)

Module WktRead.

Fixpoint strip_prefix (p s : string) : option string :=
  match p with
  | EmptyString => Some s
  | String a p' =>
      match s with
      | EmptyString => None
      | String b s' => if Ascii.eqb a b then strip_prefix p' s' else None
      end
  end.

Fixpoint strip_suffix (suffix s : string) : option string :=
  if String.eqb s suffix then Some EmptyString
  else match s with
       | EmptyString => None
       | String c s' =>
           match strip_suffix suffix s' with
           | Some r => Some (String c r)
           | None => None
           end
       end.

Fixpoint all_some {A B} (f : A -> option B) (xs : list A) : option (list B) :=
  match xs with
  | [] => Some []
  | x :: xs' =>
      match f x, all_some f xs' with
      | Some y, Some ys => Some (y :: ys)
      | _, _ => None
      end
  end.

Definition read_vertex (s : string) : option (list Q) :=
  all_some parse_decimal (str_split " " s).

Definition read_ring (s : string) : option (list (list Q)) :=
  all_some read_vertex (str_split "," s).

Definition read_polygon (s : string) : option (list (list (list Q))) :=
  match strip_prefix "POLYGON((" s with
  | None => None
  | Some t =>
      match strip_suffix "))" t with
      | None => None
      | Some body => all_some read_ring (str_split "),(" body)
      end
  end.

End WktRead.

Import WktRead.

(* ===================================================================== *)
(** * Notions used to state the properties                               *)
(* ===================================================================== *)

Module Notions.

(** The characters of a rendered number. *)
Definition num_char (c : ascii) : bool :=
  is_digit c || Ascii.eqb c "-" || Ascii.eqb c ".".

(** The characters of a rendered vertex. *)
Definition vertex_char (c : ascii) : bool := num_char c || Ascii.eqb c " ".

(** The characters of a rendered ring. *)
Definition ring_char (c : ascii) : bool := vertex_char c || Ascii.eqb c ",".

(** ** Polygons *)

(** A vertex as GeoJSON gives it: a longitude, a latitude and what may
    follow them (an elevation). *)
Record vertex : Type := mkVertex {
  v_lon : Q;
  v_lat : Q;
  v_more : list coords
}.

Definition vertex_coords (v : vertex) : coords :=
  Seq (Num (v_lon v) :: Num (v_lat v) :: v_more v).

Definition ring_coords (r : list vertex) : coords := Seq (map vertex_coords r).

(** The coordinates of a polygon: the list of its rings. *)
Definition polygon_coords (rings : list (list vertex)) : coords :=
  Seq (map ring_coords rings).

Definition polygon (rings : list (list vertex)) : geojson :=
  Geometry (mkGeometry Polygon (polygon_coords rings)).

(** The vertex without what follows the latitude. *)
Definition flat (v : vertex) : vertex := mkVertex (v_lon v) (v_lat v) [].

(** Longitude in [-180, 180] and latitude in [-90, 90]. *)
Definition in_bounds (v : vertex) : bool :=
  negb (out_of 180 (v_lon v)) && negb (out_of 90 (v_lat v)).

Definition nonempty {A} (l : list A) : bool :=
  match l with [] => false | _ :: _ => true end.

(** A polygon has a ring, a ring has a vertex, every vertex is in bounds. *)
Definition valid_polygon (rings : list (list vertex)) : bool :=
  nonempty rings
  && forallb (fun r => nonempty r && forallb in_bounds r) rings.

(** The value of [round(x, d)] in positional notation, with [d] digits
    after the point and a sign for a negative [x]; without a point when
    [d] is zero. *)
Definition decimal_text (x : Q) (d : nat) : string :=
  match d with
  | O => repr_int (round_units x 0)
  | S _ =>
      let m := Z.abs_N (round_units x d) in
      let p := (10 ^ N.of_nat d)%N in
      (if (Qnum x <? 0)%Z then "-" else "")
      ++ nat_digits (m / p) ++ "." ++ fixed_digits d (m mod p)
  end.

(** The text of a polygon without the spaces of layout: the two numbers of
    a vertex are separated by one space, vertices and rings by a comma. *)
Definition vertex_text (d : nat) (v : vertex) : string :=
  decimal_text (v_lon v) d ++ " " ++ decimal_text (v_lat v) d.

Definition ring_text (d : nat) (r : list vertex) : string :=
  str_join "," (map (vertex_text d) r).

Definition polygon_text (d : nat) (rings : list (list vertex)) : string :=
  "POLYGON(" ++ str_join "," (map (fun r => "(" ++ ring_text d r ++ ")") rings) ++ ")".

(** The text that [geomet.wkt.dumps] gives for a ring and for a polygon. *)
Definition ring_wkt (d : nat) (r : list vertex) : string :=
  str_join ", " (map (vertex_text d) r).

Definition polygon_wkt (d : nat) (rings : list (list vertex)) : string :=
  "POLYGON (" ++ str_join ", " (map (fun r => paren (ring_wkt d r)) rings) ++ ")".

(** The vertices of a polygon, in two dimensions, rounded to [d] decimals. *)
Definition rounded (d : nat) (rings : list (list vertex)) : list (list (list Q)) :=
  map (map (fun v => [py_round (v_lon v) d; py_round (v_lat v) d])) rings.

(** ** Coordinates in general *)

(** Coordinates shaped as GeoJSON asks: vertices that begin with two
    numbers, in lists that are not empty. *)
Fixpoint well_formed (c : coords) : bool :=
  match c with
  | Num _ => false
  | Seq xs =>
      match xs with
      | Num _ :: Num _ :: _ => true
      | Seq _ :: _ =>
          forallb well_formed xs
      | _ => false
      end
  end.

(** Every vertex has its longitude in [-180, 180] and its latitude in
    [-90, 90]. *)
Fixpoint in_range (c : coords) : bool :=
  match c with
  | Num _ => true
  | Seq xs =>
      match xs with
      | Num lon :: Num lat :: _ => negb (out_of 180 lon) && negb (out_of 90 lat)
      | Seq _ :: _ =>
          forallb in_range xs
      | _ => true
      end
  end.

(** No vertex has more than two coordinates. *)
Fixpoint is_2d (c : coords) : bool :=
  match c with
  | Num _ => true
  | Seq xs =>
      match xs with
      | Seq _ :: _ =>
          forallb is_2d xs
      | _ => (List.length xs <=? 2)%nat
      end
  end.

(** The object that [geojson_to_wkt] leaves behind: the coordinates of the
    selected geometry are replaced by their projection on two dimensions,
    when there is a selected geometry and the projection succeeds. *)
Definition projected (obj : geojson) (feature_number : Z) : geojson :=
  match select_geometry obj feature_number with
  | Raise _ => obj
  | Ret (p, g) =>
      match ensure_2d (g_coordinates g) with
      | Raise _ => obj
      | Ret c2 => store_coordinates obj p c2
      end
  end.

(** A point, as a bare geometry. *)
Definition point (cs : list Z) : geojson :=
  Geometry (mkGeometry Point (Seq (map (fun z => Num (inject_Z z)) cs))).

(** A line with a vertex north of the pole, in a feature. *)
Definition track_geometry : geometry :=
  mkGeometry LineString
    (Seq [Seq [Num (inject_Z 10); Num (inject_Z 20)];
          Seq [Num (inject_Z 10); Num (inject_Z 91); Num (inject_Z 5)]]).

Definition track : geojson :=
  Feature (mkFeature track_geometry [("name", "track")]).

(** ** Effects *)

(** A computation that leaves a part of the world as it finds it. *)
Definition preserves {A X} (part : world -> X) (m : M A) : Prop :=
  forall w, part (fst (m w)) = part w.

(** A computation that, started with the logger on [logfile] and ended
    without exception, leaves in [diagfile] the rendering of the log file
    as it stands at the end. *)
Definition ends_with_diagnostics {A} (logfile diagfile : string) (m : M A) : Prop :=
  forall w w' a,
    w_log_file w = Some logfile ->
    m w = (w', Ret a) ->
    dict_find (w_files w') diagfile
    = Some (diag_document (readlines (log_text (w_log w')))).

Definition is_search (call : net_call) : bool :=
  match call with EodmsSearch _ _ _ _ => true | _ => false end.

(** A path that ends in [.zip]. *)
Definition is_zip (path : string) : bool :=
  match strip_suffix ".zip" path with Some _ => true | None => false end.

(** The content of a file, among the files written. *)
Definition file_at (path : string) (w : world) : option string :=
  dict_find (w_files w) path.

(** The logger: its file and its threshold. *)
Definition logger (w : world) : option string * Z := (w_log_file w, w_log_level w).

(** The entries that the log file takes, among those emitted: the ones at
    or above the threshold, when the logger writes to a file. *)
Definition accepted (w : world) (entries : list (level * string))
  : list (level * string) :=
  match w_log_file w with
  | Some _ => filter (fun e => negb (level_no (fst e) <? w_log_level w)%Z) entries
  | None => []
  end.

(** The files after a list of writes. *)
Definition written (fs : dict string) (writes : list (string * string)) : dict string :=
  fold_left (fun d kv => dict_set d (fst kv) (snd kv)) writes fs.

(** ** The downloads of the Sentinel client *)

Definition product_url (p : Sentinel.product) : string :=
  Sentinel.catalogue ++ "(" ++ Sentinel.p_id p ++ ")/$value".

Definition artifact_path (c : Sentinel.config) (p : Sentinel.product) : string :=
  path_join (Sentinel.out_dir c) (Sentinel.p_name p ++ ".zip").

(** The redirections followed from a response, without the effects: the
    last address and the last response. *)
Fixpoint resolve (e : Sentinel.env) (fuel : nat) (url : string)
         (r : Sentinel.response) : outcome (string * Sentinel.response) :=
  if Sentinel.is_redirect (Sentinel.status_code r) then
    match fuel with
    | O => Raise Unfinished
    | S fuel' =>
        match Sentinel.location r with
        | None => Raise (KeyError "location")
        | Some url' =>
            match Sentinel.http_get e url' with
            | Ret r' => resolve e fuel' url' r'
            | Raise ex => Raise ex
            end
        end
    end
  else Ret (url, r).

(** The requests issued while following the redirections. *)
Fixpoint redirect_calls (e : Sentinel.env) (token : string) (fuel : nat)
         (r : Sentinel.response) : list net_call :=
  if Sentinel.is_redirect (Sentinel.status_code r) then
    match fuel with
    | O => []
    | S fuel' =>
        match Sentinel.location r with
        | None => []
        | Some url' =>
            HttpGet url' (Some token)
            :: match Sentinel.http_get e url' with
               | Ret r' => redirect_calls e token fuel' r'
               | Raise _ => []
               end
        end
    end
  else [].

(** What the exchange for one product gives: the content of the archive,
    or the exception that ends the exchange. *)
Definition product_content (e : Sentinel.env) (fuel : nat) (p : Sentinel.product)
  : outcome string :=
  obind (Sentinel.http_get e (product_url p)) (fun r =>
  obind (resolve e fuel (product_url p) r) (fun ur =>
  obind (Sentinel.raise_for_status (fst ur) (snd ur)) (fun _ =>
  Ret (Sentinel.content (snd ur))))).

(** The requests issued for one product. *)
Definition product_calls (e : Sentinel.env) (token : string) (fuel : nat)
           (p : Sentinel.product) : list net_call :=
  HttpGet (product_url p) (Some token)
  :: match Sentinel.http_get e (product_url p) with
     | Ret r => redirect_calls e token fuel r
     | Raise _ => []
     end.

(** The artifact of a product whose exchange succeeds. *)
Definition artifact (e : Sentinel.env) (c : Sentinel.config) (fuel : nat)
           (p : Sentinel.product) : list (string * string) :=
  match product_content e fuel p with
  | Ret file_content => [(artifact_path c p, file_content)]
  | Raise _ => []
  end.

Definition start_entry (p : Sentinel.product) : level * string :=
  (INFO, "Download file from: " ++ product_url p).

Definition done_entry (c : Sentinel.config) (p : Sentinel.product) : level * string :=
  (INFO, "Written product file to: " ++ artifact_path c p).

Definition failure_entry (msg : string) : level * string :=
  (ERROR, "Product download failed. Error: " ++ msg).

(** The entries emitted by a loop that downloads [pre] and fails on [p]. *)
Definition download_entries (c : Sentinel.config) (pre : list Sentinel.product)
           (p : Sentinel.product) (msg : string) : list (level * string) :=
  ((DEBUG, "Token generated")
   :: flat_map (fun q => [start_entry q; done_entry c q]) pre
   ++ [start_entry p; failure_entry msg])%list.

Definition is_error (entry : level * string) : bool :=
  match fst entry with ERROR => true | _ => false end.

(** *** Three products, the second of which the server refuses *)

Definition product_1 : Sentinel.product := Sentinel.mkProduct "id-1" "S2A_1".
Definition product_2 : Sentinel.product := Sentinel.mkProduct "id-2" "S2A_2".
Definition product_3 : Sentinel.product := Sentinel.mkProduct "id-3" "S2A_3".

Definition three_config : Sentinel.config :=
  Sentinel.mkConfig "INFO" "SENTINEL-2" "u" "s" "ingestion" "S2MSI1C" "" "/data"
                    "/work" "GMT" "2023-01-01T00:00:00Z" "2023-01-02T00:00:00Z"
                    "POLYGON ((0 0, 0 1, 1 1, 1 0, 0 0))".

Definition ok_response (body : string) (doc : Sentinel.json_doc) : Sentinel.response :=
  Sentinel.mkResponse 200 "OK" None body doc.

(** The catalogue lists the three products; the first is served after a
    redirection, the second is refused with status 500, the third is
    served. *)
Definition three_env : Sentinel.env :=
  Sentinel.mkEnv
    (Sentinel.FileNotFound "")
    (fun _ => "2024-05-01 10:00:00,123")
    []
    (fun url =>
       if String.eqb url (Sentinel.search_url_s2 three_config "PublicationDate")
       then Ret (ok_response ""
                   (Sentinel.JsonObject
                      (Some [Some product_1; Some product_2; Some product_3]) None))
       else if String.eqb url (product_url product_1)
       then Ret (Sentinel.mkResponse 302 "Found" (Some "https://zipper/1") ""
                                     Sentinel.JsonInvalid)
       else if String.eqb url "https://zipper/1"
       then Ret (ok_response "zip-1" Sentinel.JsonInvalid)
       else if String.eqb url (product_url product_2)
       then Ret (Sentinel.mkResponse 500 "Internal Server Error" None ""
                                     Sentinel.JsonInvalid)
       else if String.eqb url (product_url product_3)
       then Ret (ok_response "zip-3" Sentinel.JsonInvalid)
       else Raise (RequestException "no route to host"))
    (fun _ => Ret (ok_response "" (Sentinel.JsonObject None (Some "token"))))
    "".

(** *** A run of the Sentinel script that finds nothing *)

Definition empty_catalogue_env : Sentinel.env :=
  Sentinel.mkEnv
    (Sentinel.Parsed
       (Sentinel.mkInfo
          [[("mission", "SENTINEL-2"); ("user", "u"); ("secret", "s");
            ("download_type", "ingestion"); ("product_type", "S2MSI1C");
            ("product_mode", ""); ("destinationDir", "/data")]]
          "INFO" "/work" "GMT"
          (Some (mkDatetime 2023 1 1 0 0 0)) (Some (mkDatetime 2023 1 2 0 0 0))))
    (fun _ => "2024-05-01 10:00:00,123")
    [Sentinel.Features [Ret "POLYGON ((0 0, 0 1, 1 1, 1 0, 0 0))"]]
    (fun _ => Ret (ok_response "" (Sentinel.JsonObject (Some []) None)))
    (fun _ => Ret (ok_response "" (Sentinel.JsonObject None (Some "token"))))
    "".

(** ** Archives *)

(** A member that [extract_all] gets over: a directory, or a file with a
    name that extracts or fails with [zipfile.error]. *)
Definition benign (m : Rcm.member) : bool :=
  Rcm.is_dir m
  || (negb (String.eqb (Rcm.arcname (Rcm.m_name m)) "")
      && match Rcm.m_extract m with
         | Rcm.Extracts _ => true
         | Rcm.Breaks _ BadZipFile => true
         | Rcm.Breaks _ _ => false
         end).

(** An archive that opens and has benign members only. *)
Definition extractable (a : Rcm.archive) : bool :=
  match Rcm.a_open a with
  | Ret members => forallb benign members
  | Raise _ => false
  end.

(** The file that the extraction of a benign member leaves: the content
    of a member that extracts, and what the library had copied of a member
    that fails. *)
Definition member_files (new_path : string) (m : Rcm.member) : list (string * string) :=
  if Rcm.is_dir m then []
  else
    match Rcm.m_extract m with
    | Rcm.Extracts content => [(Rcm.targetpath new_path m, content)]
    | Rcm.Breaks (Some copied) _ => [(Rcm.targetpath new_path m, copied)]
    | Rcm.Breaks None _ => []
    end.

(** Two worlds with the same calls, the same logger and the same entries
    in the log: the second may have other files and directories. *)
Definition same_outside (w w' : world) : Prop :=
  w_net w' = w_net w /\ w_log_file w' = w_log_file w
  /\ w_log_level w' = w_log_level w /\ log_entries w' = log_entries w.

(** The directory that [extract_all] makes for an archive. *)
Definition archive_dir (out_dir : string) (a : Rcm.archive) : string :=
  path_join out_dir (str_drop_last 4 (Rcm.a_path a)).

(** The files that the extraction of an archive writes. *)
Definition archive_files (out_dir : string) (a : Rcm.archive) : list (string * string) :=
  match Rcm.a_open a with
  | Ret members => flat_map (member_files (archive_dir out_dir a)) members
  | Raise _ => []
  end.

(** A world whose logger writes every record to [/work/log.txt]. *)
Definition logging_world : world :=
  fst (basicConfig "/work/log.txt" (Some 10%Z) (initial_world [])).

(** An archive with three members; the second is what the library meets
    when it reads the data of it. *)
Definition three_members (second : Rcm.extraction) : Rcm.archive :=
  Rcm.mkArchive "/data/x.zip"
    (Ret [Rcm.mkMember "a.txt" (Rcm.Extracts "A");
          Rcm.mkMember "b.txt" second;
          Rcm.mkMember "c.txt" (Rcm.Extracts "C")]).

(** A run that finds the archives [l] in the directory. *)
Definition archives_env (l : list Rcm.archive) : Rcm.env :=
  Rcm.mkEnv None (fun _ => "2024-05-01 10:00:00,123") "0.00" []
            (fun _ _ _ _ => Ret []) (fun _ => "") (fun _ => Ret [])
            (fun _ _ _ => Ret []) (fun _ => Rcm.Made) (fun _ => l).

Definition archive_env (a : Rcm.archive) : Rcm.env :=
  Rcm.mkEnv None (fun _ => "2024-05-01 10:00:00,123") "0.00" []
            (fun _ _ _ _ => Ret []) (fun _ => "") (fun _ => Ret [])
            (fun _ _ _ => Ret []) (fun _ => Rcm.Made) (fun _ => [a]).

(** ** Log lines *)

Definition severity_names : list string := ["ERROR"; "WARNING"; "INFO"; "DEBUG"].

(** A log line of the shape [timestamp - component - severity - message]:
    four fields at least between the separators [" - "], the first with a
    date and a time separated by a space, the third one of the four names
    of severity. *)
Definition well_shaped (aline : string) : bool :=
  match map clean_part (str_split " - " (str_strip aline)) with
  | timestamp :: _ :: severity :: _ :: _ =>
      match str_split " " (str_replace "," ":" timestamp) with
      | _ :: _ :: _ => Rcm.str_mem severity severity_names
      | _ => false
      end
  | _ => false
  end.

Definition scenario_line : string :=
  "2024-05-01 10:00:00,123 - log - ERROR - disk full".

(** ** The scenario of the square *)

Definition at_ (lon lat : Z) : vertex := mkVertex (inject_Z lon) (inject_Z lat) [].

Definition square_rings : list (list vertex) :=
  [[at_ 0 0; at_ 0 1; at_ 1 1; at_ 1 0; at_ 0 0]].

Definition square_properties : list (string * string) :=
  [("destinationDir", "/data"); ("user", "u"); ("secret", "s"); ("mission", "RCM");
   ("unzip", "False"); ("download_type", "acquisition"); ("timeout", "3");
   ("resolution", "100M"); ("polarization", "HH")].

Definition square_info : Rcm.run_info :=
  Rcm.mkRunInfo [square_properties] "/work" "GMT"
                (mkDatetime 2023 1 1 0 0 0) (mkDatetime 2023 1 2 0 0 0) "DEBUG".

(** The run of the scenario, with a catalogue that answers every search
    with [images]. *)
Definition square_env_with (images : list string) : Rcm.env :=
  Rcm.mkEnv (Some square_info) (fun _ => "2023-01-03 12:00:00,000") "1.00"
            [polygon square_rings]
            (fun _ _ _ _ => Ret images)
            (fun found => str_join ", " found)
            (fun found => Ret found)
            (fun order _ _ => Ret order)
            (fun _ => Rcm.Made)
            (fun _ => []).

Definition square_env : Rcm.env := square_env_with ["image-1"].

(** *** Configurations that the validation gate refuses *)

(** The properties of the square without the key [timeout]. *)
Definition no_timeout_properties : list (string * string) :=
  [("destinationDir", "/data"); ("user", "u"); ("secret", "s"); ("mission", "RCM");
   ("unzip", "False"); ("download_type", "acquisition");
   ("resolution", "100M"); ("polarization", "HH")].

(** The properties of the square with a value of [unzip] that is neither
    [True] nor [False]. *)
Definition bad_unzip_properties : list (string * string) :=
  [("destinationDir", "/data"); ("user", "u"); ("secret", "s");
   ("mission", "RCMImageProducts"); ("unzip", "yes");
   ("download_type", "acquisition"); ("timeout", "3");
   ("resolution", "100M"); ("polarization", "HH")].

Definition env_with_properties (props : list (string * string)) : Rcm.env :=
  Rcm.mkEnv
    (Some (Rcm.mkRunInfo [props] "/work" "GMT"
                         (mkDatetime 2023 1 1 0 0 0) (mkDatetime 2023 1 2 0 0 0)
                         "DEBUG"))
    (fun _ => "2023-01-03 12:00:00,000") "1.00"
    [polygon square_rings]
    (fun _ _ _ _ => Ret ["image-1"])
    (fun found => str_join ", " found)
    (fun found => Ret found)
    (fun order _ _ => Ret order)
    (fun _ => Rcm.Made)
    (fun _ => []).

Definition is_order (call : net_call) : bool :=
  match call with EodmsOrder _ => true | _ => false end.

(** An outcome that is a result, a [TypeError] or an [IndexError]. *)
Definition shape_errors_only {A} (o : outcome A) : Prop :=
  forall e, o = Raise e -> e = TypeError \/ e = IndexError.


(** ** The text of the converter *)

(** Every space of the text comes after a digit; [after_digit] tells
    whether the character before the text is a digit. *)
Fixpoint spaces_follow_digits (after_digit : bool) (s : string) : bool :=
  match s with
  | EmptyString => true
  | String c s' =>
      (negb (Ascii.eqb c " ") || after_digit)
      && spaces_follow_digits (is_digit c) s'
  end.

(** The text without its spaces. *)
Fixpoint without_spaces (s : string) : string :=
  match s with
  | EmptyString => EmptyString
  | String c s' =>
      if Ascii.eqb c " " then without_spaces s' else String c (without_spaces s')
  end.

(** The message for a vertex out of bounds: the longitude is looked at
    first. *)
Definition bounds_msg (v : vertex) : string :=
  if out_of 180 (v_lon v) then lon_msg else lat_msg.

(** A geometry whose coordinates are a list of vertices. *)
Definition path_of (t : geom_type) (r : list vertex) : geojson :=
  Geometry (mkGeometry t (ring_coords r)).

(** A geometry whose coordinates are one vertex. *)
Definition point_at (v : vertex) : geojson :=
  Geometry (mkGeometry Point (vertex_coords v)).

(** The features of a collection. *)
Definition features_of (obj : geojson) : list feature :=
  match obj with
  | FeatureCollection fs => fs
  | _ => []
  end.

(** ** Records of the log *)

(** A record as the logger stamps it: the date and the time of [asctime],
    the level and the message. *)
Record entry : Type := mkEntry {
  e_date : string;
  e_time : string;
  e_level : level;
  e_message : string
}.

Definition record_of (x : entry) : log_record :=
  mkRecord (e_date x ++ " " ++ e_time x) (e_level x) (e_message x).

(** The characters of a date ([2024-05-01]) and of a time ([10:00:00,123]). *)
Definition date_char (c : ascii) : bool := is_digit c || Ascii.eqb c "-".

Definition time_char (c : ascii) : bool :=
  is_digit c || Ascii.eqb c ":" || Ascii.eqb c ",".

Definition stamped (x : entry) : bool :=
  negb (String.eqb (e_date x) "")
  && str_forall date_char (e_date x) && str_forall time_char (e_time x).

(** A character of ASCII, and a text of such characters. *)
Definition is_ascii (c : ascii) : bool := (nat_of_ascii c <? 128)%nat.

Definition ascii_text (s : string) : bool := str_forall is_ascii s.

(** A text that ends with a character of ASCII other than white space. *)
Definition ends_plainly (m : string) : bool :=
  match str_last m with
  | Some c => is_ascii c && negb (is_space c)
  | None => false
  end.

(** A text without a line break: neither a newline nor a carriage
    return. *)
Definition one_line (m : string) : bool :=
  negb (str_in newline m) && negb (str_in carriage_return m).

(** A record with a stamp of digits, whose message stays on one line and
    ends with a character of ASCII other than white space. *)
Definition plain (x : entry) : bool :=
  stamped x && one_line (e_message x) && ends_plainly (e_message x).

(** The element of the diagnostic document for a plain record: the time
    is cut to eight characters, the description is the message up to its
    first [ - ], without double quotes and en dashes; a level without a
    code gives nothing. *)
Definition rendered (x : entry) : string :=
  match dict_find trans (level_name (e_level x)) with
  | Some code =>
      line_element (e_date x) (str_take 8 (str_replace "," ":" (e_time x))) code
                   (clean_part (hd "" (str_split " - " (e_message x))))
  | None => ""
  end.

(** ** The validation gate *)

(** A property whose value is in the enumeration of its key, or whose key
    has no enumeration. *)
Definition allowed_value (kv : string * string) : bool :=
  match dict_find Rcm.check (fst kv) with
  | Some allowed => Rcm.str_mem (snd kv) allowed
  | None => true
  end.

(** Every required key is there and every value is allowed. *)
Definition valid_properties (properties : dict string) : bool :=
  forallb (dict_mem properties) Rcm.required_keys
  && forallb allowed_value properties.

(** ** Calls *)

Definition is_download (call : net_call) : bool :=
  match call with EodmsDownload _ _ _ => true | _ => false end.

(** The calls of a run of the RCM script so far: a search, then an order,
    then a download, each at most once. *)
Definition in_protocol (calls : list net_call) : bool :=
  match calls with
  | [] => true
  | [s] => is_search s
  | [s; o] => is_search s && is_order o
  | [s; o; d] => is_search s && is_order o && is_download d
  | _ => false
  end.

(** A request that carries the bearer token. *)
Definition carries (token : string) (call : net_call) : bool :=
  match call with
  | HttpGet _ (Some t) => String.eqb t token
  | _ => false
  end.

(** The entries of a loop that downloads every product of [ps]. *)
Definition success_entries (c : Sentinel.config) (ps : list Sentinel.product)
  : list (level * string) :=
  (DEBUG, "Token generated")
  :: flat_map (fun q => [start_entry q; done_entry c q]) ps.

(** The exchange for the token: the answer of the identity service,
    once its status is checked. *)
Definition token_exchange (e : Sentinel.env) : outcome Sentinel.response :=
  obind (Sentinel.http_post e Sentinel.token_url) (fun r =>
  obind (Sentinel.raise_for_status Sentinel.token_url r) (fun _ => Ret r)).

Definition token_failure (msg : string) : string :=
  "Keycloak token creation failed, check your login credentials. Error: " ++ msg.

(** ** What a computation raises, and what it looks at *)

(** A computation whose exceptions all satisfy [ok]. *)
Definition raises_only {A} (ok : exn -> bool) (m : M A) : Prop :=
  forall w ex, snd (m w) = Raise ex -> ok ex = true.

Definition not_request (ex : exn) : bool := negb (Sentinel.is_request_exception ex).

(** Two worlds with the same logger, the same entries in the log, the
    same files and the same calls: they may differ by the stamps of the
    records and by the count of the records emitted. *)
Definition similar (w w' : world) : Prop :=
  logger w = logger w' /\ log_entries w = log_entries w'
  /\ w_files w = w_files w' /\ w_net w = w_net w'.

(** A computation that gives, in similar worlds, the same outcome and
    similar worlds. *)
Definition respects {A} (m : M A) : Prop :=
  forall w w', similar w w' ->
               snd (m w) = snd (m w') /\ similar (fst (m w)) (fst (m w')).

(** ** Single lines *)

(** What [remove_html_tags] does to a character outside a tag. *)
Definition line_char (c : ascii) : ascii :=
  if Ascii.eqb c newline then " "%char
  else if Ascii.eqb c "-" then ":"%char
  else c.

Fixpoint str_map (f : ascii -> ascii) (s : string) : string :=
  match s with
  | EmptyString => EmptyString
  | String c s' => String (f c) (str_map f s')
  end.

End Notions.

Import Notions.

(* ===================================================================== *)
(** * Facts about strings                                                *)
(* ===================================================================== *)

Section StringFacts.

Lemma append_assoc (a b c : string) : (a ++ b) ++ c = a ++ (b ++ c).
Proof. induction a as [|x a IH]; simpl; [reflexivity | now rewrite IH]. Qed.

Lemma append_nil_r (a : string) : a ++ "" = a.
Proof. induction a as [|x a IH]; simpl; [reflexivity | now rewrite IH]. Qed.

Lemma length_append (a b : string) :
  String.length (a ++ b) = (String.length a + String.length b)%nat.
Proof. induction a as [|x a IH]; simpl; [reflexivity | now rewrite IH]. Qed.

Lemma str_forall_app p (a b : string) :
  str_forall p (a ++ b) = str_forall p a && str_forall p b.
Proof.
  induction a as [|x a IH]; simpl; [reflexivity|].
  now rewrite IH, andb_assoc.
Qed.

Lemma str_forall_impl (p p' : ascii -> bool) (s : string) :
  (forall c, p c = true -> p' c = true) ->
  str_forall p s = true -> str_forall p' s = true.
Proof.
  intros Himp. induction s as [|x s IH]; simpl; [reflexivity|].
  intros H. apply andb_true_iff in H as [Hx Hs].
  now rewrite (Himp _ Hx), (IH Hs).
Qed.

Lemma str_in_forall p (a : ascii) (s : string) :
  p a = false -> str_forall p s = true -> str_in a s = false.
Proof.
  intros Ha. induction s as [|x s IH]; simpl; [reflexivity|].
  intros H. apply andb_true_iff in H as [Hx Hs].
  rewrite (IH Hs), orb_false_r.
  destruct (Ascii.eqb_spec a x) as [->|]; [congruence | reflexivity].
Qed.

Lemma str_last_none (s : string) : str_last s = None -> s = "".
Proof.
  induction s as [|x s IH]; [reflexivity|].
  simpl. destruct s; [discriminate|]. intros H. now apply IH in H.
Qed.

Lemma str_last_app (a b : string) :
  b <> "" -> str_last (a ++ b) = str_last b.
Proof.
  intros Hb. induction a as [|x a IH]; simpl; [reflexivity|].
  rewrite IH. destruct (a ++ b) eqn:E; [|reflexivity].
  destruct a; simpl in E; [congruence | discriminate].
Qed.

Lemma prefix_app (p s : string) : prefix p (p ++ s) = true.
Proof.
  induction p as [|x p IH]; simpl; [now destruct s|].
  destruct (ascii_dec x x); [exact IH | congruence].
Qed.

Lemma prefix_head (a c : ascii) (p s : string) :
  a <> c -> prefix (String a p) (String c s) = false.
Proof. intros H. simpl. destruct (ascii_dec a c); [contradiction | reflexivity]. Qed.

(** Passing the rest of an occurrence of the separator. *)
Lemma split_from_skip (sep t rest : string) :
  split_from sep (String.length t) (t ++ rest) = split_from sep 0 rest.
Proof.
  induction t as [|x t IH]; simpl.
  - destruct rest; reflexivity.
  - exact IH.
Qed.

(** A text without the first character of the separator is one piece. *)
Lemma split_from_whole (a : ascii) (sep t : string) :
  str_in a t = false -> split_from (String a sep) 0 t = [t].
Proof.
  induction t as [|x t IH]; [reflexivity|].
  intros H. simpl in H. apply orb_false_iff in H as [Hx Ht].
  cbn [split_from]. rewrite prefix_head by (now apply Ascii.eqb_neq).
  now rewrite (IH Ht).
Qed.

Lemma split_from_app (a : ascii) (sep t rest : string) :
  str_in a t = false ->
  split_from (String a sep) 0 (t ++ String a sep ++ rest)
  = t :: split_from (String a sep) 0 rest.
Proof.
  induction t as [|x t IH].
  - intros _. cbn [append split_from].
    change (String a (sep ++ rest)) with (String a sep ++ rest).
    rewrite prefix_app.
    replace (String.length (String a sep) - 1)%nat with (String.length sep)
      by (simpl; lia).
    now rewrite split_from_skip.
  - intros H. simpl in H. apply orb_false_iff in H as [Hx Ht].
    change (String x t ++ String a sep ++ rest)
      with (String x (t ++ String a sep ++ rest)).
    cbn [split_from]. rewrite prefix_head by (now apply Ascii.eqb_neq).
    now rewrite (IH Ht).
Qed.

(** [sep.join(xs).split(sep) == xs] when no piece holds the first
    character of the separator. *)
Lemma split_join (a : ascii) (sep : string) (x : string) (xs : list string) :
  Forall (fun t => str_in a t = false) (x :: xs) ->
  str_split (String a sep) (str_join (String a sep) (x :: xs)) = x :: xs.
Proof.
  unfold str_split, str_join. revert x.
  induction xs as [|y ys IH]; intros x H.
  - simpl. apply split_from_whole. now inversion H.
  - inversion H as [|? ? Hx Hrest]; subst.
    change (String.concat (String a sep) (x :: y :: ys))
      with (x ++ String a sep ++ String.concat (String a sep) (y :: ys)).
    rewrite split_from_app by assumption.
    now rewrite IH.
Qed.

Lemma strip_prefix_app (p s : string) : strip_prefix p (p ++ s) = Some s.
Proof.
  induction p as [|x p IH]; simpl; [reflexivity|].
  now rewrite Ascii.eqb_refl.
Qed.

Lemma eqb_app_longer (t suffix : string) :
  t <> "" -> String.eqb (t ++ suffix) suffix = false.
Proof.
  intros Ht. apply String.eqb_neq. intros E.
  apply (f_equal String.length) in E. rewrite length_append in E.
  destruct t; [congruence | simpl in E; lia].
Qed.

Lemma strip_suffix_app (suffix body : string) :
  strip_suffix suffix (body ++ suffix) = Some body.
Proof.
  induction body as [|x body IH].
  - simpl. destruct suffix; simpl.
    + reflexivity.
    + now rewrite Ascii.eqb_refl, String.eqb_refl.
  - cbn [append]. cbn [strip_suffix].
    change (String x (body ++ suffix)) with (String x body ++ suffix).
    rewrite eqb_app_longer by discriminate.
    cbn [append]. now rewrite IH.
Qed.

(** A token without spaces goes through [strip_spaces] untouched. *)
Lemma strip_spaces_token (t rest : string) (b : bool) :
  str_in " " t = false ->
  strip_spaces b (t ++ rest)
  = t ++ strip_spaces (match str_last t with
                       | Some c => is_digit c
                       | None => b
                       end) rest.
Proof.
  revert b. induction t as [|x t IH]; intros b H; [reflexivity|].
  cbn [str_in] in H. apply orb_false_iff in H as [Hx Ht].
  cbn [append strip_spaces].
  rewrite Ascii.eqb_sym in Hx. rewrite Hx. cbn [andb].
  rewrite (IH _ Ht). destruct t as [|y t]; [reflexivity|].
  change (str_last (String x (String y t))) with (str_last (String y t)).
  destruct (str_last (String y t)) eqn:E; [reflexivity|].
  now apply str_last_none in E.
Qed.

End StringFacts.

(* ===================================================================== *)
(** * Facts about the rendering of numbers                               *)
(* ===================================================================== *)

Section NumberFacts.

#[local] Open Scope N_scope.

Lemma below_ten (k : N) :
  k < 10 ->
  k = 0 \/ k = 1 \/ k = 2 \/ k = 3 \/ k = 4 \/ k = 5 \/ k = 6 \/ k = 7 \/ k = 8 \/ k = 9.
Proof. lia. Qed.

Lemma digit_char_is_digit (k : N) : k < 10 -> is_digit (digit_char k) = true.
Proof.
  intros H. apply below_ten in H.
  repeat (destruct H as [-> | H]; [reflexivity|]). now subst.
Qed.

Lemma digit_char_value (k : N) : k < 10 -> N_of_ascii (digit_char k) - 48 = k.
Proof.
  intros H. apply below_ten in H.
  repeat (destruct H as [-> | H]; [reflexivity|]). now subst.
Qed.

Lemma mod_ten_digit (n : N) : n mod 10 < 10.
Proof. apply N.mod_lt. discriminate. Qed.

Lemma digits_value_from_snoc (s : string) (c : ascii) (acc : N) :
  digits_value_from acc (s ++ String c "")
  = match digits_value_from acc s with
    | Some v => if is_digit c then Some (10 * v + (N_of_ascii c - 48)) else None
    | None => None
    end.
Proof.
  revert acc. induction s as [|x s IH]; intros acc; simpl.
  - reflexivity.
  - destruct (is_digit x); [apply IH | reflexivity].
Qed.

Lemma digits_value_snoc_digit (s : string) (v k : N) :
  digits_value s = Some v -> k < 10 ->
  digits_value (s ++ String (digit_char k) "") = Some (10 * v + k).
Proof.
  unfold digits_value. intros Hs Hk.
  now rewrite digits_value_from_snoc, Hs, digit_char_is_digit, digit_char_value.
Qed.

Lemma fixed_digits_length (k : nat) (n : N) : String.length (fixed_digits k n) = k.
Proof.
  revert n. induction k as [|k IH]; intros n; simpl; [reflexivity|].
  rewrite length_append, IH. simpl. lia.
Qed.

Lemma fixed_digits_digits (k : nat) (n : N) :
  str_forall is_digit (fixed_digits k n) = true.
Proof.
  revert n. induction k as [|k IH]; intros n; simpl; [reflexivity|].
  rewrite str_forall_app, IH. simpl.
  now rewrite digit_char_is_digit by apply mod_ten_digit.
Qed.

Lemma fixed_digits_value (k : nat) (n : N) :
  digits_value (fixed_digits k n) = Some (n mod 10 ^ N.of_nat k).
Proof.
  revert n. induction k as [|k IH]; intros n.
  - simpl. now rewrite N.mod_1_r.
  - cbn [fixed_digits].
    rewrite (digits_value_snoc_digit _ _ _ (IH (n / 10)) (mod_ten_digit n)).
    f_equal. rewrite Nat2N.inj_succ, N.pow_succ_r'.
    rewrite (N.Div0.mod_mul_r n 10 (10 ^ N.of_nat k)). lia.
Qed.

Lemma digits_fuel_digits (f : nat) (n : N) :
  str_forall is_digit (digits_fuel f n) = true.
Proof.
  revert n. induction f as [|f IH]; intros n; simpl; [reflexivity|].
  destruct (N.ltb_spec n 10).
  - simpl. now rewrite digit_char_is_digit.
  - rewrite str_forall_app, IH. simpl.
    now rewrite digit_char_is_digit by apply mod_ten_digit.
Qed.

Lemma digits_fuel_value (f : nat) (n : N) :
  n < 2 ^ N.of_nat f -> digits_value (digits_fuel f n) = Some n.
Proof.
  revert n. induction f as [|f IH]; intros n Hn.
  - simpl in Hn. assert (n = 0) as -> by lia. reflexivity.
  - cbn [digits_fuel]. destruct (N.ltb_spec n 10) as [Hlt|Hge].
    + unfold digits_value. simpl.
      now rewrite digit_char_is_digit, digit_char_value.
    + assert (Hdiv : n / 10 < 2 ^ N.of_nat f).
      { rewrite Nat2N.inj_succ, N.pow_succ_r' in Hn.
        apply N.Div0.div_lt_upper_bound. lia. }
      rewrite (digits_value_snoc_digit _ _ _ (IH _ Hdiv) (mod_ten_digit n)).
      f_equal. pose proof (N.div_mod n 10). lia.
Qed.

Lemma digits_fuel_nonempty (f : nat) (n : N) : digits_fuel (S f) n <> "".
Proof.
  cbn [digits_fuel]. destruct (n <? 10); [discriminate|].
  destruct (digits_fuel f (n / 10)); discriminate.
Qed.

Lemma nat_digits_digits (n : N) : str_forall is_digit (nat_digits n) = true.
Proof. apply digits_fuel_digits. Qed.

Lemma nat_digits_nonempty (n : N) : nat_digits n <> "".
Proof. apply digits_fuel_nonempty. Qed.

Lemma nat_digits_value (n : N) : digits_value (nat_digits n) = Some n.
Proof.
  apply digits_fuel_value.
  rewrite Nat2N.inj_succ, N2Nat.id.
  destruct n as [|p]; [reflexivity|].
  apply N.log2_spec. lia.
Qed.

End NumberFacts.

Section DecimalTextFacts.

Lemma round_half_even_sign (num : Z) (den : positive) :
  ((0 <= num -> 0 <= round_half_even num den)
   /\ (num < 0 -> round_half_even num den <= 0))%Z.
Proof.
  unfold round_half_even.
  pose proof (Z.div_mod num (Zpos den) ltac:(discriminate)) as Hdm.
  pose proof (Z.mod_pos_bound num (Zpos den) ltac:(reflexivity)) as Hr.
  assert (Hq : (0 <= num -> 0 <= num / Zpos den)%Z)
    by (intros; apply Z.div_pos; lia).
  assert (Hq' : (num < 0 -> num / Zpos den < 0)%Z)
    by (intros; apply Z.div_lt_upper_bound; lia).
  destruct (2 * (num mod Zpos den) ?= Zpos den)%Z;
    try destruct (Z.even (num / Zpos den)); lia.
Qed.

Lemma round_units_sign (x : Q) (d : nat) :
  ((0 <= Qnum x -> 0 <= round_units x d)
   /\ (Qnum x < 0 -> round_units x d <= 0))%Z.
Proof.
  unfold round_units.
  destruct (round_half_even_sign (Qnum x * 10 ^ Z.of_nat d) (Qden x)) as [Hp Hn].
  assert (0 < 10 ^ Z.of_nat d)%Z by (apply Z.pow_pos_nonneg; lia).
  split; intros H0; [apply Hp | apply Hn]; nia.
Qed.

Lemma digit_not_point (s : string) :
  str_forall is_digit s = true -> str_in "." s = false.
Proof. now apply str_in_forall. Qed.

Lemma unsigned_decimal_int (m : N) :
  unsigned_decimal (nat_digits m) = Some (Qmake (Z.of_N m) 1).
Proof.
  unfold unsigned_decimal, str_split.
  rewrite split_from_whole by (apply digit_not_point, nat_digits_digits).
  pose proof (nat_digits_value m) as Hv.
  destruct (nat_digits m) eqn:E; [now apply nat_digits_nonempty in E|].
  now rewrite Hv.
Qed.

Lemma unsigned_decimal_fixed (ip fp : N) (d : nat) :
  d <> 0%nat -> (fp < 10 ^ N.of_nat d)%N ->
  unsigned_decimal (nat_digits ip ++ "." ++ fixed_digits d fp)
  = Some (Qmake (Z.of_N ip * 10 ^ Z.of_nat d + Z.of_N fp)
                (Z.to_pos (10 ^ Z.of_nat d))).
Proof.
  intros Hd Hfp. unfold unsigned_decimal, str_split.
  rewrite split_from_app by (apply digit_not_point, nat_digits_digits).
  rewrite split_from_whole by (apply digit_not_point, fixed_digits_digits).
  rewrite nat_digits_value, fixed_digits_value, fixed_digits_length.
  rewrite N.mod_small by assumption.
  destruct (Nat.eqb_spec (String.length (nat_digits ip) + d) 0); [lia | reflexivity].
Qed.

Lemma parse_decimal_digit_head (c : ascii) (s : string) :
  is_digit c = true -> parse_decimal (String c s) = unsigned_decimal (String c s).
Proof.
  destruct c as [[] [] [] [] [] [] [] []]; try discriminate; reflexivity.
Qed.

Lemma parse_decimal_digits_head (a b : string) :
  a <> "" -> str_forall is_digit a = true ->
  parse_decimal (a ++ b) = unsigned_decimal (a ++ b).
Proof.
  destruct a as [|c a]; [congruence|]. intros _ H. simpl in H.
  apply andb_true_iff in H as [Hc _]. now apply parse_decimal_digit_head.
Qed.

(** Reading a rendered number gives the rounded value. *)
Lemma parse_decimal_text (x : Q) (d : nat) :
  parse_decimal (decimal_text x d) = Some (py_round x d).
Proof.
  destruct (round_units_sign x d) as [Hpos Hneg].
  unfold decimal_text, py_round. destruct d as [|d'].
  - unfold repr_int. destruct (Z.ltb_spec (round_units x 0) 0) as [Hlt|Hge].
    + cbn [append parse_decimal]. rewrite unsigned_decimal_int. cbn [Qnum Qden].
      rewrite N2Z.inj_abs_N. do 2 f_equal. lia.
    + cbn [append].
      rewrite <- (append_nil_r (nat_digits _)).
      rewrite parse_decimal_digits_head
        by (apply nat_digits_nonempty || apply nat_digits_digits).
      rewrite append_nil_r, unsigned_decimal_int, N2Z.inj_abs_N.
      do 2 f_equal. lia.
  - set (d := S d') in *.
    set (m := Z.abs_N (round_units x d)).
    assert (Hp : (0 < 10 ^ N.of_nat d)%N)
      by (apply N.neq_0_lt_0, N.pow_nonzero; discriminate).
    assert (Hm : (Z.of_N (m / 10 ^ N.of_nat d) * 10 ^ Z.of_nat d
                  + Z.of_N (m mod 10 ^ N.of_nat d) = Z.abs (round_units x d))%Z).
    { rewrite <- (N2Z.inj_abs_N (round_units x d)). fold m.
      rewrite (N.div_mod m (10 ^ N.of_nat d)) at 3 by lia.
      rewrite N2Z.inj_add, N2Z.inj_mul, N2Z.inj_pow, nat_N_Z. simpl Z.of_N. lia. }
    destruct (Z.ltb_spec (Qnum x) 0) as [Hlt|Hge].
    + cbn [append parse_decimal].
      match goal with
      | |- context [String "." ?t] => change (String "." t) with ("." ++ t)
      end.
      rewrite unsigned_decimal_fixed
        by (try discriminate; apply N.mod_lt; lia).
      cbn [Qnum Qden]. rewrite Hm. do 2 f_equal. specialize (Hneg Hlt). lia.
    + change ("" ++ ?t) with t.
      rewrite parse_decimal_digits_head
        by (apply nat_digits_nonempty || apply nat_digits_digits).
      rewrite unsigned_decimal_fixed
        by (try discriminate; apply N.mod_lt; lia).
      rewrite Hm. do 2 f_equal. specialize (Hpos Hge). lia.
Qed.

Lemma is_digit_num_char (c : ascii) : is_digit c = true -> num_char c = true.
Proof. unfold num_char. now intros ->. Qed.

Lemma digits_num_chars (s : string) :
  str_forall is_digit s = true -> str_forall num_char s = true.
Proof. apply str_forall_impl, is_digit_num_char. Qed.

(** A rendered number is made of digits, a sign and a point. *)
Lemma decimal_text_chars (x : Q) (d : nat) :
  str_forall num_char (decimal_text x d) = true.
Proof.
  unfold decimal_text, repr_int. destruct d as [|d'].
  - rewrite str_forall_app, (digits_num_chars _ (nat_digits_digits _)).
    now destruct (round_units x 0 <? 0)%Z.
  - rewrite !str_forall_app.
    rewrite (digits_num_chars _ (nat_digits_digits _)).
    rewrite (digits_num_chars _ (fixed_digits_digits _ _)).
    now destruct (Qnum x <? 0)%Z.
Qed.

Lemma str_last_forall p (s : string) :
  s <> "" -> str_forall p s = true ->
  exists c, str_last s = Some c /\ p c = true.
Proof.
  induction s as [|x s IH]; [congruence|]. intros _ H. simpl in H.
  apply andb_true_iff in H as [Hx Hs]. destruct s as [|y s].
  - now exists x.
  - destruct IH as (c & Hc & Hpc); [discriminate | assumption |].
    exists c. split; [exact Hc | exact Hpc].
Qed.

(** A rendered number ends with a digit. *)
Lemma decimal_text_last (x : Q) (d : nat) :
  exists c, str_last (decimal_text x d) = Some c /\ is_digit c = true.
Proof.
  unfold decimal_text, repr_int. destruct d as [|d'].
  - rewrite str_last_app by apply nat_digits_nonempty.
    apply str_last_forall; [apply nat_digits_nonempty | apply nat_digits_digits].
  - rewrite <- !append_assoc.
    rewrite str_last_app.
    + apply str_last_forall; [|apply fixed_digits_digits].
      intros E. apply (f_equal String.length) in E.
      rewrite fixed_digits_length in E. discriminate.
    + intros E. apply (f_equal String.length) in E.
      rewrite fixed_digits_length in E. discriminate.
Qed.

End DecimalTextFacts.

Section RoundAndPadFacts.

Lemma fixed_digits_zero (d : nat) : fixed_digits d 0 = zeros d.
Proof.
  induction d as [|d IH]; [reflexivity|].
  cbn [fixed_digits]. change (0 / 10)%N with 0%N. rewrite IH.
  change (String (digit_char (0 mod 10)) "") with "0".
  clear IH. induction d as [|d IH]; [reflexivity|].
  cbn [zeros append]. now rewrite IH.
Qed.

Lemma drop_zeros_spec (s : string) :
  drop_zeros s ++ zeros (String.length s - String.length (drop_zeros s)) = s.
Proof.
  induction s as [|c s IH]; [reflexivity|].
  cbn [drop_zeros]. destruct (drop_zeros s) as [|c' r] eqn:E.
  - cbn [String.length append] in IH. rewrite Nat.sub_0_r in IH.
    destruct (Ascii.eqb_spec c "0") as [->|Hc].
    + cbn [String.length append zeros Nat.sub]. now rewrite IH.
    + cbn [String.length append Nat.sub]. rewrite Nat.sub_0_r. now rewrite IH.
  - cbn [String.length append Nat.sub] in *. now rewrite IH.
Qed.

Lemma drop_zeros_length (s : string) :
  (String.length (drop_zeros s) <= String.length s)%nat.
Proof.
  pose proof (f_equal String.length (drop_zeros_spec s)) as H.
  rewrite length_append in H. lia.
Qed.

Lemma drop_zeros_digits (s : string) :
  str_forall is_digit s = true -> str_forall is_digit (drop_zeros s) = true.
Proof.
  intros H. rewrite <- (drop_zeros_spec s), str_forall_app in H.
  now apply andb_true_iff in H as [H _].
Qed.

(** The decimals of a float in positional notation, completed with
    zeros, are the digits of the fraction. *)
Lemma pad_decimals (s : string) :
  s <> "" ->
  let f := match drop_zeros s with EmptyString => "0" | f => f end in
  f ++ zeros (String.length s - String.length f) = s
  /\ (str_forall is_digit s = true -> str_forall is_digit f = true).
Proof.
  intros Hs f. subst f. pose proof (drop_zeros_spec s) as H.
  pose proof (drop_zeros_digits s) as Hd.
  destruct (drop_zeros s) as [|c r].
  - split; [|reflexivity]. cbn [String.length append] in *.
    rewrite Nat.sub_0_r in H.
    destruct s as [|x s]; [congruence|].
    cbn [String.length zeros Nat.sub] in *. now rewrite Nat.sub_0_r.
  - split; assumption.
Qed.

Lemma round_half_even_bound (num : Z) (den : positive) (b : Z) :
  (- (b * Zpos den) <= num <= b * Zpos den)%Z ->
  (Z.abs (round_half_even num den) <= b + 1)%Z.
Proof.
  intros H. unfold round_half_even.
  assert (Hq : (- b <= num / Zpos den <= b)%Z).
  { split.
    - apply Z.div_le_lower_bound; lia.
    - apply Z.div_le_upper_bound; lia. }
  destruct (2 * (num mod Zpos den) ?= Zpos den)%Z;
    try destruct (Z.even (num / Zpos den)); lia.
Qed.

Lemma out_of_bound (hi : Z) (x : Q) :
  out_of hi x = false ->
  (- (hi * Zpos (Qden x)) <= Qnum x <= hi * Zpos (Qden x))%Z.
Proof.
  unfold out_of. intros H. apply orb_false_iff in H as [H1 H2].
  apply negb_false_iff in H1, H2.
  apply Qle_bool_iff in H1, H2. unfold Qle in H1, H2.
  cbn [inject_Z Qnum Qden] in H1, H2. lia.
Qed.

Lemma round_units_bound (hi : Z) (x : Q) (d : nat) :
  out_of hi x = false ->
  (Z.abs (round_units x d) <= hi * 10 ^ Z.of_nat d + 1)%Z.
Proof.
  intros H. apply out_of_bound in H. unfold round_units.
  assert (0 < 10 ^ Z.of_nat d)%Z by (apply Z.pow_pos_nonneg; lia).
  apply round_half_even_bound. nia.
Qed.

(** Within the bounds of a longitude and with four decimals at most, the
    float that [round] gives is written in positional notation: the
    result of [_round_and_pad] is the rounded value with its decimals. *)
Lemma round_and_pad_decimal_text (hi : Z) (x : Q) (d : nat) :
  (d <= 4)%nat -> (hi <= 180)%Z -> out_of hi x = false ->
  round_and_pad x d = Ret (decimal_text x d).
Proof.
  intros Hd Hhi Hx. unfold round_and_pad, decimal_text.
  destruct d as [|d']; [reflexivity|]. set (d := S d') in *.
  pose proof (round_units_bound hi x d Hx) as Hb.
  set (m := Z.abs_N (round_units x d)) in *.
  set (p := (10 ^ N.of_nat d)%N).
  assert (Hp : (0 < p)%N) by (apply N.neq_0_lt_0, N.pow_nonzero; discriminate).
  assert (Hp4 : (p <= 10 ^ 4)%N)
    by (apply N.pow_le_mono_r; [discriminate | lia]).
  assert (Hm : (m < 10 ^ 16 * p)%N).
  { assert (Hz : (Z.of_N m <= hi * 10 ^ Z.of_nat d + 1)%Z)
      by (unfold m; now rewrite N2Z.inj_abs_N).
    assert (Hpz : Z.of_N p = (10 ^ Z.of_nat d)%Z)
      by (unfold p; now rewrite N2Z.inj_pow, nat_N_Z).
    assert (0 < 10 ^ Z.of_nat d)%Z by (apply Z.pow_pos_nonneg; lia).
    apply N2Z.inj_lt. rewrite N2Z.inj_mul, Hpz.
    change (Z.of_N (10 ^ 16)) with (10 ^ 16)%Z. nia. }
  unfold repr_float. fold p.
  destruct (N.eqb_spec m 0) as [Hm0|Hm0].
  - rewrite Hm0. change (0 / p)%N with 0%N. rewrite N.Div0.mod_0_l.
    rewrite fixed_digits_zero.
    assert (Hs : str_split "." ((if (Qnum x <? 0)%Z then "-" else "") ++ "0.0")
                 = [(if (Qnum x <? 0)%Z then "-" else "") ++ "0"; "0"])
      by (now destruct (Qnum x <? 0)%Z).
    rewrite Hs. cbn [String.length]. rewrite !append_assoc.
    do 2 f_equal. unfold d. change (S d' - 1)%nat with (d' - 0)%nat.
    rewrite Nat.sub_0_r. reflexivity.
  - assert (Hpos : ((p <=? m * 10 ^ 4) && (m <? 10 ^ 16 * p))%N = true).
    { apply andb_true_iff. split; [apply N.leb_le | now apply N.ltb_lt]. nia. }
    rewrite Hpos.
    set (s := fixed_digits d (m mod p)).
    assert (Hs : s <> "").
    { intros E. apply (f_equal String.length) in E. unfold s in E.
      rewrite fixed_digits_length in E. discriminate. }
    destruct (pad_decimals s Hs) as [Hpad Hdig].
    specialize (Hdig (fixed_digits_digits _ _)).
    set (f := match drop_zeros s with EmptyString => "0" | f => f end) in *.
    set (sign := if (Qnum x <? 0)%Z then "-" else "").
    assert (Hsplit : str_split "." (sign ++ nat_digits (m / p) ++ "." ++ f)
                     = [sign ++ nat_digits (m / p); f]).
    { unfold str_split. rewrite <- append_assoc.
      rewrite split_from_app.
      - rewrite split_from_whole by now apply digit_not_point. reflexivity.
      - unfold sign. destruct (Qnum x <? 0)%Z; cbn [append str_in];
          [change (Ascii.eqb "." "-") with false; cbn [orb]|];
          apply digit_not_point, nat_digits_digits. }
    rewrite Hsplit. rewrite !append_assoc. do 4 f_equal.
    replace d with (String.length s) at 1 by apply fixed_digits_length.
    exact Hpad.
Qed.

End RoundAndPadFacts.

(* ===================================================================== *)
(** * Facts about the geometry converter                                 *)
(* ===================================================================== *)

Section CoordsFacts.

Lemma coords_induction (P : coords -> Prop) :
  (forall x, P (Num x)) ->
  (forall xs, Forall P xs -> P (Seq xs)) ->
  forall c, P c.
Proof.
  intros HNum HSeq. fix IH 1. intros [x|xs].
  - apply HNum.
  - apply HSeq. induction xs as [|y l IHl]; constructor; [apply IH | exact IHl].
Qed.

End CoordsFacts.

Section PolygonFacts.

Variable d : nat.
Hypothesis small_d : (d <= 4)%nat.

Lemma omap_map {A B C} (f : B -> outcome C) (h : A -> B) (g : A -> C)
      (xs : list A) :
  (forall x, In x xs -> f (h x) = Ret (g x)) ->
  omap f (map h xs) = Ret (map g xs).
Proof.
  induction xs as [|x xs IH]; intros H; [reflexivity|].
  cbn [omap map]. rewrite (H x) by now left.
  rewrite IH; [reflexivity|]. intros y Hy. apply H. now right.
Qed.

Lemma valid_polygon_spec (rings : list (list vertex)) :
  valid_polygon rings = true ->
  rings <> []
  /\ forall r, In r rings -> r <> [] /\ forall v, In v r -> in_bounds v = true.
Proof.
  unfold valid_polygon. intros H. apply andb_true_iff in H as [Hne Hall].
  split; [now destruct rings|].
  intros r Hr. rewrite forallb_forall in Hall. specialize (Hall r Hr).
  apply andb_true_iff in Hall as [Hr0 Hv].
  split; [now destruct r|]. now rewrite forallb_forall in Hv.
Qed.

(** *** Dropping the elevation *)

Lemma ensure_2d_ring (r : list vertex) :
  r <> [] -> ensure_2d (ring_coords r) = Ret (ring_coords (map flat r)).
Proof.
  destruct r as [|v r]; [congruence|]. intros _.
  unfold ring_coords.
  change (ensure_2d (Seq (map vertex_coords (v :: r))))
    with (match omap ensure_2d (map vertex_coords (v :: r)) with
          | Raise e => Raise e
          | Ret ys => Ret (Seq ys)
          end).
  rewrite (omap_map _ _ (fun c => vertex_coords (flat c))) by reflexivity.
  now rewrite map_map.
Qed.

Lemma ensure_2d_polygon (rings : list (list vertex)) :
  rings <> [] -> (forall r, In r rings -> r <> []) ->
  ensure_2d (polygon_coords rings) = Ret (polygon_coords (map (map flat) rings)).
Proof.
  intros Hne Hr. unfold polygon_coords.
  assert (Hall : omap ensure_2d (map ring_coords rings)
                 = Ret (map (fun x => ring_coords (map flat x)) rings))
    by (apply omap_map; intros r Hin; now apply ensure_2d_ring, Hr).
  rewrite map_map.
  destruct rings as [|r rings]; [congruence|].
  destruct r as [|v r]; [now specialize (Hr [] (or_introl eq_refl))|].
  change (ensure_2d (Seq (map ring_coords ((v :: r) :: rings))))
    with (match omap ensure_2d (map ring_coords ((v :: r) :: rings)) with
          | Raise e => Raise e
          | Ret ys => Ret (Seq ys)
          end).
  now rewrite Hall.
Qed.

(** *** The bounds of the flattened polygon *)

Lemma check_bounds_vertex (v : vertex) :
  in_bounds v = true -> check_bounds (vertex_coords (flat v)) = Ret tt.
Proof.
  unfold in_bounds. intros H. apply andb_true_iff in H as [Hlon Hlat].
  apply negb_true_iff in Hlon, Hlat.
  cbn [check_bounds vertex_coords flat v_lon v_lat v_more].
  now rewrite Hlon, Hlat.
Qed.

Lemma check_bounds_ring (r : list vertex) :
  r <> [] -> (forall v, In v r -> in_bounds v = true) ->
  check_bounds (ring_coords (map flat r)) = Ret tt.
Proof.
  intros Hne Hb. unfold ring_coords.
  assert (Hall : omap check_bounds (map vertex_coords (map flat r))
                 = Ret (map (fun _ => tt) r)).
  { rewrite map_map. apply omap_map. intros v Hv. now apply check_bounds_vertex, Hb. }
  destruct r as [|v r]; [congruence|].
  change (check_bounds (Seq (map vertex_coords (map flat (v :: r)))))
    with (match omap check_bounds (map vertex_coords (map flat (v :: r))) with
          | Raise e => Raise e
          | Ret _ => Ret tt
          end).
  now rewrite Hall.
Qed.

Lemma check_bounds_polygon (rings : list (list vertex)) :
  valid_polygon rings = true ->
  check_bounds (polygon_coords (map (map flat) rings)) = Ret tt.
Proof.
  intros Hv. apply valid_polygon_spec in Hv as [Hne Hr]. unfold polygon_coords.
  assert (Hall : omap check_bounds (map ring_coords (map (map flat) rings))
                 = Ret (map (fun _ => tt) rings)).
  { rewrite map_map. apply omap_map. intros r Hin.
    destruct (Hr r Hin). now apply check_bounds_ring. }
  destruct rings as [|r rings]; [congruence|].
  destruct r as [|v r]; [now destruct (Hr [] (or_introl eq_refl))|].
  change (check_bounds (Seq (map ring_coords (map (map flat) ((v :: r) :: rings)))))
    with (match omap check_bounds
                  (map ring_coords (map (map flat) ((v :: r) :: rings))) with
          | Raise e => Raise e
          | Ret _ => Ret tt
          end).
  now rewrite Hall.
Qed.

(** *** The text written by geomet *)

Lemma dump_vertex_flat (v : vertex) :
  in_bounds v = true ->
  dump_vertex d (vertex_coords (flat v)) = Ret (vertex_text d v).
Proof.
  unfold in_bounds. intros H. apply andb_true_iff in H as [Hlon Hlat].
  apply negb_true_iff in Hlon, Hlat.
  cbn [dump_vertex vertex_coords flat v_lon v_lat v_more omap dump_number].
  rewrite (round_and_pad_decimal_text 180 _ d small_d ltac:(lia) Hlon).
  rewrite (round_and_pad_decimal_text 90 _ d small_d ltac:(lia) Hlat).
  reflexivity.
Qed.

Lemma dump_vertices_ring (r : list vertex) :
  (forall v, In v r -> in_bounds v = true) ->
  dump_vertices d (ring_coords (map flat r)) = Ret (ring_wkt d r).
Proof.
  intros Hb. unfold dump_vertices, ring_coords, ring_wkt.
  rewrite map_map.
  now rewrite (omap_map _ _ (vertex_text d))
    by (intros v Hv; now apply dump_vertex_flat, Hb).
Qed.

Lemma dump_polygon_body (rings : list (list vertex)) :
  (forall r, In r rings -> forall v, In v r -> in_bounds v = true) ->
  dump_wrapped (dump_vertices d) (polygon_coords (map (map flat) rings))
  = Ret (str_join ", " (map (fun r => paren (ring_wkt d r)) rings)).
Proof.
  intros Hb. unfold dump_wrapped, polygon_coords.
  rewrite map_map.
  rewrite (omap_map _ _ (ring_wkt d))
    by (intros r Hr; now apply dump_vertices_ring, Hb).
  cbn [obind]. now rewrite map_map.
Qed.

Lemma leaf_count_polygon (rings : list (list vertex)) :
  rings <> [] -> (forall r, In r rings -> r <> []) ->
  leaf_count (polygon_coords (map (map flat) rings)) <> 0%nat.
Proof.
  intros Hne Hr.
  destruct rings as [|r rings]; [congruence|].
  destruct r as [|v r]; [now specialize (Hr [] (or_introl eq_refl))|].
  cbn. discriminate.
Qed.

Lemma wkt_dumps_polygon (rings : list (list vertex)) :
  rings <> [] -> (forall r, In r rings -> r <> []) ->
  (forall r, In r rings -> forall v, In v r -> in_bounds v = true) ->
  wkt_dumps (mkGeometry Polygon (polygon_coords (map (map flat) rings))) d
  = Ret (polygon_wkt d rings).
Proof.
  intros Hne Hr Hb. unfold wkt_dumps. cbn [g_coordinates g_type].
  pose proof (leaf_count_polygon rings Hne Hr) as Hc.
  apply Nat.eqb_neq in Hc.
  change (polygon_coords (map (map flat) rings))
    with (Seq (map ring_coords (map (map flat) rings))) at 1.
  cbv iota beta. rewrite Hc.
  cbn [wkt_body]. rewrite dump_polygon_body by assumption. reflexivity.
Qed.

(** *** The spaces that [re.sub] deletes *)

Lemma strip_spaces_number (x : Q) (rest : string) (b : bool) :
  strip_spaces b (decimal_text x d ++ rest)
  = decimal_text x d ++ strip_spaces true rest.
Proof.
  rewrite strip_spaces_token
    by (apply (str_in_forall num_char); [reflexivity | apply decimal_text_chars]).
  destruct (decimal_text_last x d) as (c & -> & ->). reflexivity.
Qed.

Lemma strip_spaces_vertex (v : vertex) (rest : string) (b : bool) :
  strip_spaces b (vertex_text d v ++ rest)
  = vertex_text d v ++ strip_spaces true rest.
Proof.
  unfold vertex_text. rewrite !append_assoc.
  rewrite strip_spaces_number.
  change (" " ++ ?t) with (String " " t).
  cbn [strip_spaces Ascii.eqb Bool.eqb andb negb].
  change (is_digit " ") with false.
  now rewrite strip_spaces_number.
Qed.

Lemma join_cons (sep x y : string) (l : list string) :
  str_join sep (x :: y :: l) = x ++ sep ++ str_join sep (y :: l).
Proof. reflexivity. Qed.

Lemma strip_spaces_ring (r : list vertex) (rest : string) (b : bool) :
  r <> [] ->
  strip_spaces b (ring_wkt d r ++ rest) = ring_text d r ++ strip_spaces true rest.
Proof.
  unfold ring_wkt, ring_text. revert b.
  induction r as [|v r IH]; [congruence|]. intros b _.
  destruct r as [|v' r].
  - cbn [map str_join String.concat]. apply strip_spaces_vertex.
  - cbn [map] in *. rewrite !join_cons, !append_assoc.
    rewrite strip_spaces_vertex.
    change (", " ++ ?t) with (String "," (String " " t)).
    cbn [strip_spaces Ascii.eqb Bool.eqb andb negb].
    change (is_digit ",") with false. cbn [negb andb].
    rewrite IH by discriminate.
    reflexivity.
Qed.

Lemma strip_spaces_paren (r : list vertex) (rest : string) (b : bool) :
  r <> [] ->
  strip_spaces b (paren (ring_wkt d r) ++ rest)
  = ("(" ++ ring_text d r ++ ")") ++ strip_spaces false rest.
Proof.
  intros Hr. unfold paren. rewrite !append_assoc.
  change ("(" ++ ?t) with (String "(" t).
  cbn [strip_spaces Ascii.eqb Bool.eqb andb negb].
  change (is_digit "(") with false.
  rewrite strip_spaces_ring by assumption.
  change (")" ++ ?t) with (String ")" t).
  cbn [strip_spaces Ascii.eqb Bool.eqb andb negb].
  reflexivity.
Qed.

Lemma strip_spaces_rings (rings : list (list vertex)) (rest : string) (b : bool) :
  rings <> [] -> (forall r, In r rings -> r <> []) ->
  strip_spaces b (str_join ", " (map (fun r => paren (ring_wkt d r)) rings) ++ rest)
  = str_join "," (map (fun r => "(" ++ ring_text d r ++ ")") rings)
    ++ strip_spaces false rest.
Proof.
  revert b. induction rings as [|r rings IH]; [congruence|]. intros b _ Hr.
  assert (Hr0 : r <> []) by (apply Hr; now left).
  destruct rings as [|r' rings].
  - cbn [map str_join String.concat]. now apply strip_spaces_paren.
  - cbn [map] in *. rewrite !join_cons, !append_assoc.
    rewrite <- (append_assoc "(" _ _), <- (append_assoc _ ")" _).
    rewrite strip_spaces_paren by assumption.
    change (", " ++ ?t) with (String "," (String " " t)).
    cbn [strip_spaces Ascii.eqb Bool.eqb andb negb].
    change (is_digit ",") with false. cbn [negb andb].
    rewrite IH; [|discriminate | intros x Hx; apply Hr; now right].
    now rewrite !append_assoc.
Qed.

(** The text of geomet without the spaces that do not follow a digit. *)
Lemma re_sub_polygon_wkt (rings : list (list vertex)) :
  rings <> [] -> (forall r, In r rings -> r <> []) ->
  re_sub_spaces (polygon_wkt d rings) = polygon_text d rings.
Proof.
  intros Hne Hr. unfold re_sub_spaces, polygon_wkt, polygon_text.
  change ("POLYGON (" ++ ?t) with ("POLYGON" ++ String " " (String "(" t)).
  rewrite strip_spaces_token by reflexivity.
  cbn [str_last strip_spaces Ascii.eqb Bool.eqb andb negb].
  change (is_digit "N") with false. cbn [negb andb].
  change (is_digit "(") with false.
  rewrite strip_spaces_rings by assumption.
  reflexivity.
Qed.

(** *** Reading the text back *)

Lemma all_some_map {A B C} (f : B -> option C) (h : A -> B) (g : A -> C)
      (xs : list A) :
  (forall x, In x xs -> f (h x) = Some (g x)) ->
  all_some f (map h xs) = Some (map g xs).
Proof.
  induction xs as [|x xs IH]; intros H; [reflexivity|].
  cbn [all_some map]. rewrite (H x) by now left.
  rewrite IH; [reflexivity|]. intros y Hy. apply H. now right.
Qed.

Lemma num_char_vertex_char (c : ascii) : num_char c = true -> vertex_char c = true.
Proof. unfold vertex_char. now intros ->. Qed.

Lemma vertex_char_ring_char (c : ascii) : vertex_char c = true -> ring_char c = true.
Proof. unfold ring_char. now intros ->. Qed.

Lemma vertex_text_chars (v : vertex) :
  str_forall vertex_char (vertex_text d v) = true.
Proof.
  unfold vertex_text. rewrite !str_forall_app.
  rewrite !(str_forall_impl _ _ _ num_char_vertex_char (decimal_text_chars _ d)).
  reflexivity.
Qed.

Lemma ring_text_chars (r : list vertex) :
  str_forall ring_char (ring_text d r) = true.
Proof.
  unfold ring_text. induction r as [|v r IH]; [reflexivity|].
  pose proof (str_forall_impl _ _ _ vertex_char_ring_char (vertex_text_chars v)) as Hv.
  destruct r as [|v' r].
  - exact Hv.
  - cbn [map] in *. rewrite join_cons, !str_forall_app, Hv, IH. reflexivity.
Qed.

Lemma read_vertex_text (v : vertex) :
  read_vertex (vertex_text d v)
  = Some [py_round (v_lon v) d; py_round (v_lat v) d].
Proof.
  unfold read_vertex, vertex_text, str_split.
  rewrite split_from_app
    by (apply (str_in_forall num_char); [reflexivity | apply decimal_text_chars]).
  rewrite split_from_whole
    by (apply (str_in_forall num_char); [reflexivity | apply decimal_text_chars]).
  cbn [all_some]. now rewrite !parse_decimal_text.
Qed.

Lemma read_ring_text (r : list vertex) :
  r <> [] ->
  read_ring (ring_text d r)
  = Some (map (fun v => [py_round (v_lon v) d; py_round (v_lat v) d]) r).
Proof.
  intros Hne. unfold read_ring, ring_text.
  destruct r as [|v r]; [congruence|].
  change (map (vertex_text d) (v :: r))
    with (vertex_text d v :: map (vertex_text d) r).
  rewrite split_join.
  - change (vertex_text d v :: map (vertex_text d) r)
      with (map (vertex_text d) (v :: r)).
    apply all_some_map. intros; apply read_vertex_text.
  - change (vertex_text d v :: map (vertex_text d) r)
      with (map (vertex_text d) (v :: r)).
    apply Forall_map, Forall_forall. intros x _.
    apply (str_in_forall vertex_char); [reflexivity | apply vertex_text_chars].
Qed.

Lemma join_paren (x : string) (l : list string) :
  str_join "," (map (fun t => "(" ++ t ++ ")") (x :: l))
  = "(" ++ str_join "),(" (x :: l) ++ ")".
Proof.
  revert x. induction l as [|y l IH]; intros x; [reflexivity|].
  cbn [map] in *. rewrite !join_cons, IH.
  cbn [append]. now rewrite !append_assoc.
Qed.

Lemma read_polygon_text (rings : list (list vertex)) :
  rings <> [] -> (forall r, In r rings -> r <> []) ->
  read_polygon (polygon_text d rings) = Some (rounded d rings).
Proof.
  intros Hne Hr. unfold read_polygon, polygon_text, rounded.
  rewrite <- (map_map (ring_text d) (fun t => "(" ++ t ++ ")")).
  destruct rings as [|r rings]; [congruence|].
  change (map (ring_text d) (r :: rings))
    with (ring_text d r :: map (ring_text d) rings).
  rewrite join_paren.
  change ("POLYGON(" ++ ("(" ++ ?t ++ ")") ++ ")") with ("POLYGON((" ++ (t ++ ")") ++ ")").
  rewrite append_assoc. change (")" ++ ")") with "))".
  rewrite strip_prefix_app, strip_suffix_app.
  rewrite split_join.
  - change (ring_text d r :: map (ring_text d) rings)
      with (map (ring_text d) (r :: rings)).
    apply all_some_map. intros x Hx. now apply read_ring_text, Hr.
  - change (ring_text d r :: map (ring_text d) rings)
      with (map (ring_text d) (r :: rings)).
    apply Forall_map, Forall_forall. intros x _.
    apply (str_in_forall ring_char); [reflexivity | apply ring_text_chars].
Qed.

End PolygonFacts.

Section BoundsFacts.

Lemma ensure_2d_seq (c c' : coords) :
  ensure_2d c = Ret c' -> exists l, c' = Seq l.
Proof.
  destruct c as [x|[|[x|a] xs]]; cbn [ensure_2d]; try discriminate.
  - intros [= <-]. eauto.
  - destruct (omap ensure_2d (Seq a :: xs)); [|discriminate].
    intros [= <-]. eauto.
Qed.

(** What [list(map(ensure_2d, xs))] gives for well-formed elements. *)
Lemma omap_ensure_2d_well_formed (xs : list coords) :
  Forall (fun c => well_formed c = true ->
                   exists c', ensure_2d c = Ret c' /\ well_formed c' = true
                              /\ in_range c' = in_range c) xs ->
  forallb well_formed xs = true ->
  exists ys, omap ensure_2d xs = Ret ys
             /\ Forall2 (fun c c' => ensure_2d c = Ret c') xs ys
             /\ forallb well_formed ys = true
             /\ forallb in_range ys = forallb in_range xs.
Proof.
  induction 1 as [|x xs Hx _ IH]; intros Hwf.
  - exists []. repeat split; constructor.
  - cbn [forallb] in Hwf. apply andb_true_iff in Hwf as [Hwx Hwxs].
    destruct (Hx Hwx) as (x' & Ex & Wx & Rx).
    destruct (IH Hwxs) as (ys & Eys & F2 & Wys & Rys).
    exists (x' :: ys). cbn [omap forallb]. rewrite Ex, Eys, Wx, Wys, Rx, Rys.
    repeat split. now constructor.
Qed.

(** On well-formed coordinates [ensure_2d] succeeds, and keeps the
    longitudes and latitudes. *)
Lemma ensure_2d_well_formed (c : coords) :
  well_formed c = true ->
  exists c', ensure_2d c = Ret c' /\ well_formed c' = true
             /\ in_range c' = in_range c.
Proof.
  induction c as [x|xs IH] using coords_induction; [discriminate|].
  intros Hwf. destruct xs as [|[x|a] xs].
  - discriminate.
  - destruct xs as [|[y|b] xs]; try discriminate.
    exists (Seq [Num x; Num y]). repeat split.
  - change (well_formed (Seq (Seq a :: xs)))
      with (forallb well_formed (Seq a :: xs)) in Hwf.
    destruct (omap_ensure_2d_well_formed _ IH Hwf) as (ys & Eys & F2 & Wys & Rys).
    exists (Seq ys).
    change (ensure_2d (Seq (Seq a :: xs)))
      with (match omap ensure_2d (Seq a :: xs) with
            | Raise e => Raise e
            | Ret l => Ret (Seq l)
            end).
    rewrite Eys. split; [reflexivity|].
    inversion F2 as [|? y ? ys' Ey F2']; subst.
    destruct (ensure_2d_seq _ _ Ey) as (l & ->).
    split; [exact Wys | exact Rys].
Qed.

Lemma omap_check_bounds (xs : list coords) :
  Forall (fun c => well_formed c = true ->
                   if in_range c then check_bounds c = Ret tt
                   else check_bounds c = Raise (ValueError lon_msg)
                        \/ check_bounds c = Raise (ValueError lat_msg)) xs ->
  forallb well_formed xs = true ->
  if forallb in_range xs
  then exists us, omap check_bounds xs = Ret us
  else omap check_bounds xs = Raise (ValueError lon_msg)
       \/ omap check_bounds xs = Raise (ValueError lat_msg).
Proof.
  induction 1 as [|x xs Hx _ IH]; intros Hwf.
  - cbn. eauto.
  - cbn [forallb] in Hwf. apply andb_true_iff in Hwf as [Hwx Hwxs].
    specialize (Hx Hwx). specialize (IH Hwxs). cbn [forallb omap].
    destruct (in_range x); cbn [andb].
    + rewrite Hx. destruct (forallb in_range xs).
      * destruct IH as (us & ->). eauto.
      * destruct IH as [-> | ->]; auto.
    + destruct Hx as [-> | ->]; auto.
Qed.

(** On well-formed coordinates [check_bounds] raises exactly when a vertex
    is out of range, and then with one of its two messages. *)
Lemma check_bounds_well_formed (c : coords) :
  well_formed c = true ->
  if in_range c then check_bounds c = Ret tt
  else check_bounds c = Raise (ValueError lon_msg)
       \/ check_bounds c = Raise (ValueError lat_msg).
Proof.
  induction c as [x|xs IH] using coords_induction; [discriminate|].
  intros Hwf. destruct xs as [|[x|a] xs].
  - discriminate.
  - destruct xs as [|[y|b] xs]; try discriminate.
    cbn [in_range check_bounds].
    destruct (out_of 180 x); cbn [negb andb]; [now left|].
    destruct (out_of 90 y); cbn [negb]; [now right | reflexivity].
  - change (well_formed (Seq (Seq a :: xs)))
      with (forallb well_formed (Seq a :: xs)) in Hwf.
    pose proof (omap_check_bounds _ IH Hwf) as H.
    change (in_range (Seq (Seq a :: xs))) with (forallb in_range (Seq a :: xs)).
    change (check_bounds (Seq (Seq a :: xs)))
      with (match omap check_bounds (Seq a :: xs) with
            | Raise e => Raise e
            | Ret _ => Ret tt
            end).
    destruct (forallb in_range (Seq a :: xs)).
    + destruct H as (us & ->). reflexivity.
    + destruct H as [-> | ->]; auto.
Qed.

(** *** geomet raises no [ValueError] on coordinates *)

Lemma omap_shape_errors {A B} (f : A -> outcome B) (xs : list A) :
  (forall x, shape_errors_only (f x)) -> shape_errors_only (omap f xs).
Proof.
  intros Hf. induction xs as [|x xs IH]; intros e; cbn [omap]; [discriminate|].
  destruct (f x) eqn:Ex; [|intros [= <-]; now apply (Hf x)].
  destruct (omap f xs) eqn:Exs; [discriminate|].
  intros [= <-]. now apply IH.
Qed.

Lemma obind_shape_errors {A B} (o : outcome A) (k : A -> outcome B) :
  shape_errors_only o -> (forall a, shape_errors_only (k a)) ->
  shape_errors_only (obind o k).
Proof.
  intros Ho Hk e. destruct o as [a|e']; cbn [obind].
  - apply Hk.
  - intros [= <-]. now apply Ho.
Qed.

Lemma ret_shape_errors {A} (a : A) : shape_errors_only (Ret a).
Proof. intros e; discriminate. Qed.

Lemma dump_number_shape_errors (d : nat) (c : coords) :
  shape_errors_only (dump_number d c).
Proof.
  destruct c as [x|xs]; intros e; cbn [dump_number]; [|intros [= <-]; now left].
  unfold round_and_pad. destruct d as [|d']; [discriminate|].
  destruct (str_split "." _) as [|a [|b l]]; try discriminate;
    intros [= <-]; now right.
Qed.

Lemma dump_vertex_shape_errors (d : nat) (c : coords) :
  shape_errors_only (dump_vertex d c).
Proof.
  destruct c as [x|xs]; cbn [dump_vertex]; [intros e [= <-]; now left|].
  apply obind_shape_errors; [|intros; apply ret_shape_errors].
  apply omap_shape_errors, dump_number_shape_errors.
Qed.

Lemma dump_vertices_shape_errors (d : nat) (c : coords) :
  shape_errors_only (dump_vertices d c).
Proof.
  destruct c as [x|xs]; cbn [dump_vertices]; [intros e [= <-]; now left|].
  apply obind_shape_errors; [|intros; apply ret_shape_errors].
  apply omap_shape_errors, dump_vertex_shape_errors.
Qed.

Lemma dump_wrapped_shape_errors (f : coords -> outcome string) (c : coords) :
  (forall x, shape_errors_only (f x)) -> shape_errors_only (dump_wrapped f c).
Proof.
  intros Hf. destruct c as [x|xs]; cbn [dump_wrapped]; [intros e [= <-]; now left|].
  apply obind_shape_errors; [|intros; apply ret_shape_errors].
  now apply omap_shape_errors.
Qed.

Lemma wkt_dumps_shape_errors (g : geometry) (d : nat) :
  shape_errors_only (wkt_dumps g d).
Proof.
  unfold wkt_dumps. destruct (g_coordinates g) as [x|xs];
    [intros e [= <-]; now left|].
  destruct (Nat.eqb _ 0); [apply ret_shape_errors|].
  apply obind_shape_errors; [|intros; apply ret_shape_errors].
  destruct (g_type g); cbn [wkt_body];
    auto using dump_vertex_shape_errors, dump_vertices_shape_errors,
               dump_wrapped_shape_errors.
Qed.

End BoundsFacts.

(* ===================================================================== *)
(** * The geometry converter: properties                                 *)
(* ===================================================================== *)

Section ConverterFacts.

Lemma list_set_same {A} (xs : list A) (n : nat) (x : A) :
  nth_error xs n = Some x -> list_set xs n x = xs.
Proof.
  revert n. induction xs as [|y xs IH]; intros [|n]; cbn; try discriminate.
  - now intros [= ->].
  - intros H. now rewrite IH.
Qed.

Lemma set_coordinates_same (g : geometry) : set_coordinates g (g_coordinates g) = g.
Proof. now destruct g. Qed.

(** Storing the coordinates that are there changes nothing. *)
Lemma store_coordinates_same (obj : geojson) (n : Z) (p : place) (g : geometry) :
  select_geometry obj n = Ret (p, g) ->
  store_coordinates obj p (g_coordinates g) = obj.
Proof.
  destruct obj as [g0|f|fs]; cbn [select_geometry].
  - intros [= <- <-]. cbn. now rewrite set_coordinates_same.
  - intros [= <- <-]. cbn. rewrite set_coordinates_same. now destruct f.
  - destruct (py_index (List.length fs) n) as [k|]; [|discriminate].
    destruct (nth_error fs k) as [f|] eqn:E; [|discriminate].
    intros [= <- <-]. cbn [store_coordinates]. rewrite E.
    rewrite set_coordinates_same.
    replace (mkFeature (f_geometry f) (f_properties f)) with f by now destruct f.
    now rewrite list_set_same.
Qed.

Lemma omap_ensure_2d_same (xs ys : list coords) :
  Forall (fun c => forall c', ensure_2d c = Ret c' -> is_2d c = true -> c' = c) xs ->
  omap ensure_2d xs = Ret ys -> forallb is_2d xs = true -> ys = xs.
Proof.
  intros H. revert ys. induction H as [|x xs Hx _ IH]; intros ys; cbn [omap forallb].
  - now intros [= <-].
  - destruct (ensure_2d x) as [x'|] eqn:Ex; [|discriminate].
    destruct (omap ensure_2d xs) as [ys'|]; [|discriminate].
    intros [= <-] H2. apply andb_true_iff in H2 as [H2x H2xs].
    now rewrite (Hx _ eq_refl H2x), (IH _ eq_refl H2xs).
Qed.

(** Coordinates without a third dimension are their own projection. *)
Lemma ensure_2d_same (c c' : coords) :
  ensure_2d c = Ret c' -> is_2d c = true -> c' = c.
Proof.
  revert c'. induction c as [x|xs IH] using coords_induction; [discriminate|].
  intros c'. destruct xs as [|[x|a] xs].
  - discriminate.
  - cbn [ensure_2d is_2d]. intros [= <-] H. apply Nat.leb_le in H.
    destruct xs as [|y [|z xs]]; cbn in H |- *; try reflexivity. lia.
  - change (ensure_2d (Seq (Seq a :: xs)))
      with (match omap ensure_2d (Seq a :: xs) with
            | Raise e => Raise e
            | Ret l => Ret (Seq l)
            end).
    change (is_2d (Seq (Seq a :: xs))) with (forallb is_2d (Seq a :: xs)).
    destruct (omap ensure_2d (Seq a :: xs)) as [ys|] eqn:E; [|discriminate].
    intros [= <-] H. now rewrite (omap_ensure_2d_same _ _ IH E H).
Qed.

End ConverterFacts.

(** C7, as the code has it.  For every valid polygon (a ring at least, a
    vertex at least in every ring, every vertex in bounds, with or without
    an elevation) and every precision [d] of four decimals at most, the
    precision of the script being four, [geojson_to_wkt] returns a text;
    the text is the polygon with the two rendered numbers of each vertex
    separated by one space and nothing but commas and parentheses besides
    (so that [re.sub] keeps every space between two numbers and every
    number as geomet rendered it); and reading the text back gives the
    vertices of the polygon, in two dimensions, rounded to [d] decimals. *)
Theorem geojson_to_wkt_round_trip (rings : list (list vertex)) (d : nat) :
  (d <= 4)%nat ->
  valid_polygon rings = true ->
  snd (geojson_to_wkt (polygon rings) 0 d) = Ret (polygon_text d rings)
  /\ re_sub_spaces (polygon_wkt d rings) = polygon_text d rings
  /\ read_polygon (polygon_text d rings) = Some (rounded d rings).
Proof.
  intros Hd Hv.
  pose proof (check_bounds_polygon rings Hv) as Hb.
  apply valid_polygon_spec in Hv as [Hne Hr].
  assert (Hr' : forall r, In r rings -> r <> []) by (intros r Hin; now apply Hr).
  assert (Hin : forall r, In r rings -> forall v, In v r -> in_bounds v = true)
    by (intros r Hin; now apply Hr).
  split; [|split].
  - unfold geojson_to_wkt, polygon.
    cbn [select_geometry g_coordinates].
    rewrite ensure_2d_polygon by assumption.
    rewrite Hb. unfold set_coordinates. cbn [g_type].
    rewrite wkt_dumps_polygon by assumption.
    cbn [snd]. now rewrite re_sub_polygon_wkt.
  - now apply re_sub_polygon_wkt.
  - now apply read_polygon_text.
Qed.

Lemma geojson_to_wkt_round_trip_witness :
  let rings := [[mkVertex (-7525 # 100) (4550 # 100) [Num (12 # 1)];
                 mkVertex (-75 # 1) (45 # 1) [];
                 mkVertex (-7475 # 100) (455 # 10) [];
                 mkVertex (-7525 # 100) (4550 # 100) [Num (12 # 1)]]]%Q in
  valid_polygon rings = true
  /\ snd (geojson_to_wkt (polygon rings) 0 4) = Ret (polygon_text 4 rings)
  /\ re_sub_spaces (polygon_wkt 4 rings) = polygon_text 4 rings
  /\ read_polygon (polygon_text 4 rings) = Some (rounded 4 rings).
Proof.
  intros rings. split; [reflexivity|].
  apply (geojson_to_wkt_round_trip rings 4); [lia | reflexivity].
Defined.

(** C7, as stated, fails beyond four decimals.  With five, the longitude
    [2^-17] (0.00000762939453125) rounds to 0.00001, which [repr] writes
    [1e-05]: geomet finds no decimal part in it, and the conversion of a
    valid polygon raises [IndexError] where a text is expected. *)
Lemma small_coordinate_breaks_the_round_trip :
  let tiny := mkVertex (1 # 131072) (0 # 1) [] in
  let rings := [[tiny; at_ 0 1; at_ 1 1; tiny]] in
  valid_polygon rings = true
  /\ repr_float false (Z.abs_N (round_units (1 # 131072) 5)) 5 = "1e-05"
  /\ round_and_pad (1 # 131072) 5 = Raise IndexError
  /\ snd (geojson_to_wkt (polygon rings) 0 5) = Raise IndexError.
Proof. repeat split. Qed.

(** C3, as the code has it.  For every object whose selected geometry has
    well-formed coordinates: when every vertex has its longitude in
    [-180, 180] and its latitude in [-90, 90] (the ends included) no
    [ValueError] is raised; when a vertex is out of range a [ValueError] is
    raised, whose message is one of two fixed texts, and so names the axis
    out of bounds but neither the vertex nor its numbers. *)
Theorem bounds_error_iff_out_of_range
        (obj : geojson) (n : Z) (d : nat) (p : place) (g : geometry) :
  select_geometry obj n = Ret (p, g) ->
  well_formed (g_coordinates g) = true ->
  (in_range (g_coordinates g) = true ->
   forall m, snd (geojson_to_wkt obj n d) <> Raise (ValueError m))
  /\ (in_range (g_coordinates g) = false ->
      snd (geojson_to_wkt obj n d) = Raise (ValueError lon_msg)
      \/ snd (geojson_to_wkt obj n d) = Raise (ValueError lat_msg)).
Proof.
  intros Hsel Hwf. unfold geojson_to_wkt. rewrite Hsel.
  destruct (ensure_2d_well_formed _ Hwf) as (c2 & -> & Hwf2 & <-).
  pose proof (check_bounds_well_formed c2 Hwf2) as Hb.
  destruct (in_range c2); split; try discriminate; intros _.
  - rewrite Hb. intros m.
    destruct (wkt_dumps (set_coordinates g c2) d) as [wkt|e] eqn:E; cbn [snd].
    + discriminate.
    + apply wkt_dumps_shape_errors in E. destruct E as [-> | ->]; discriminate.
  - destruct Hb as [-> | ->]; cbn [snd]; auto.
Qed.

Lemma bounds_error_iff_out_of_range_witness :
  well_formed (g_coordinates track_geometry) = true
  /\ in_range (g_coordinates track_geometry) = false
  /\ (snd (geojson_to_wkt track 0 4) = Raise (ValueError lon_msg)
      \/ snd (geojson_to_wkt track 0 4) = Raise (ValueError lat_msg)).
Proof.
  split; [reflexivity | split; [reflexivity|]].
  apply (bounds_error_iff_out_of_range track 0 4 InFeature track_geometry);
    reflexivity.
Defined.

(** C3, as stated, fails: the error raised for an out-of-range vertex does
    not identify the vertex.  The points (200, 0) and (300, 0) raise the
    same exception, so that no reading of the exception gives back the
    offending pair. *)
Lemma bounds_error_does_not_identify_the_vertex :
  ~ (exists offending : exn -> Z * Z,
       forall lon lat : Z,
         (180 < lon)%Z ->
         exists e, snd (geojson_to_wkt (point [lon; lat]) 0 4) = Raise e
                   /\ offending e = (lon, lat)).
Proof.
  intros (offending & H).
  destruct (H 200%Z 0%Z eq_refl) as (e1 & E1 & F1).
  destruct (H 300%Z 0%Z eq_refl) as (e2 & E2 & F2).
  vm_compute in E1, E2.
  assert (e1 = e2) by congruence. subst e2.
  rewrite F1 in F2. discriminate.
Qed.

(** C10, as the code has it.  [geojson_to_wkt] is a function of its
    arguments and does no I/O (it is not in the monad of effects), but it
    writes to its input: the object after the call is the input with the
    coordinates of the selected geometry replaced by their projection on
    two dimensions.  The input is left as it was when no vertex of the
    selected geometry has more than two coordinates. *)
Theorem geojson_to_wkt_frame (obj : geojson) (n : Z) (d : nat) :
  fst (geojson_to_wkt obj n d) = projected obj n
  /\ (forall p g, select_geometry obj n = Ret (p, g) ->
                  is_2d (g_coordinates g) = true ->
                  fst (geojson_to_wkt obj n d) = obj).
Proof.
  assert (H : fst (geojson_to_wkt obj n d) = projected obj n).
  { unfold geojson_to_wkt, projected.
    destruct (select_geometry obj n) as [[p g]|e]; [|reflexivity].
    destruct (ensure_2d (g_coordinates g)) as [c2|e]; [|reflexivity].
    destruct (check_bounds c2); [|reflexivity].
    now destruct (wkt_dumps (set_coordinates g c2) d). }
  split; [exact H|].
  intros p g Hsel H2d. rewrite H. unfold projected. rewrite Hsel.
  destruct (ensure_2d (g_coordinates g)) as [c2|e] eqn:E; [|reflexivity].
  rewrite (ensure_2d_same _ _ E H2d).
  now apply store_coordinates_same with (n := n).
Qed.

Lemma geojson_to_wkt_frame_witness :
  fst (geojson_to_wkt (polygon square_rings) 0 4) = polygon square_rings.
Proof.
  apply (proj2 (geojson_to_wkt_frame (polygon square_rings) 0 4)
               Here (mkGeometry Polygon (polygon_coords square_rings)));
    reflexivity.
Defined.

(** C10, as stated, fails: on the point (200, 0, 5) the call raises the
    bounds error and leaves the input without its third coordinate. *)
Lemma geojson_to_wkt_writes_to_its_input :
  snd (geojson_to_wkt (point [200; 0; 5]%Z) 0 4) = Raise (ValueError lon_msg)
  /\ fst (geojson_to_wkt (point [200; 0; 5]%Z) 0 4) = point [200; 0]%Z
  /\ fst (geojson_to_wkt (point [200; 0; 5]%Z) 0 4) <> point [200; 0; 5]%Z.
Proof.
  split; [reflexivity | split; [reflexivity|]].
  vm_compute. discriminate.
Qed.

(** C6, as the code has it.  In the scenario of the square (mission RCM,
    resolution 100M, polarization HH, from 2023-01-01 to 2023-01-02) the
    search is issued with the filter [Beam Mnemonic like %100M%] and with
    the square as the geometry that the products must intersect; the text
    of the square has every coordinate with its four decimals and no
    elevation. *)
Theorem square_scenario_search :
  w_net (fst (Rcm.main square_env (initial_world [])))
  = [EodmsSearch "RCM"
       [("Beam Mnemonic", ("like", FList ["%100M%"]));
        ("Product Type", ("=", FStr "GRD"));
        ("Polarization", ("like", FList ["%HH%"]))]
       [("intersects",
         "POLYGON((0.0000 0.0000,0.0000 1.0000,1.0000 1.0000,1.0000 0.0000,0.0000 0.0000))")]
       [("20230101_000000", "20230102_000000")];
     EodmsOrder ["image-1"];
     EodmsDownload ["image-1"] "/data" 3]
  /\ snd (geojson_to_wkt (polygon square_rings) 0 4)
     = Ret "POLYGON((0.0000 0.0000,0.0000 1.0000,1.0000 1.0000,1.0000 0.0000,0.0000 0.0000))".
Proof. split; vm_compute; reflexivity. Qed.

(** C6, as stated, fails: the text of the square is not the one with bare
    integers. *)
Lemma square_text_has_four_decimals :
  snd (geojson_to_wkt (polygon square_rings) 0 4)
  <> Ret "POLYGON((0 0,0 1,1 1,1 0,0 0))".
Proof. vm_compute. discriminate. Qed.

(* ===================================================================== *)
(** * The diagnostics reporter: properties                               *)
(* ===================================================================== *)

Section ReporterFacts.

Lemma trans_severity (severity : string) :
  if Rcm.str_mem severity severity_names
  then exists lvl, dict_get trans severity = Ret lvl
  else dict_get trans severity = Raise (KeyError severity).
Proof.
  unfold Rcm.str_mem, severity_names, dict_get, trans. cbn [existsb dict_find].
  destruct (String.eqb severity "WARNING"), (String.eqb severity "ERROR"),
           (String.eqb severity "INFO"), (String.eqb severity "DEBUG");
    cbn; eauto.
Qed.

(** A line gives an element exactly when it has the shape. *)
Lemma diag_line_shape (aline : string) :
  if well_shaped aline
  then exists date time lvl description,
         diag_line aline = Ret (line_element date time lvl description)
  else exists e, diag_line aline = Raise e.
Proof.
  unfold well_shaped, diag_line.
  generalize (map clean_part (str_split " - " (str_strip aline))) as parts.
  intros parts. pose proof trans_severity as Hsev.
  destruct parts as [|ts [|comp [|sev [|msg rest]]]];
    unfold subscript; cbn [nth_error obind]; cbv zeta;
    try (destruct (str_split " " (str_replace "," ":" ts)) as [|date [|time more]];
         cbn [obind]);
    eauto;
    try (destruct (dict_get trans sev); cbn [obind]; eauto; fail).
  specialize (Hsev sev).
  destruct (Rcm.str_mem sev severity_names).
  - destruct Hsev as (lvl & ->). cbn [obind]. eauto.
  - rewrite Hsev. cbn [obind]. eauto.
Qed.

Lemma diag_entries_filter (all_lines : list string) :
  diag_entries all_lines = diag_entries (filter well_shaped all_lines).
Proof.
  induction all_lines as [|aline rest IH]; [reflexivity|].
  cbn [diag_entries filter]. pose proof (diag_line_shape aline) as H.
  destruct (well_shaped aline).
  - cbn [diag_entries]. now rewrite IH.
  - destruct H as (e & He). unfold diag_entry. rewrite He. exact IH.
Qed.

End ReporterFacts.

(** C9.  The severities ERROR, WARNING, INFO and DEBUG have the codes 1, 2,
    3 and 4.  A log line that has the shape
    [timestamp - component - severity - message] gives one [line] element;
    any other line gives nothing, and the document is the one of the
    well-shaped lines alone; [log2xml] never raises.  The line of the
    scenario gives the element with date 2024-05-01, time 10:00:00, level 1
    and description [disk full]. *)
Theorem log2xml_skips_malformed_lines :
  (dict_get trans "ERROR" = Ret "1" /\ dict_get trans "WARNING" = Ret "2"
   /\ dict_get trans "INFO" = Ret "3" /\ dict_get trans "DEBUG" = Ret "4")
  /\ (forall aline,
        if well_shaped aline
        then exists date time lvl description,
               diag_entry aline = line_element date time lvl description
        else diag_entry aline = "")
  /\ (forall all_lines,
        diag_document all_lines = diag_document (filter well_shaped all_lines))
  /\ (forall logfile xmldiag w, snd (log2xml logfile xmldiag w) = Ret tt)
  /\ diag_entry scenario_line = line_element "2024-05-01" "10:00:00" "1" "disk full".
Proof.
  split; [repeat split|]. split; [|split; [|split]].
  - intros aline. pose proof (diag_line_shape aline) as H. unfold diag_entry.
    destruct (well_shaped aline).
    + destruct H as (date & time & lvl & description & ->). eauto.
    + destruct H as (e & ->). reflexivity.
  - intros all_lines. unfold diag_document. now rewrite diag_entries_filter.
  - intros logfile xmldiag w. unfold log2xml.
    now destruct (read_file w logfile).
  - reflexivity.
Qed.

(* ===================================================================== *)
(** * Facts about the world                                              *)
(* ===================================================================== *)

Section WorldFacts.

Lemma set_files_same (w : world) : set_files (w_files w) w = w.
Proof. now destruct w. Qed.

Lemma accepted_app (w : world) (a b : list (level * string)) :
  accepted w (a ++ b)%list = (accepted w a ++ accepted w b)%list.
Proof. unfold accepted. destruct (w_log_file w); [apply filter_app | reflexivity]. Qed.

Lemma accepted_same_logger (w w' : world) (entries : list (level * string)) :
  w_log_file w' = w_log_file w -> w_log_level w' = w_log_level w ->
  accepted w' entries = accepted w entries.
Proof. unfold accepted. now intros -> ->. Qed.

(** What a call of [logging] changes. *)
Lemma log_effect (clock : nat -> string) (l : level) (msg : string) (w : world) :
  exists w',
    log clock l msg w = (w', Ret tt)
    /\ w_files w' = w_files w /\ w_dirs w' = w_dirs w /\ w_net w' = w_net w
    /\ w_log_file w' = w_log_file w /\ w_log_level w' = w_log_level w
    /\ log_entries w' = (log_entries w ++ accepted w [(l, msg)])%list.
Proof.
  unfold log, accepted, log_entries. cbn [filter fst].
  destruct (level_no l <? w_log_level w)%Z.
  - exists w. cbn [negb]. destruct (w_log_file w); now rewrite app_nil_r.
  - destruct (w_log_file w); eexists; repeat split; cbn.
    + now rewrite map_app.
    + now rewrite app_nil_r.
Qed.

Lemma dict_find_set {V} (d : dict V) (k : string) (v : V) :
  dict_find (dict_set d k v) k = Some v.
Proof.
  induction d as [|[k' v'] d IH]; cbn.
  - now rewrite String.eqb_refl.
  - destruct (String.eqb k k') eqn:E; cbn; now rewrite E.
Qed.

Lemma insert_sorted_Forall (P : Rcm.archive -> Prop) (a : Rcm.archive)
      (l : list Rcm.archive) :
  P a -> Forall P l -> Forall P (Rcm.insert_sorted a l).
Proof.
  intros Ha. induction 1 as [|b l Hb Hl IH]; cbn.
  - now constructor.
  - destruct (String.leb _ _); repeat constructor; assumption.
Qed.

Lemma sorted_Forall (P : Rcm.archive -> Prop) (l : list Rcm.archive) :
  Forall P l -> Forall P (Rcm.sorted l).
Proof.
  unfold Rcm.sorted.
  enough (H : forall acc, Forall P acc -> Forall P l ->
                          Forall P (fold_left (fun acc a => Rcm.insert_sorted a acc) l acc))
    by (apply H; constructor).
  induction l as [|a l IH]; intros acc Hacc Hl; cbn; [assumption|].
  inversion Hl; subst. apply IH; [now apply insert_sorted_Forall | assumption].
Qed.

End WorldFacts.

(* ===================================================================== *)
(** * The extraction of archives: properties                             *)
(* ===================================================================== *)

Section ExtractFacts.

Variable e : Rcm.env.
Hypothesis mkdir_ok : forall d, Rcm.mkdir e d = Rcm.Made.

Lemma same_outside_refl (w : world) : same_outside w w.
Proof. repeat split. Qed.

Lemma same_outside_trans (w w1 w2 : world) :
  same_outside w w1 -> same_outside w1 w2 -> same_outside w w2.
Proof.
  unfold same_outside. intros (N1 & LF1 & LL1 & LE1) (N2 & LF2 & LL2 & LE2).
  repeat split; congruence.
Qed.

Lemma written_app (fs : dict string) (a b : list (string * string)) :
  written fs (a ++ b)%list = written (written fs a) b.
Proof. apply fold_left_app. Qed.

Lemma ensure_dir_effect (d : string) (w : world) :
  exists w',
    ensure_dir d w = (w', Ret tt) /\ w_files w' = w_files w /\ same_outside w w'.
Proof.
  unfold ensure_dir. destruct (path_exists d w).
  - exists w. repeat split.
  - eexists. split; [reflexivity|]. repeat split.
Qed.

(** The directories that the library makes above the target. *)
Lemma upperdirs_effect (d : string) (w : world) :
  exists w',
    (if String.eqb d "" then ret tt else ensure_dir d) w = (w', Ret tt)
    /\ w_files w' = w_files w /\ same_outside w w'.
Proof.
  destruct (String.eqb d ""); [|apply ensure_dir_effect].
  exists w. repeat split.
Qed.

Lemma extract_member_benign (new_path : string) (m : Rcm.member) (w : world) :
  benign m = true ->
  exists w',
    Rcm.extract_member new_path m w = (w', Ret tt)
    /\ w_files w' = written (w_files w) (member_files new_path m)
    /\ same_outside w w'.
Proof.
  unfold benign, Rcm.extract_member, Rcm.zf_extract, member_files, try_except.
  intros Hm.
  destruct (upperdirs_effect (dirname (Rcm.targetpath new_path m)) w)
    as (w1 & E1 & F1 & S1).
  unfold bind at 1. rewrite E1.
  destruct (Rcm.is_dir m).
  - destruct (ensure_dir_effect (Rcm.targetpath new_path m) w1) as (w2 & E2 & F2 & S2).
    rewrite E2. exists w2. split; [reflexivity|]. split; [cbn; congruence|].
    now apply same_outside_trans with w1.
  - cbn [orb] in Hm. apply andb_true_iff in Hm as [Hn Hx].
    apply negb_true_iff in Hn. rewrite Hn.
    destruct (Rcm.m_extract m) as [content|[copied|] ex].
    + eexists. split; [reflexivity|]. split; [cbn; now rewrite F1|].
      destruct S1 as (N1 & LF1 & LL1 & LE1). repeat split; assumption.
    + destruct ex; try discriminate.
      eexists. split; [reflexivity|]. split; [cbn; now rewrite F1|].
      destruct S1 as (N1 & LF1 & LL1 & LE1). repeat split; assumption.
    + destruct ex; try discriminate.
      exists w1. split; [reflexivity|]. split; [cbn; now rewrite F1 | exact S1].
Qed.

Lemma extract_members_benign (new_path : string) (ms : list Rcm.member) (w : world) :
  forallb benign ms = true ->
  exists w',
    for_each ms (Rcm.extract_member new_path) w = (w', Ret tt)
    /\ w_files w' = written (w_files w) (flat_map (member_files new_path) ms)
    /\ same_outside w w'.
Proof.
  revert w. induction ms as [|m ms IH]; intros w H.
  - exists w. repeat split.
  - cbn [forallb] in H. apply andb_true_iff in H as [Hm Hms].
    destruct (extract_member_benign new_path m w Hm) as (w1 & E1 & F1 & S1).
    destruct (IH w1 Hms) as (w2 & E2 & F2 & S2).
    exists w2. cbn [for_each flat_map]. unfold bind. rewrite E1, E2.
    split; [reflexivity|]. split; [now rewrite F2, F1, written_app|].
    now apply same_outside_trans with w1.
Qed.

Lemma create_subdir_effect (directory : string) (w : world) :
  exists w',
    Rcm.create_subdir e directory w = (w', Ret directory)
    /\ w_files w' = w_files w /\ same_outside w w'.
Proof.
  unfold Rcm.create_subdir. destruct (path_exists directory w).
  - exists w. repeat split.
  - rewrite mkdir_ok. eexists. split; [reflexivity|]. repeat split.
Qed.

(** The extraction of one archive that opens and has benign members. *)
Lemma extract_item_effect (out_dir : string) (a : Rcm.archive) (w : world) :
  extractable a = true ->
  exists w',
    Rcm.extract_item e out_dir false a w = (w', Ret tt)
    /\ w_files w' = written (w_files w) (archive_files out_dir a)
    /\ w_net w' = w_net w
    /\ w_log_file w' = w_log_file w /\ w_log_level w' = w_log_level w
    /\ log_entries w' = (log_entries w ++ accepted w [(DEBUG, Rcm.a_path a)])%list.
Proof.
  unfold extractable, archive_files, Rcm.extract_item. intros Ha.
  destruct (Rcm.a_open a) as [members|]; [|discriminate].
  destruct (log_effect (Rcm.clock e) DEBUG (Rcm.a_path a) w)
    as (w1 & E1 & F1 & _ & N1 & LF1 & LL1 & LE1).
  destruct (create_subdir_effect (archive_dir out_dir a) w1)
    as (w2 & E2 & F2 & N2 & LF2 & LL2 & LE2).
  destruct (extract_members_benign (archive_dir out_dir a) members w2 Ha)
    as (w3 & E3 & F3 & N3 & LF3 & LL3 & LE3).
  unfold bind at 1. rewrite E1.
  unfold bind at 1. fold (archive_dir out_dir a). rewrite E2.
  unfold bind at 1. unfold lift at 1.
  unfold bind at 1. rewrite E3.
  exists w3. split; [reflexivity|].
  rewrite F3, F2, F1, N3, N2, N1, LF3, LF2, LF1, LL3, LL2, LL1, LE3, LE2, LE1.
  repeat split.
Qed.

Lemma extract_items_effect (out_dir : string) (files : list Rcm.archive) (w : world) :
  Forall (fun a => extractable a = true) files ->
  exists w',
    for_each files (Rcm.extract_item e out_dir false) w = (w', Ret tt)
    /\ w_files w' = written (w_files w) (flat_map (archive_files out_dir) files)
    /\ w_net w' = w_net w
    /\ w_log_file w' = w_log_file w /\ w_log_level w' = w_log_level w
    /\ log_entries w'
       = (log_entries w
          ++ accepted w (map (fun a => (DEBUG, Rcm.a_path a)) files))%list.
Proof.
  intros H. revert w. induction H as [|a files Ha _ IH]; intros w.
  - exists w. cbn. unfold accepted. destruct (w_log_file w); cbn;
      now rewrite app_nil_r.
  - destruct (extract_item_effect out_dir a w Ha)
      as (w1 & E1 & F1 & N1 & LF1 & LL1 & LE1).
    destruct (IH w1) as (w2 & E2 & F2 & N2 & LF2 & LL2 & LE2).
    exists w2. cbn [for_each flat_map map]. unfold bind. rewrite E1, E2.
    split; [reflexivity|].
    rewrite F2, F1, N2, N1, LF2, LF1, LL2, LL1, LE2, LE1.
    rewrite written_app.
    rewrite (accepted_same_logger w w1) by assumption.
    rewrite <- app_assoc, <- accepted_app. repeat split.
Qed.

End ExtractFacts.

(** C8, as the code has it.  When every directory asked for can be made,
    every archive opens and every member is a directory, or a file that
    extracts or fails with [zipfile.error], [extract_all] ends normally.
    The members are gone through in the order of the sorted archives and
    of their members: the content of a member that extracts is written,
    at the place that the library gives it under the directory of its
    archive; a member that fails is skipped, and what the library had
    copied of it stays, an empty file for a short member with a wrong
    CRC.  The log takes one DEBUG entry for each archive, its path, and
    nothing for a member that fails. *)
Theorem extract_all_skips_bad_members (e : Rcm.env) (out_dir : string) (w : world) :
  (forall d, Rcm.mkdir e d = Rcm.Made) ->
  forallb extractable (Rcm.glob_zip e out_dir) = true ->
  let files := Rcm.sorted (Rcm.glob_zip e out_dir) in
  let w' := fst (Rcm.extract_all e out_dir false w) in
  snd (Rcm.extract_all e out_dir false w) = Ret tt
  /\ w_files w' = written (w_files w) (flat_map (archive_files out_dir) files)
  /\ log_entries w'
     = (log_entries w ++ accepted w (map (fun a => (DEBUG, Rcm.a_path a)) files))%list.
Proof.
  intros Hmk Hall files w'. subst w'. unfold Rcm.extract_all. fold files.
  assert (Hf : Forall (fun a => extractable a = true) files).
  { apply sorted_Forall, Forall_forall. intros a Ha.
    rewrite forallb_forall in Hall. now apply Hall. }
  destruct (extract_items_effect e Hmk out_dir files w Hf)
    as (w1 & -> & F1 & _ & _ & _ & LE1).
  cbn [fst snd]. auto.
Qed.

Lemma extract_all_skips_bad_members_witness :
  let e := archive_env (three_members (Rcm.Breaks (Some "") BadZipFile)) in
  let w' := fst (Rcm.extract_all e "/data" false logging_world) in
  snd (Rcm.extract_all e "/data" false logging_world) = Ret tt
  /\ w_files w' = [("/data/x/a.txt", "A"); ("/data/x/b.txt", ""); ("/data/x/c.txt", "C")]
  /\ log_entries w' = [(DEBUG, "/data/x.zip")].
Proof.
  intros e w'.
  destruct (extract_all_skips_bad_members e "/data" logging_world
              (fun _ => eq_refl) eq_refl) as (Hr & Hf & Hl).
  split; [exact Hr | split; [exact Hf | exact Hl]].
Defined.

(** C8, as stated, fails.  The member that fails with [zipfile.error] is
    skipped and leaves no trace in the log: the log is the one of the run
    in which the member extracts.  A member that fails with another
    exception ends the extraction: the member after it is not extracted. *)
Lemma extraction_failure_is_not_logged :
  log_entries (fst (Rcm.extract_all
                      (archive_env (three_members (Rcm.Breaks (Some "") BadZipFile)))
                      "/data" false logging_world))
  = [(DEBUG, "/data/x.zip")]
  /\ log_entries (fst (Rcm.extract_all (archive_env (three_members (Rcm.Extracts "B")))
                                       "/data" false logging_world))
     = [(DEBUG, "/data/x.zip")]
  /\ snd (Rcm.extract_all (archive_env (three_members (Rcm.Breaks None OSError)))
                          "/data" false logging_world)
     = Raise OSError
  /\ w_files (fst (Rcm.extract_all (archive_env (three_members (Rcm.Breaks None OSError)))
                                   "/data" false logging_world))
     = [("/data/x/a.txt", "A")].
Proof. repeat split. Qed.

(* ===================================================================== *)
(** * The downloads of the Sentinel client: properties                   *)
(* ===================================================================== *)

Section DownloadFacts.

Variable e : Sentinel.env.
Variable c : Sentinel.config.
Variable token : string.

Lemma set_net_same (w : world) : set_net (w_net w) w = w.
Proof. now destruct w. Qed.

(** Following the redirections issues [redirect_calls] and gives [resolve]. *)
Lemma follow_redirects_effect (fuel : nat) (url : string) (r : Sentinel.response)
      (w : world) :
  Sentinel.follow_redirects e token fuel url r w
  = (set_net (w_net w ++ redirect_calls e token fuel r)%list w, resolve e fuel url r).
Proof.
  revert url r w. induction fuel as [|fuel IH]; intros url r w;
    cbn [Sentinel.follow_redirects resolve redirect_calls];
    destruct (Sentinel.is_redirect (Sentinel.status_code r));
    try (unfold raise, ret; now rewrite app_nil_r, set_net_same).
  destruct (Sentinel.location r) as [url'|];
    [|unfold raise; now rewrite app_nil_r, set_net_same].
  unfold bind at 1, call_net at 1. unfold bind at 1, lift at 1.
  destruct (Sentinel.http_get e url') as [r'|ex]; [|reflexivity].
  rewrite IH. cbn [w_net set_net]. now rewrite <- app_assoc.
Qed.

Variable fuel : nat.

(** What one turn of the loop of [download_products] changes. *)
Lemma download_one_effect (p : Sentinel.product) (w : world) :
  exists w',
    Sentinel.download_one e c token fuel p w
    = (w', match product_content e fuel p with
           | Ret _ => Ret tt
           | Raise ex => Raise ex
           end)
    /\ w_files w' = written (w_files w) (artifact e c fuel p)
    /\ w_net w' = (w_net w ++ product_calls e token fuel p)%list
    /\ w_log_file w' = w_log_file w /\ w_log_level w' = w_log_level w
    /\ log_entries w'
       = (log_entries w
          ++ accepted w (start_entry p
                         :: match product_content e fuel p with
                            | Ret _ => [done_entry c p]
                            | Raise _ => []
                            end))%list.
Proof.
  unfold Sentinel.download_one, artifact, product_calls.
  cbv zeta. fold (product_url p). fold (artifact_path c p).
  destruct (log_effect (Sentinel.clock e) INFO ("Download file from: " ++ product_url p) w)
    as (w1 & E1 & F1 & D1 & N1 & LF1 & LL1 & LE1).
  fold (start_entry p) in LE1.
  unfold bind at 1. rewrite E1.
  unfold bind at 1, call_net at 1. unfold bind at 1, lift at 1.
  destruct (Sentinel.http_get e (product_url p)) as [r|ex] eqn:Hget.
  2:{ assert (Hpc : product_content e fuel p = Raise ex)
        by (unfold product_content; now rewrite Hget).
      rewrite Hpc. eexists. split; [reflexivity|].
      change (log_entries (set_net ?n w1)) with (log_entries w1).
      cbn [w_files w_net w_log_file w_log_level set_net written fold_left].
      rewrite F1, N1, LF1, LL1, LE1. repeat split. }
  unfold bind at 1. rewrite follow_redirects_effect.
  change (set_net ?a (set_net ?b w1)) with (set_net a w1).
  cbn [w_net set_net]. rewrite <- app_assoc. cbn [app].
  destruct (resolve e fuel (product_url p) r) as [[u r2]|ex] eqn:Hres.
  2:{ assert (Hpc : product_content e fuel p = Raise ex)
        by (unfold product_content; rewrite Hget; cbn [obind]; now rewrite Hres).
      rewrite Hpc. eexists. split; [reflexivity|].
      change (log_entries (set_net ?n w1)) with (log_entries w1).
      cbn [w_files w_net w_log_file w_log_level set_net written fold_left].
      rewrite F1, N1, LF1, LL1, LE1. repeat split. }
  unfold bind at 1, lift at 1. cbn [fst snd].
  destruct (Sentinel.raise_for_status u r2) as [[]|ex] eqn:Hst.
  2:{ assert (Hpc : product_content e fuel p = Raise ex)
        by (unfold product_content; rewrite Hget; cbn [obind]; rewrite Hres;
            cbn [obind fst snd]; now rewrite Hst).
      rewrite Hpc. eexists. split; [reflexivity|].
      change (log_entries (set_net ?n w1)) with (log_entries w1).
      cbn [w_files w_net w_log_file w_log_level set_net written fold_left].
      rewrite F1, N1, LF1, LL1, LE1. repeat split. }
  assert (Hpc : product_content e fuel p = Ret (Sentinel.content r2))
    by (unfold product_content; rewrite Hget; cbn [obind]; rewrite Hres;
        cbn [obind fst snd]; now rewrite Hst).
  rewrite Hpc.
  unfold bind at 1.
  match goal with
  | |- context [if dir_exists ?d ?w0 then _ else _] =>
      assert (Hd : exists w2,
                 (if dir_exists d w0 then (w0, Ret tt) else add_dir d w0) = (w2, Ret tt)
                 /\ w_files w2 = w_files w1 /\ w_net w2 = w_net w0
                 /\ w_log_file w2 = w_log_file w1 /\ w_log_level w2 = w_log_level w1
                 /\ log_entries w2 = log_entries w1)
        by (destruct (dir_exists d w0); eexists; repeat split)
  end.
  destruct Hd as (w2 & -> & F2 & N2 & LF2 & LL2 & LE2).
  unfold bind at 1, write_file at 1.
  match goal with
  | |- context [log ?k ?l ?m ?w0] =>
      destruct (log_effect k l m w0) as (w3 & E3 & F3 & D3 & N3 & LF3 & LL3 & LE3)
  end.
  fold (done_entry c p) in LE3.
  exists w3. rewrite E3. split; [reflexivity|].
  change (log_entries (set_files ?f w2)) with (log_entries w2) in LE3.
  rewrite (accepted_same_logger w (set_files _ w2)) in LE3
    by (cbn [w_log_file w_log_level set_files]; congruence).
  cbn [w_files w_net w_log_file w_log_level set_files set_net] in *.
  rewrite F3, N3, LF3, LL3, LE3, F2, N2, LF2, LL2, LE2, F1, N1, LF1, LL1, LE1.
  rewrite <- app_assoc, <- accepted_app. repeat split.
Qed.

(** The loop ends at the first product whose exchange raises. *)
Lemma download_loop_stops (pre post : list Sentinel.product) (p : Sentinel.product)
      (ex : exn) (w : world) :
  (forall q, In q pre -> exists file_content, product_content e fuel q = Ret file_content) ->
  product_content e fuel p = Raise ex ->
  exists w',
    for_each (pre ++ p :: post)%list (Sentinel.download_one e c token fuel) w
    = (w', Raise ex)
    /\ w_files w' = written (w_files w) (flat_map (artifact e c fuel) pre)
    /\ w_net w' = (w_net w ++ flat_map (product_calls e token fuel) (pre ++ [p]))%list
    /\ w_log_file w' = w_log_file w /\ w_log_level w' = w_log_level w
    /\ log_entries w'
       = (log_entries w
          ++ accepted w (flat_map (fun q => [start_entry q; done_entry c q]) pre
                         ++ [start_entry p]))%list.
Proof.
  intros Hpre Hp. revert w. induction pre as [|q pre IH]; intros w.
  - destruct (download_one_effect p w) as (w1 & E1 & F1 & N1 & LF1 & LL1 & LE1).
    rewrite Hp in E1, LE1. unfold artifact in F1. rewrite Hp in F1.
    exists w1. cbn [app for_each flat_map]. unfold bind. rewrite E1.
    rewrite app_nil_r. repeat split; assumption.
  - destruct (download_one_effect q w) as (w1 & E1 & F1 & N1 & LF1 & LL1 & LE1).
    destruct (Hpre q (or_introl eq_refl)) as (file_content & Hq).
    rewrite Hq in E1, LE1.
    destruct (IH (fun x Hx => Hpre x (or_intror Hx)) w1)
      as (w2 & E2 & F2 & N2 & LF2 & LL2 & LE2).
    exists w2. cbn [app for_each flat_map]. unfold bind. rewrite E1, E2.
    split; [reflexivity|].
    rewrite F2, F1, N2, N1, LF2, LF1, LL2, LL1, LE2, LE1.
    rewrite (accepted_same_logger w w1) by assumption.
    rewrite written_app, <- !app_assoc, <- accepted_app.
    repeat split.
Qed.

Lemma download_entries_one_error (pre : list Sentinel.product) (p : Sentinel.product)
      (msg : string) :
  List.length (filter is_error (download_entries c pre p msg)) = 1%nat.
Proof.
  unfold download_entries. cbn [filter is_error fst].
  rewrite filter_app. cbn [filter is_error fst start_entry failure_entry].
  rewrite length_app. cbn [List.length].
  induction pre as [|q pre IH]; [reflexivity|]. exact IH.
Qed.

End DownloadFacts.

(** C1, as the code has it.  When the search lists the products
    [pre ++ p :: post], the token is obtained, the exchanges for the
    products of [pre] succeed and the exchange for [p] raises a
    [RequestException], [download_products] writes the artifacts of [pre]
    and no other, issues no request for the products of [post], emits one
    entry of level ERROR, the download failure, and raises [Exception]: the
    failure of one product ends the downloads. *)
Theorem download_stops_at_the_first_failure
        (e : Sentinel.env) (c : Sentinel.config) (fuel : nat) (w w1 w2 : world)
        (token : string) (pre post : list Sentinel.product) (p : Sentinel.product)
        (msg : string) :
  Sentinel.search_products e c w = (w1, Ret (pre ++ p :: post)%list) ->
  Sentinel.get_keycloak e w1 = (w2, Ret token) ->
  (forall q, In q pre -> exists file_content, product_content e fuel q = Ret file_content) ->
  product_content e fuel p = Raise (RequestException msg) ->
  let w' := fst (Sentinel.download_products e c fuel w) in
  snd (Sentinel.download_products e c fuel w)
  = Raise (Exception ("Product download failed. Error: " ++ msg))
  /\ w_files w' = written (w_files w2) (flat_map (artifact e c fuel) pre)
  /\ w_net w' = (w_net w2 ++ flat_map (product_calls e token fuel) (pre ++ [p]))%list
  /\ log_entries w' = (log_entries w2 ++ accepted w2 (download_entries c pre p msg))%list
  /\ List.length (filter is_error (download_entries c pre p msg)) = 1%nat.
Proof.
  intros Hsearch Htoken Hpre Hp w'. subst w'.
  destruct (log_effect (Sentinel.clock e) DEBUG "Token generated" w2)
    as (w3 & E3 & F3 & D3 & N3 & LF3 & LL3 & LE3).
  destruct (download_loop_stops e c token fuel pre post p _ w3 Hpre Hp)
    as (w4 & E4 & F4 & N4 & LF4 & LL4 & LE4).
  destruct (log_effect (Sentinel.clock e) ERROR
                       ("Product download failed. Error: " ++ msg) w4)
    as (w5 & E5 & F5 & D5 & N5 & LF5 & LL5 & LE5).
  assert (Hrun : Sentinel.download_products e c fuel w
                 = (w5, Raise (Exception ("Product download failed. Error: " ++ msg)))).
  { unfold Sentinel.download_products, Sentinel.log_and_wrap, try_except.
    unfold bind at 1. rewrite Hsearch.
    assert (Hbody : (keycloak_token <- Sentinel.get_keycloak e ;;
                     log (Sentinel.clock e) DEBUG "Token generated" ;;
                     for_each (pre ++ p :: post)%list
                              (Sentinel.download_one e c keycloak_token fuel)) w1
                    = (w4, Raise (RequestException msg))).
    { unfold bind at 1. rewrite Htoken. unfold bind at 1. now rewrite E3. }
    destruct pre; cbn [app] in *; rewrite Hbody;
      cbn [Sentinel.is_request_exception exn_str]; unfold bind, raise;
      now rewrite E5. }
  rewrite Hrun. cbn [fst snd]. split; [reflexivity|].
  rewrite F5, N5, LE5, F4, N4, LE4, F3, N3, LE3.
  rewrite (accepted_same_logger w2 w3) by assumption.
  rewrite (accepted_same_logger w2 w4) by congruence.
  unfold download_entries. fold (failure_entry msg).
  repeat split.
  - rewrite <- !app_assoc, <- !accepted_app. cbn [app]. now rewrite <- app_assoc.
  - apply download_entries_one_error.
Qed.

Lemma download_stops_at_the_first_failure_witness :
  let w' := fst (Sentinel.download_products three_env three_config 5 logging_world) in
  snd (Sentinel.download_products three_env three_config 5 logging_world)
  = Raise (Exception
             ("Product download failed. Error: "
              ++ "500 Server Error: Internal Server Error for url: "
              ++ product_url product_2))
  /\ w_files w' = [("/data/S2A_1.zip", "zip-1")].
Proof.
  intros w'.
  destruct (download_stops_at_the_first_failure
              three_env three_config 5 logging_world
              (fst (Sentinel.search_products three_env three_config logging_world))
              (fst (Sentinel.get_keycloak three_env
                      (fst (Sentinel.search_products three_env three_config
                                                     logging_world))))
              "token" [product_1] [product_3] product_2
              ("500 Server Error: Internal Server Error for url: "
               ++ product_url product_2))
    as (Hr & Hf & _).
  - vm_compute. reflexivity.
  - vm_compute. reflexivity.
  - intros q [<- | []]. exists "zip-1". vm_compute. reflexivity.
  - vm_compute. reflexivity.
  - split; [exact Hr | exact Hf].
Defined.

(** C1, as stated, fails.  Of three products the second alone is refused by
    the server (the third would be served); the run writes one artifact,
    not two: the third product is never requested, and the run ends with an
    exception. *)
Lemma one_failure_ends_the_downloads :
  product_content three_env 5 product_1 = Ret "zip-1"
  /\ product_content three_env 5 product_3 = Ret "zip-3"
  /\ w_files (fst (Sentinel.download_products three_env three_config 5 logging_world))
     = [("/data/S2A_1.zip", "zip-1")]
  /\ existsb (fun call => match call with
                          | HttpGet url _ => String.eqb url (product_url product_3)
                          | _ => false
                          end)
             (w_net (fst (Sentinel.download_products three_env three_config 5
                                                     logging_world)))
     = false
  /\ snd (Sentinel.download_products three_env three_config 5 logging_world)
     = Raise (Exception
                ("Product download failed. Error: "
                 ++ "500 Server Error: Internal Server Error for url: "
                 ++ product_url product_2)).
Proof. repeat split; vm_compute; reflexivity. Qed.

(* ===================================================================== *)
(** * What the scripts leave untouched                                   *)
(* ===================================================================== *)

Section Preservation.

Context {X : Type} (part : world -> X).

Lemma preserves_ret {A} (a : A) : preserves part (ret a).
Proof. intros w. reflexivity. Qed.

Lemma preserves_raise {A} (ex : exn) : preserves part (@raise A ex).
Proof. intros w. reflexivity. Qed.

Lemma preserves_lift {A} (o : outcome A) : preserves part (lift o).
Proof. intros w. reflexivity. Qed.

Lemma preserves_bind {A B} (m : M A) (k : A -> M B) :
  preserves part m -> (forall a, preserves part (k a)) -> preserves part (bind m k).
Proof.
  intros Hm Hk w. unfold bind. specialize (Hm w).
  destruct (m w) as [w1 [a|ex]]; cbn [fst] in *; [|exact Hm].
  now rewrite (Hk a w1).
Qed.

Lemma preserves_try_except {A} (m : M A) (h : exn -> option (M A)) :
  preserves part m ->
  (forall ex handler, h ex = Some handler -> preserves part handler) ->
  preserves part (try_except m h).
Proof.
  intros Hm Hh w. unfold try_except. specialize (Hm w).
  destruct (m w) as [w1 [a|ex]]; cbn [fst] in *; [exact Hm|].
  destruct (h ex) as [handler|] eqn:E; [|exact Hm].
  now rewrite (Hh ex handler E w1).
Qed.

Lemma preserves_for_each {A} (xs : list A) (body : A -> M unit) :
  (forall x, preserves part (body x)) -> preserves part (for_each xs body).
Proof.
  intros Hb. induction xs as [|x xs IH]; cbn [for_each].
  - apply preserves_ret.
  - apply preserves_bind; [apply Hb | intros _; exact IH].
Qed.

Lemma preserves_if {A} (b : bool) (m1 m2 : M A) :
  preserves part m1 -> preserves part m2 -> preserves part (if b then m1 else m2).
Proof. now destruct b. Qed.

End Preservation.

Create HintDb preserves.

#[local] Hint Resolve preserves_ret preserves_raise preserves_lift preserves_bind
  preserves_for_each preserves_if : preserves.

Section PreservedParts.

Lemma log_preserves_logger clock l msg : preserves logger (log clock l msg).
Proof.
  intros w. unfold log, logger.
  destruct (level_no l <? w_log_level w)%Z; [reflexivity|].
  now destruct (w_log_file w).
Qed.

Lemma log_preserves_files clock l msg : preserves w_files (log clock l msg).
Proof.
  intros w. unfold log.
  destruct (level_no l <? w_log_level w)%Z; [reflexivity|].
  now destruct (w_log_file w).
Qed.

Lemma log_preserves_net clock l msg : preserves w_net (log clock l msg).
Proof.
  intros w. unfold log.
  destruct (level_no l <? w_log_level w)%Z; [reflexivity|].
  now destruct (w_log_file w).
Qed.

Lemma call_net_preserves_logger call : preserves logger (call_net call).
Proof. intros w. reflexivity. Qed.

Lemma call_net_preserves_files call : preserves w_files (call_net call).
Proof. intros w. reflexivity. Qed.

Lemma print_preserves_logger text : preserves logger (print text).
Proof. intros w. reflexivity. Qed.

Lemma print_preserves_files text : preserves w_files (print text).
Proof. intros w. reflexivity. Qed.

Lemma print_preserves_net text : preserves w_net (print text).
Proof. intros w. reflexivity. Qed.

Lemma write_file_preserves_logger path text : preserves logger (write_file path text).
Proof. intros w. reflexivity. Qed.

Lemma write_file_preserves_net path text : preserves w_net (write_file path text).
Proof. intros w. reflexivity. Qed.

Lemma basicConfig_preserves_files filename lvl :
  preserves w_files (basicConfig filename lvl).
Proof. intros w. reflexivity. Qed.

Lemma basicConfig_preserves_net filename lvl :
  preserves w_net (basicConfig filename lvl).
Proof. intros w. reflexivity. Qed.

Lemma log2xml_preserves_logger logfile xmldiag :
  preserves logger (log2xml logfile xmldiag).
Proof. intros w. unfold log2xml. now destruct (read_file w logfile). Qed.

Lemma log2xml_preserves_net logfile xmldiag :
  preserves w_net (log2xml logfile xmldiag).
Proof. intros w. unfold log2xml. now destruct (read_file w logfile). Qed.

Lemma create_subdir_preserves_logger e directory :
  preserves logger (Rcm.create_subdir e directory).
Proof.
  intros w. unfold Rcm.create_subdir.
  destruct (path_exists directory w); [reflexivity|].
  now destruct (Rcm.mkdir e directory).
Qed.

Lemma create_subdir_preserves_net e directory :
  preserves w_net (Rcm.create_subdir e directory).
Proof.
  intros w. unfold Rcm.create_subdir.
  destruct (path_exists directory w); [reflexivity|].
  now destruct (Rcm.mkdir e directory).
Qed.

Lemma remove_file_preserves_logger path : preserves logger (Rcm.remove_file path).
Proof. intros w. reflexivity. Qed.

Lemma remove_file_preserves_net path : preserves w_net (Rcm.remove_file path).
Proof. intros w. reflexivity. Qed.

End PreservedParts.

#[local] Hint Resolve log_preserves_logger log_preserves_files log_preserves_net
  call_net_preserves_logger call_net_preserves_files
  print_preserves_logger print_preserves_files print_preserves_net
  write_file_preserves_logger write_file_preserves_net
  basicConfig_preserves_files basicConfig_preserves_net
  log2xml_preserves_logger log2xml_preserves_net
  create_subdir_preserves_logger create_subdir_preserves_net
  remove_file_preserves_logger remove_file_preserves_net : preserves.

Section RcmPreservation.

Variable e : Rcm.env.

Lemma ensure_dir_preserves {X} (part : world -> X) d :
  (forall d', preserves part (add_dir d')) -> preserves part (ensure_dir d).
Proof.
  intros Hd w. unfold ensure_dir. destruct (path_exists d w); [reflexivity | apply Hd].
Qed.

Lemma extract_member_preserves {X} (part : world -> X) new_path m :
  (forall path text, preserves part (write_file path text)) ->
  (forall d, preserves part (add_dir d)) ->
  preserves part (Rcm.extract_member new_path m).
Proof.
  intros Hw Hd. unfold Rcm.extract_member, Rcm.zf_extract.
  apply preserves_try_except.
  - apply preserves_bind.
    + destruct (String.eqb _ ""); [apply preserves_ret | now apply ensure_dir_preserves].
    + intros _. destruct (Rcm.is_dir m); [now apply ensure_dir_preserves|].
      destruct (Rcm.m_extract m) as [content|[copied|] ex];
        try destruct (String.eqb _ ""); auto with preserves.
  - intros [] handler; try discriminate. intros [= <-]. apply preserves_ret.
Qed.

Lemma extract_all_preserves_logger out_dir remove :
  preserves logger (Rcm.extract_all e out_dir remove).
Proof.
  unfold Rcm.extract_all. apply preserves_for_each. intros item.
  unfold Rcm.extract_item.
  repeat (apply preserves_bind; [|intros]); auto with preserves.
  apply preserves_for_each. intros m.
  apply extract_member_preserves; [auto with preserves | intros d w; reflexivity].
Qed.

End RcmPreservation.

(* ===================================================================== *)
(** * The RCM run: properties                                            *)
(* ===================================================================== *)

Section RcmRunFacts.

Variable e : Rcm.env.

Lemma bind_lift {A B} (o : outcome A) (k : A -> M B) (w : world) :
  bind (lift o) k w = match o with
                      | Ret a => k a w
                      | Raise ex => (w, Raise ex)
                      end.
Proof. now destruct o. Qed.

Lemma logger_file (w w' : world) :
  logger w' = logger w -> w_log_file w' = w_log_file w.
Proof. unfold logger. now intros [= -> _]. Qed.

Lemma log2xml_ends_with_diagnostics (logfile diagfile : string) :
  ends_with_diagnostics logfile diagfile (log2xml logfile diagfile).
Proof.
  intros w w' a Hlog. unfold log2xml, read_file. rewrite Hlog, String.eqb_refl.
  unfold write_file. intros [= <-]. cbn [w_files w_log set_files].
  apply dict_find_set.
Qed.

Lemma bind_ends_with_diagnostics {A B} (logfile diagfile : string)
      (m : M A) (k : A -> M B) :
  preserves logger m ->
  (forall a, ends_with_diagnostics logfile diagfile (k a)) ->
  ends_with_diagnostics logfile diagfile (bind m k).
Proof.
  intros Hm Hk w w' b Hlog. unfold bind. specialize (Hm w).
  destruct (m w) as [w1 [a|ex]]; [|discriminate]. cbn [fst] in Hm.
  apply (Hk a). now rewrite (logger_file _ _ Hm).
Qed.

Lemma quit_preserves {X A} (part : world -> X) : preserves part (@Rcm.quit A).
Proof. apply preserves_raise. Qed.

Lemma execute_download_ends_with_diagnostics (properties : dict string)
      (workdir t0 t1 : string) :
  ends_with_diagnostics (path_join workdir "log.txt") (path_join workdir "diag.xml")
                        (Rcm.execute_download e properties workdir t0 t1).
Proof.
  unfold Rcm.execute_download. cbv zeta.
  repeat (apply bind_ends_with_diagnostics;
          [repeat first [ apply preserves_bind; [|intros]
                        | apply preserves_if
                        | apply quit_preserves
                        | apply extract_all_preserves_logger
                        | solve [auto with preserves] ]
          | intros ]).
  apply log2xml_ends_with_diagnostics.
Qed.

End RcmRunFacts.

(** The run that submits its search to a catalogue without products. *)
Lemma zero_results_run
        (e : Rcm.env) (dirs : list string) (info : Rcm.run_info) :
  Rcm.info_file e = Some info ->
  (forall collection filters features dates,
      Rcm.eodms_search e collection filters features dates = Ret []) ->
  w_net (fst (Rcm.main e (initial_world dirs))) <> [] ->
  let w' := fst (Rcm.main e (initial_world dirs)) in
  snd (Rcm.main e (initial_world dirs)) = Raise (SystemExit None)
  /\ (exists call, w_net w' = [call] /\ is_search call = true)
  /\ (exists before,
        log_entries w'
        = (before ++ accepted w' [(INFO, "No images found, exiting download script...")])%list)
  /\ dict_find (w_files w') (path_join (Rcm.ri_workdir info) "diag.xml")
     = Some (diag_document (readlines (log_text (w_log w')))).
Proof.
  intros Hinfo Hsearch.
  remember (Rcm.main e (initial_world dirs)) as run eqn:Hrun.
  unfold Rcm.main in Hrun. rewrite Hinfo, bind_lift in Hrun.
  destruct (subscript (Rcm.ri_properties info) 0) as [props|];
    [|subst run; intros H; now contradiction H].
  cbv zeta in Hrun. unfold bind at 1 in Hrun. cbn [basicConfig] in Hrun.
  set (w0 := mkWorld _ _ _ _ _ _ _ _ _) in Hrun.
  unfold Rcm.execute_download in Hrun. cbv zeta in Hrun.
  destruct (log_effect (Rcm.clock e) DEBUG "RCMSearch loaded" w0)
    as (w1 & E1 & F1 & D1 & N1 & LF1 & LL1 & LE1).
  unfold bind at 1 in Hrun. rewrite E1 in Hrun.
  repeat (rewrite bind_lift in Hrun;
          match type of Hrun with
          | context [match ?o with Ret _ => _ | Raise _ => _ end] =>
              destruct o;
              [|subst run; cbn [fst]; rewrite N1; intros H; now contradiction H]
          end).
  unfold bind at 1, call_net at 1 in Hrun. rewrite bind_lift, Hsearch in Hrun.
  unfold bind at 1, print at 1 in Hrun.
  cbn [List.length Nat.eqb] in Hrun.
  unfold bind at 1 in Hrun. unfold bind at 1 in Hrun.
  match type of Hrun with
  | context [log ?k ?l ?m ?w] =>
      destruct (log_effect k l m w) as (w2 & E2 & F2 & D2 & N2 & LF2 & LL2 & LE2)
  end.
  rewrite E2 in Hrun.
  cbn [w_files w_dirs w_net w_log_file w_log_level set_net set_stdout] in F2, N2, LF2, LL2.
  change (log_entries (set_stdout ?o (set_net ?n w1))) with (log_entries w1) in LE2.
  rewrite (accepted_same_logger w1) in LE2 by reflexivity.
  unfold bind at 1 in Hrun. unfold log2xml at 1, read_file in Hrun.
  rewrite LF2, LF1 in Hrun.
  subst w0. cbn [w_log_file] in Hrun. rewrite String.eqb_refl in Hrun.
  unfold write_file, Rcm.quit, raise in Hrun. subst run. cbn [fst snd].
  intros _. split; [reflexivity|]. split; [|split].
  - eexists. cbn [w_net set_files]. rewrite N2, N1. cbn [w_net app].
    split; reflexivity.
  - exists (log_entries w1).
    change (log_entries (set_files ?f w2)) with (log_entries w2).
    rewrite LE2. f_equal. apply accepted_same_logger;
      cbn [w_log_file w_log_level set_files]; congruence.
  - cbn [w_files w_log set_files]. apply dict_find_set.
Qed.

(** The run that goes to its end. *)
Lemma completed_run_has_diagnostics (e : Rcm.env) (dirs : list string) :
  snd (Rcm.main e (initial_world dirs)) = Ret tt ->
  exists info,
    Rcm.info_file e = Some info
    /\ dict_find (w_files (fst (Rcm.main e (initial_world dirs))))
                 (path_join (Rcm.ri_workdir info) "diag.xml")
       = Some (diag_document
                 (readlines (log_text (w_log (fst (Rcm.main e (initial_world dirs))))))).
Proof.
  unfold Rcm.main. destruct (Rcm.info_file e) as [info|]; [|discriminate].
  intros Hret. exists info. split; [reflexivity|].
  rewrite bind_lift in *.
  destruct (subscript (Rcm.ri_properties info) 0) as [props|]; [|discriminate].
  cbv zeta in *. unfold bind at 1 in Hret. unfold bind at 1. unfold bind at 1.
  cbn [basicConfig fst snd] in *.
  match goal with
  | |- context [Rcm.execute_download e ?p ?d ?a ?b ?w] =>
      destruct (Rcm.execute_download e p d a b w) as [w' [[]|ex]] eqn:E;
        [|discriminate];
      apply (execute_download_ends_with_diagnostics e p d a b w w' tt);
        [reflexivity | exact E]
  end.
Qed.

(* ===================================================================== *)
(** * The Sentinel run: properties                                       *)
(* ===================================================================== *)

Section SentinelRunFacts.

Variable e : Sentinel.env.

Lemma log_and_wrap_preserves {X A} (part : world -> X) catches text (m : M A) :
  (forall l msg, preserves part (log (Sentinel.clock e) l msg)) ->
  preserves part m ->
  preserves part (Sentinel.log_and_wrap e catches text m).
Proof.
  intros Hlog Hm. unfold Sentinel.log_and_wrap. apply preserves_try_except; [exact Hm|].
  intros ex handler. destruct (catches ex); [|discriminate]. intros [= <-].
  apply preserves_bind; [apply Hlog | intros; apply preserves_raise].
Qed.

(** Building the configuration writes no file. *)
Lemma FewsConfig_preserves_files : preserves w_files (Sentinel.FewsConfig e).
Proof.
  unfold Sentinel.FewsConfig.
  destruct (Sentinel.info_file e) as [err|err|i]; auto with preserves.
  destruct (Sentinel.i_properties i) as [|first rest]; auto with preserves.
  repeat (apply preserves_bind; [|intros]); auto with preserves.
  - destruct (Sentinel.i_start i), (Sentinel.i_end i); auto with preserves.
  - destruct (Sentinel.geojson_files e) as [|f [|f' rest']]; auto with preserves.
  - match goal with a : Sentinel.geojson_file |- _ => destruct a end;
      auto with preserves.
  - match goal with a : list (outcome string) |- _ => destruct a as [|g [|g' more]] end;
      auto 6 with preserves.
Qed.

(** Searching writes no file. *)
Lemma search_products_preserves_files (c : Sentinel.config) :
  preserves w_files (Sentinel.search_products e c).
Proof.
  unfold Sentinel.search_products.
  repeat (apply preserves_bind; [|intros]);
    try (apply log_and_wrap_preserves; [auto with preserves|]);
    repeat first [ apply preserves_if | apply preserves_bind; [|intros] ];
    auto with preserves.
  - destruct (Sentinel.json _) as [|[items|] tok]; auto with preserves.
  - match goal with a : list Sentinel.product |- _ => destruct a end;
      auto with preserves.
Qed.

End SentinelRunFacts.

Section SentinelFiles.

Variable e : Sentinel.env.
Variable path : string.
Hypothesis not_zip : is_zip path = false.

Lemma preserves_file_at {A} (m : M A) :
  preserves w_files m -> preserves (file_at path) m.
Proof. intros H w. unfold file_at. now rewrite H. Qed.

Lemma dict_find_set_other {V} (d : dict V) (k : string) (v : V) :
  k <> path -> dict_find (dict_set d k v) path = dict_find d path.
Proof.
  intros Hk. assert (Hp : String.eqb path k = false)
    by (apply String.eqb_neq; congruence).
  induction d as [|[k' v'] d IH]; cbn.
  - now rewrite Hp.
  - destruct (String.eqb k k') eqn:E; cbn.
    + apply String.eqb_eq in E. subst k'. now rewrite Hp.
    + now rewrite IH.
Qed.

Lemma is_zip_app (x : string) : is_zip (x ++ ".zip") = true.
Proof. unfold is_zip. now rewrite strip_suffix_app. Qed.

(** The path of an artifact ends in [.zip]. *)
Lemma is_zip_path_join (a b : string) : is_zip (path_join a (b ++ ".zip")) = true.
Proof.
  unfold path_join.
  destruct (b ++ ".zip") as [|c rest] eqn:E.
  - destruct b; discriminate.
  - assert (Hb : is_zip (String c rest) = true) by (rewrite <- E; apply is_zip_app).
    assert (Hcases : forall t, is_zip (t ++ String c rest) = true)
      by (intros t; rewrite <- E, <- append_assoc; apply is_zip_app).
    destruct c as [[] [] [] [] [] [] [] []]; try exact Hb;
      destruct (str_last a) as [l|]; try exact Hb;
      destruct l as [[] [] [] [] [] [] [] []];
      first [ apply Hcases | apply (Hcases (a ++ "/")) | rewrite <- append_assoc; apply Hcases | idtac ].
Qed.

Lemma write_artifact_preserves (a b text : string) :
  preserves (file_at path) (write_file (path_join a (b ++ ".zip")) text).
Proof.
  intros w. unfold write_file, file_at. cbn [fst w_files set_files].
  apply dict_find_set_other. intros <-.
  now rewrite is_zip_path_join in not_zip.
Qed.

Lemma get_keycloak_preserves_files : preserves w_files (Sentinel.get_keycloak e).
Proof.
  unfold Sentinel.get_keycloak.
  apply preserves_bind; [|intros r];
    (apply log_and_wrap_preserves; [auto with preserves|]).
  - repeat (apply preserves_bind; [|intros]); auto with preserves.
  - destruct (Sentinel.json r) as [|items [tok|]]; auto with preserves.
Qed.

Lemma follow_redirects_preserves_files token fuel url r :
  preserves w_files (Sentinel.follow_redirects e token fuel url r).
Proof. intros w. now rewrite follow_redirects_effect. Qed.

Lemma download_one_preserves (c : Sentinel.config) token fuel p :
  preserves (file_at path) (Sentinel.download_one e c token fuel p).
Proof.
  unfold Sentinel.download_one. cbv zeta.
  repeat (apply preserves_bind; [|intros]);
    try apply write_artifact_preserves;
    try (apply preserves_file_at;
         first [ apply follow_redirects_preserves_files
               | solve [auto with preserves] ]).
  intros w. now destruct (dir_exists (Sentinel.out_dir c) w).
Qed.

(** A run of the Sentinel script leaves every file that is not an archive
    as it was. *)
Lemma sentinel_main_writes_artifacts_only (fuel : nat) (w : world) :
  file_at path (fst (Sentinel.main e fuel w)) = file_at path w.
Proof.
  revert w. change (preserves (file_at path) (Sentinel.main e fuel)).
  unfold Sentinel.main.
  apply preserves_bind; [apply preserves_file_at, FewsConfig_preserves_files|intros _].
  apply preserves_bind; [apply preserves_file_at, FewsConfig_preserves_files|intros c].
  unfold Sentinel.download_products.
  apply log_and_wrap_preserves;
    [intros; apply preserves_file_at; auto with preserves|].
  apply preserves_bind;
    [apply preserves_file_at, search_products_preserves_files | intros products].
  destruct products as [|q products]; [apply preserves_ret|].
  apply preserves_bind;
    [apply preserves_file_at, get_keycloak_preserves_files | intros token].
  apply preserves_bind; [apply preserves_file_at; auto with preserves | intros _].
  apply preserves_for_each. intros x. apply download_one_preserves.
Qed.

End SentinelFiles.

(** C4, as the code has it.  A run of the RCM script that goes through the
    whole pipeline and ends without exception, or that submits its search
    to a catalogue without products, leaves the diagnostic document, the
    rendering of the log file as it stands at the end of the run, in
    [diag.xml] of the working directory.  A run of the Sentinel script
    writes artifacts only: the log apart, which the world keeps beside its
    files, a file whose name does not end in [.zip] is left as it was, so
    that no diagnostic document is produced. *)
Theorem diagnostics_of_a_run
        (e : Rcm.env) (dirs : list string) (info : Rcm.run_info)
        (se : Sentinel.env) (fuel : nat) (w : world) (path : string) :
  Rcm.info_file e = Some info ->
  snd (Rcm.main e (initial_world dirs)) = Ret tt
  \/ ((forall collection filters features dates,
          Rcm.eodms_search e collection filters features dates = Ret [])
      /\ w_net (fst (Rcm.main e (initial_world dirs))) <> []) ->
  is_zip path = false ->
  file_at (path_join (Rcm.ri_workdir info) "diag.xml")
          (fst (Rcm.main e (initial_world dirs)))
  = Some (diag_document
            (readlines (log_text (w_log (fst (Rcm.main e (initial_world dirs)))))))
  /\ file_at path (fst (Sentinel.main se fuel w)) = file_at path w.
Proof.
  intros Hinfo Hrun Hzip. split; [|now apply sentinel_main_writes_artifacts_only].
  destruct Hrun as [Hret | [Hsearch Hnet]].
  - destruct (completed_run_has_diagnostics e dirs Hret) as (info' & Hinfo' & Hdoc).
    rewrite Hinfo in Hinfo'. injection Hinfo' as <-. exact Hdoc.
  - now destruct (zero_results_run e dirs info Hinfo Hsearch Hnet) as (_ & _ & _ & Hdoc).
Qed.

Lemma diagnostics_of_a_run_witness :
  file_at "/work/diag.xml" (fst (Rcm.main square_env (initial_world [])))
  = Some (diag_document
            (readlines (log_text (w_log (fst (Rcm.main square_env (initial_world [])))))))
  /\ file_at "/work/diag.xml" (fst (Sentinel.main empty_catalogue_env 5 (initial_world [])))
     = file_at "/work/diag.xml" (initial_world []).
Proof.
  apply (diagnostics_of_a_run square_env [] square_info empty_catalogue_env 5
                              (initial_world []) "/work/diag.xml").
  - reflexivity.
  - left. vm_compute. reflexivity.
  - reflexivity.
Defined.

(** C4, as stated, fails.  When the run-description file cannot be read, the
    RCM script prints a message and exits: no file is written, and so no
    diagnostic document. *)
Lemma unreadable_info_file_leaves_no_diagnostics :
  let e := archive_env (three_members (Rcm.Extracts "B")) in
  Rcm.info_file e = None
  /\ Rcm.main e (initial_world [])
     = (set_stdout
          ["ERROR: Reading INFO file - file not found. Check path to INFO file. "]
          (initial_world []),
        Raise (SystemExit None))
  /\ w_files (fst (Rcm.main e (initial_world []))) = [].
Proof. repeat split. Qed.

(** The Sentinel run that finds nothing ends in the world that the search
    leaves, and has written no file. *)
Lemma sentinel_zero_results_run
      (e : Sentinel.env) (fuel : nat) (w w1 w2 w3 : world) (c1 c2 : Sentinel.config) :
  Sentinel.FewsConfig e w = (w1, Ret c1) ->
  Sentinel.FewsConfig e w1 = (w2, Ret c2) ->
  Sentinel.search_products e c2 w2 = (w3, Ret []) ->
  Sentinel.main e fuel w = (w3, Ret tt) /\ w_files w3 = w_files w.
Proof.
  intros H1 H2 H3. split.
  - unfold Sentinel.main, Sentinel.download_products, Sentinel.log_and_wrap, try_except.
    unfold bind at 1. rewrite H1. unfold bind at 1. rewrite H2.
    unfold bind at 1. now rewrite H3.
  - pose proof (FewsConfig_preserves_files e w) as P1.
    pose proof (FewsConfig_preserves_files e w1) as P2.
    pose proof (search_products_preserves_files e c2 w2) as P3.
    rewrite H1 in P1. rewrite H2 in P2. rewrite H3 in P3. cbn [fst] in *.
    congruence.
Qed.

(** C5, as the code has it.  The RCM run: when the catalogue has no product
    for any query and the run gets as far as submitting its search, the run
    ends with [sys.exit()], without error status; the search is the only
    call it has issued, so that nothing is ordered; the log ends with the
    INFO entry [No images found, exiting download script...]; and
    [diag.xml] holds the rendering of the log file.  The Sentinel run: when
    the configuration is built and the search lists no product, the run
    ends normally in the world that the search leaves (no token is asked
    for, nothing is downloaded), and it has written no file, hence no
    diagnostic document. *)
Theorem zero_results_end_the_run
        (e : Rcm.env) (dirs : list string) (info : Rcm.run_info)
        (se : Sentinel.env) (fuel : nat) (w w1 w2 w3 : world)
        (c1 c2 : Sentinel.config) :
  Rcm.info_file e = Some info ->
  (forall collection filters features dates,
      Rcm.eodms_search e collection filters features dates = Ret []) ->
  w_net (fst (Rcm.main e (initial_world dirs))) <> [] ->
  Sentinel.FewsConfig se w = (w1, Ret c1) ->
  Sentinel.FewsConfig se w1 = (w2, Ret c2) ->
  Sentinel.search_products se c2 w2 = (w3, Ret []) ->
  let w' := fst (Rcm.main e (initial_world dirs)) in
  (snd (Rcm.main e (initial_world dirs)) = Raise (SystemExit None)
   /\ (exists call, w_net w' = [call] /\ is_search call = true)
   /\ (exists before,
         log_entries w'
         = (before
            ++ accepted w' [(INFO, "No images found, exiting download script...")])%list)
   /\ file_at (path_join (Rcm.ri_workdir info) "diag.xml") w'
      = Some (diag_document (readlines (log_text (w_log w')))))
  /\ (Sentinel.main se fuel w = (w3, Ret tt) /\ w_files w3 = w_files w).
Proof.
  intros Hinfo Hsearch Hnet H1 H2 H3 w'.
  destruct (zero_results_run e dirs info Hinfo Hsearch Hnet)
    as (Hexit & Hcall & Hlog & Hdoc).
  split.
  - split; [exact Hexit|]. split; [exact Hcall|]. split; [exact Hlog | exact Hdoc].
  - now apply sentinel_zero_results_run with (w1 := w1) (w2 := w2) (c1 := c1) (c2 := c2).
Qed.

Lemma zero_results_end_the_run_witness :
  let rcm := Rcm.main (square_env_with []) (initial_world []) in
  let w1 := fst (Sentinel.FewsConfig empty_catalogue_env (initial_world [])) in
  let w2 := fst (Sentinel.FewsConfig empty_catalogue_env w1) in
  let w3 := fst (Sentinel.search_products empty_catalogue_env three_config w2) in
  (snd rcm = Raise (SystemExit None)
   /\ (exists call, w_net (fst rcm) = [call] /\ is_search call = true)
   /\ (exists before,
         log_entries (fst rcm)
         = (before
            ++ accepted (fst rcm)
                        [(INFO, "No images found, exiting download script...")])%list)
   /\ file_at "/work/diag.xml" (fst rcm)
      = Some (diag_document (readlines (log_text (w_log (fst rcm))))))
  /\ (Sentinel.main empty_catalogue_env 5 (initial_world []) = (w3, Ret tt)
      /\ w_files w3 = w_files (initial_world [])).
Proof.
  intros rcm w1 w2 w3.
  apply (zero_results_end_the_run (square_env_with []) [] square_info
                                  empty_catalogue_env 5 (initial_world []) w1 w2 w3
                                  three_config three_config).
  - reflexivity.
  - reflexivity.
  - vm_compute. discriminate.
  - vm_compute. reflexivity.
  - vm_compute. reflexivity.
  - vm_compute. reflexivity.
Defined.

(** C5, as stated, fails for the Sentinel run: with a catalogue that lists
    no product the run logs that nothing was found and ends normally, but
    it renders no diagnostic document; it has written no file at all. *)
Lemma sentinel_zero_results_render_no_document :
  snd (Sentinel.main empty_catalogue_env 5 (initial_world [])) = Ret tt
  /\ log_entries (fst (Sentinel.main empty_catalogue_env 5 (initial_world [])))
     = [(INFO, "start logging");
        (INFO, "Returned product IDS: []");
        (INFO, "No products found for given search criteria")]
  /\ w_files (fst (Sentinel.main empty_catalogue_env 5 (initial_world []))) = []
  /\ dict_find (w_files (fst (Sentinel.main empty_catalogue_env 5 (initial_world []))))
               "/work/diag.xml"
     = None.
Proof. repeat split; vm_compute; reflexivity. Qed.

(* ===================================================================== *)
(** * The validation gate of the RCM script: properties                  *)
(* ===================================================================== *)

Section GateFacts.

Variable e : Rcm.env.

(** The gate issues no call. *)
Lemma error_check_preserves_net (properties : dict string) :
  preserves w_net (Rcm.error_check e properties).
Proof.
  unfold Rcm.error_check.
  apply preserves_bind; [|intros _; apply preserves_bind; [|intros _]].
  - apply preserves_for_each. intros x.
    destruct (dict_mem properties x); auto using quit_preserves with preserves.
  - apply preserves_for_each. intros x.
    destruct (dict_find Rcm.check (fst x)) as [allowed|]; auto with preserves.
    destruct (Rcm.str_mem (snd x) allowed); auto using quit_preserves with preserves.
  - apply preserves_ret.
Qed.

Lemma gate_passes_present_keys (properties : dict string) (keys : list string)
      (w : world) :
  (forall k, In k keys -> dict_mem properties k = true) ->
  for_each keys
    (fun k => if dict_mem properties k then ret tt
              else log (Rcm.clock e) ERROR (Rcm.missing_msg k) ;; Rcm.quit) w
  = (w, Ret tt).
Proof.
  induction keys as [|k keys IH]; intros H; [reflexivity|].
  cbn [for_each]. unfold bind at 1. rewrite (H k) by now left.
  unfold ret at 1. apply IH. intros x Hx. apply H. now right.
Qed.

(** On a configuration with every required key and a value outside its
    enumeration, the gate logs the first such key with the accepted values
    and halts. *)
Lemma error_check_wrong_value (properties : dict string) (w : world)
      (pre post : list (string * string)) (key v : string) (allowed : list string) :
  (forall k, In k Rcm.required_keys -> dict_mem properties k = true) ->
  properties = (pre ++ (key, v) :: post)%list ->
  (forall kv, In kv pre ->
              match dict_find Rcm.check (fst kv) with
              | Some a => Rcm.str_mem (snd kv) a = true
              | None => True
              end) ->
  dict_find Rcm.check key = Some allowed ->
  Rcm.str_mem v allowed = false ->
  Rcm.error_check e properties w
  = (fst (log (Rcm.clock e) ERROR (Rcm.wrong_msg key allowed) w),
     Raise (SystemExit None)).
Proof.
  intros Hreq Hprops Hpre Hcheck Hv. unfold Rcm.error_check.
  unfold bind at 1. rewrite (gate_passes_present_keys _ _ _ Hreq).
  assert (Hloop : forall w0,
             for_each (pre ++ (key, v) :: post)%list
               (fun kv =>
                  match dict_find Rcm.check (fst kv) with
                  | Some allowed0 =>
                      if Rcm.str_mem (snd kv) allowed0 then ret tt
                      else log (Rcm.clock e) ERROR (Rcm.wrong_msg (fst kv) allowed0) ;;
                           Rcm.quit
                  | None => ret tt
                  end) w0
             = (fst (log (Rcm.clock e) ERROR (Rcm.wrong_msg key allowed) w0),
                Raise (SystemExit None))).
  { clear Hprops. induction pre as [|kv pre IH]; intros w0.
    - cbn [app for_each fst snd]. unfold bind at 1. rewrite Hcheck, Hv.
      destruct (log_effect (Rcm.clock e) ERROR (Rcm.wrong_msg key allowed) w0)
        as (w1 & E1 & _).
      unfold bind at 1. now rewrite E1.
    - cbn [app for_each]. unfold bind at 1.
      pose proof (Hpre kv (or_introl eq_refl)) as Hkv.
      destruct (dict_find Rcm.check (fst kv)) as [a|].
      + rewrite Hkv. unfold ret at 1.
        apply IH. intros x Hx. apply Hpre. now right.
      + unfold ret at 1. apply IH. intros x Hx. apply Hpre. now right. }
  unfold bind at 1. rewrite Hprops at 1. now rewrite Hloop.
Qed.

(** On a configuration without a required key the gate logs the first
    missing key and halts. *)
Lemma error_check_missing_key (properties : dict string) (w : world)
      (pre post : list string) (k : string) :
  Rcm.required_keys = (pre ++ k :: post)%list ->
  (forall x, In x pre -> dict_mem properties x = true) ->
  dict_mem properties k = false ->
  Rcm.error_check e properties w
  = (fst (log (Rcm.clock e) ERROR (Rcm.missing_msg k) w), Raise (SystemExit None)).
Proof.
  intros Hkeys Hpre Hk. unfold Rcm.error_check. rewrite Hkeys.
  unfold bind at 1.
  assert (Hloop : forall keys w0,
             (forall x, In x keys -> dict_mem properties x = true) ->
             for_each (keys ++ k :: post)%list
               (fun k0 => if dict_mem properties k0 then ret tt
                          else log (Rcm.clock e) ERROR (Rcm.missing_msg k0) ;; Rcm.quit) w0
             = (fst (log (Rcm.clock e) ERROR (Rcm.missing_msg k) w0),
                Raise (SystemExit None))).
  { induction keys as [|x keys IH]; intros w0 H.
    - cbn [app for_each]. unfold bind at 1. rewrite Hk.
      destruct (log_effect (Rcm.clock e) ERROR (Rcm.missing_msg k) w0) as (w1 & E1 & _).
      unfold bind at 1. now rewrite E1.
    - cbn [app for_each]. unfold bind at 1. rewrite (H x) by now left.
      unfold ret at 1. apply IH. intros y Hy. apply H. now right. }
  now rewrite Hloop.
Qed.

End GateFacts.

(** C2: the gate exists and is never called.  Without the key [timeout] the
    run submits the search and the order and then stops on a [KeyError];
    its log names no key.  With [unzip] set to [yes] the run goes to its
    end.  The gate [error_check], called on the same configurations, halts
    before any call and logs the key: for the first the missing key, for
    the second the key with its accepted values. *)
Theorem validation_gate_is_never_called :
  let run := Rcm.main (env_with_properties no_timeout_properties) (initial_world []) in
  let run' := Rcm.main (env_with_properties bad_unzip_properties) (initial_world []) in
  let gate := Rcm.error_check (env_with_properties no_timeout_properties)
                              (dict_of_pairs no_timeout_properties) logging_world in
  let gate' := Rcm.error_check (env_with_properties bad_unzip_properties)
                               (dict_of_pairs bad_unzip_properties) logging_world in
  (snd run = Raise (KeyError "timeout")
   /\ map is_search (w_net (fst run)) = [true; false]
   /\ map is_order (w_net (fst run)) = [false; true]
   /\ log_entries (fst run) = [(DEBUG, "RCMSearch loaded")])
  /\ (snd run' = Ret tt /\ List.length (w_net (fst run')) = 3%nat
      /\ filter is_error (log_entries (fst run')) = [])
  /\ (snd gate = Raise (SystemExit None) /\ w_net (fst gate) = []
      /\ log_entries (fst gate)
         = [(ERROR, "Property [ timeout ] is not configured. Add property [ timeout ] to the xml input file. ")])
  /\ (snd gate' = Raise (SystemExit None) /\ w_net (fst gate') = []
      /\ log_entries (fst gate')
         = [(ERROR, "Wrong input to property [ unzip ], has to be one of: ['True', 'False']")]).
Proof. repeat split; vm_compute; reflexivity. Qed.

(* ===================================================================== *)
(** * The geometry converter: further properties                         *)
(* ===================================================================== *)

Section ProjectionFacts.

Lemma omap_fixed {A} (f : A -> outcome A) (ys : list A) :
  Forall (fun y => f y = Ret y) ys -> omap f ys = Ret ys.
Proof.
  induction 1 as [|y ys Hy _ IH]; [reflexivity|].
  cbn [omap]. now rewrite Hy, IH.
Qed.

Lemma omap_Forall2 {A B} (f : A -> outcome B) (xs : list A) (ys : list B) :
  omap f xs = Ret ys -> Forall2 (fun x y => f x = Ret y) xs ys.
Proof.
  revert ys. induction xs as [|x xs IH]; intros ys; cbn [omap].
  - intros [= <-]. constructor.
  - destruct (f x) as [y|] eqn:Ex; [|discriminate].
    destruct (omap f xs) as [l|]; [|discriminate].
    intros [= <-]. constructor; [exact Ex | now apply IH].
Qed.

Lemma omap_raises {A B} (f : A -> outcome B) (xs : list A) (ex : exn) :
  omap f xs = Raise ex -> exists x, In x xs /\ f x = Raise ex.
Proof.
  induction xs as [|x xs IH]; cbn [omap]; [discriminate|].
  destruct (f x) as [y|ex'] eqn:Ex.
  - destruct (omap f xs) as [l|ex'']; [discriminate|].
    intros [= <-]. destruct IH as (x' & Hin & Hx'); [reflexivity|].
    exists x'. split; [now right | exact Hx'].
  - intros [= <-]. exists x. split; [now left | exact Ex].
Qed.

(** The projection of a list of coordinates, element by element. *)
Lemma ensure_2d_nested (a : list coords) (xs : list coords) :
  ensure_2d (Seq (Seq a :: xs))
  = match omap ensure_2d (Seq a :: xs) with
    | Raise e => Raise e
    | Ret ys => Ret (Seq ys)
    end.
Proof. reflexivity. Qed.

Lemma is_2d_nested (a : list coords) (xs : list coords) :
  is_2d (Seq (Seq a :: xs)) = forallb is_2d (Seq a :: xs).
Proof. reflexivity. Qed.

Lemma leaf_count_seq (xs : list coords) :
  leaf_count (Seq xs) = list_sum (map leaf_count xs).
Proof. reflexivity. Qed.

Lemma check_bounds_nested (a : list coords) (xs : list coords) :
  check_bounds (Seq (Seq a :: xs))
  = match omap check_bounds (Seq a :: xs) with
    | Raise e => Raise e
    | Ret _ => Ret tt
    end.
Proof. reflexivity. Qed.

(** The first vertex out of bounds ends the check of a list of vertices. *)
Lemma check_bounds_first_offender (pre post : list vertex) (v : vertex) :
  forallb in_bounds pre = true -> in_bounds v = false ->
  check_bounds (ring_coords (map flat (pre ++ v :: post)))
  = Raise (ValueError (bounds_msg v)).
Proof.
  intros Hpre Hv.
  assert (Hv' : check_bounds (vertex_coords (flat v)) = Raise (ValueError (bounds_msg v))).
  { unfold in_bounds in Hv. unfold bounds_msg.
    cbn [check_bounds vertex_coords flat v_lon v_lat v_more].
    destruct (out_of 180 (v_lon v)); [reflexivity|].
    cbn [negb andb] in Hv. apply negb_false_iff in Hv. now rewrite Hv. }
  assert (Hall : omap check_bounds (map vertex_coords (map flat (pre ++ v :: post)))
                 = Raise (ValueError (bounds_msg v))).
  { clear Hv. induction pre as [|u pre IH].
    - cbn [app map omap]. now rewrite Hv'.
    - cbn [forallb] in Hpre. apply andb_true_iff in Hpre as [Hu Hpre].
      cbn [app map omap]. rewrite (check_bounds_vertex u Hu).
      now rewrite (IH Hpre). }
  unfold ring_coords.
  destruct (map flat (pre ++ v :: post)) as [|u l] eqn:E.
  - destruct pre; discriminate.
  - cbn [map] in *. unfold vertex_coords at 1.
    rewrite check_bounds_nested.
    change (Seq (Num (v_lon u) :: Num (v_lat u) :: v_more u)) with (vertex_coords u).
    now rewrite Hall.
Qed.

Lemma py_index_nat (len k : nat) :
  (k < len)%nat ->
  py_index len (Z.of_nat k) = Some k
  /\ py_index len (Z.of_nat k - Z.of_nat len) = Some k.
Proof.
  intros Hk. unfold py_index. split.
  - replace (0 <=? Z.of_nat k)%Z with true by (symmetry; apply Z.leb_le; lia).
    replace (Z.of_nat k <? Z.of_nat len)%Z with true by (symmetry; apply Z.ltb_lt; lia).
    cbn [andb]. now rewrite Nat2Z.id.
  - replace (0 <=? Z.of_nat k - Z.of_nat len)%Z with false
      by (symmetry; apply Z.leb_gt; lia).
    cbn [andb].
    replace (Z.of_nat k - Z.of_nat len <? 0)%Z with true
      by (symmetry; apply Z.ltb_lt; lia).
    replace (- Z.of_nat len <=? Z.of_nat k - Z.of_nat len)%Z with true
      by (symmetry; apply Z.leb_le; lia).
    cbn [andb]. f_equal. lia.
Qed.

Lemma list_set_length {A} (xs : list A) (n : nat) (x : A) :
  List.length (list_set xs n x) = List.length xs.
Proof.
  revert n. induction xs as [|y xs IH]; intros [|n]; cbn; auto.
Qed.

Lemma list_set_other {A} (xs : list A) (n j : nat) (x : A) :
  j <> n -> nth_error (list_set xs n x) j = nth_error xs j.
Proof.
  revert n j. induction xs as [|y xs IH]; intros [|n] [|j] H; cbn; auto.
  congruence.
Qed.

Lemma list_set_at {A} (xs : list A) (n : nat) (x y : A) :
  nth_error xs n = Some y -> nth_error (list_set xs n x) n = Some x.
Proof.
  revert n. induction xs as [|z xs IH]; intros [|n]; cbn; try discriminate; auto.
Qed.

End ProjectionFacts.

Section TextFacts.

Lemma strip_spaces_follow (b : bool) (s : string) :
  spaces_follow_digits b (strip_spaces b s) = true.
Proof.
  revert b. induction s as [|c s IH]; intros b; [reflexivity|].
  cbn [strip_spaces].
  destruct (Ascii.eqb c " ") eqn:Ec; destruct b; cbn [andb negb];
    cbn [spaces_follow_digits]; rewrite ?Ec; cbn [negb orb andb]; apply IH.
Qed.

Lemma strip_spaces_fixed (b : bool) (t : string) :
  spaces_follow_digits b t = true -> strip_spaces b t = t.
Proof.
  revert b. induction t as [|c t IH]; intros b; [reflexivity|].
  cbn [spaces_follow_digits strip_spaces]. intros H.
  apply andb_true_iff in H as [Hc Ht].
  destruct (Ascii.eqb c " "), b; cbn [negb orb andb] in *;
    try discriminate; now rewrite (IH _ Ht).
Qed.

Lemma strip_spaces_letters (b : bool) (s : string) :
  without_spaces (strip_spaces b s) = without_spaces s.
Proof.
  revert b. induction s as [|c s IH]; intros b; [reflexivity|].
  cbn [strip_spaces without_spaces].
  destruct (Ascii.eqb c " ") eqn:Ec; destruct b; cbn [andb negb];
    cbn [without_spaces]; rewrite ?Ec; now rewrite ?IH.
Qed.

End TextFacts.

(** X1.  What [ensure_2d] returns is in two dimensions, is left as it is
    by a second call, and holds a number at least: the function is a
    projection, and it never returns empty coordinates. *)
Theorem ensure_2d_is_a_projection (c c' : coords) :
  ensure_2d c = Ret c' ->
  is_2d c' = true /\ ensure_2d c' = Ret c' /\ (0 < leaf_count c')%nat.
Proof.
  revert c'. induction c as [x|xs IH] using coords_induction; intros c'.
  - discriminate.
  - destruct xs as [|[x|a] xs].
    + discriminate.
    + cbn [ensure_2d]. intros [= <-].
      destruct xs as [|y xs];
        [split; [reflexivity|]; split; [reflexivity|];
         rewrite leaf_count_seq; cbn [map leaf_count]; unfold list_sum;
         cbn [fold_right]; lia|].
      cbn [firstn]. split; [reflexivity|]. split; [reflexivity|].
      rewrite leaf_count_seq. cbn [map leaf_count]. unfold list_sum.
      cbn [fold_right]. lia.
    + rewrite ensure_2d_nested.
      destruct (omap ensure_2d (Seq a :: xs)) as [ys|] eqn:E; [|discriminate].
      intros [= <-]. apply omap_Forall2 in E.
      assert (Hall : Forall (fun y => is_2d y = true /\ ensure_2d y = Ret y
                                      /\ (0 < leaf_count y)%nat) ys).
      { clear - IH E. induction E as [|x y l l' Exy _ IHE]; constructor.
        - inversion IH; subst. auto.
        - inversion IH; subst. auto. }
      inversion E as [|x y l l' Exy Erest]; subst.
      destruct (ensure_2d_seq _ _ Exy) as (b & ->).
      split; [|split].
      * rewrite is_2d_nested. apply forallb_forall. intros z Hz.
        rewrite Forall_forall in Hall. now apply Hall.
      * rewrite ensure_2d_nested. rewrite omap_fixed; [reflexivity|].
        eapply Forall_impl; [|exact Hall]. now intros z (_ & Hz & _).
      * rewrite leaf_count_seq. cbn [map]. unfold list_sum. cbn [fold_right].
        inversion Hall as [|? ? (_ & _ & Hb) _]; subst. lia.
Qed.

Lemma ensure_2d_is_a_projection_witness :
  let c := Seq [Seq [Num (1 # 1); Num (2 # 1); Num (3 # 1)]; Seq [Num (4 # 1); Num (5 # 1)]] in
  let c' := Seq [Seq [Num (1 # 1); Num (2 # 1)]; Seq [Num (4 # 1); Num (5 # 1)]] in
  ensure_2d c = Ret c'
  /\ is_2d c' = true /\ ensure_2d c' = Ret c' /\ (0 < leaf_count c')%nat.
Proof.
  intros c c'. split; [reflexivity|].
  apply (ensure_2d_is_a_projection c c'). reflexivity.
Defined.

(** X2.  In a geometry whose coordinates are a list of vertices, the first
    vertex out of bounds decides the error, whatever follows it: the
    [ValueError] has the message of the longitude when the longitude of
    that vertex is out of bounds, and the message of the latitude
    otherwise. *)
Theorem first_vertex_out_of_bounds_decides
        (t : geom_type) (pre post : list vertex) (v : vertex) (n : Z) (d : nat) :
  forallb in_bounds pre = true ->
  in_bounds v = false ->
  snd (geojson_to_wkt (path_of t (pre ++ v :: post)) n d)
  = Raise (ValueError (bounds_msg v)).
Proof.
  intros Hpre Hv. unfold geojson_to_wkt, path_of.
  cbn [select_geometry g_coordinates].
  rewrite ensure_2d_ring by (destruct pre; discriminate).
  now rewrite (check_bounds_first_offender pre post v Hpre Hv).
Qed.

Lemma first_vertex_out_of_bounds_decides_witness :
  snd (geojson_to_wkt
         (path_of LineString [at_ 10 20; at_ 200 95; at_ 0 (-100)]) 0 4)
  = Raise (ValueError lon_msg).
Proof.
  apply (first_vertex_out_of_bounds_decides LineString [at_ 10 20] [at_ 0 (-100)]
                                            (at_ 200 95) 0 4);
    reflexivity.
Defined.

(** X3.  In a feature collection the converter works on the feature that
    [feature_number] selects, counted from the start or, when negative,
    from the end: the result is the result for that feature alone, the
    feature keeps its properties, and every other feature is left as it
    was. *)
Theorem geojson_to_wkt_selects_one_feature
        (fs : list feature) (k : nat) (f : feature) (d : nat) :
  nth_error fs k = Some f ->
  let r := geojson_to_wkt (FeatureCollection fs) (Z.of_nat k) d in
  snd r = snd (geojson_to_wkt (Feature f) 0 d)
  /\ geojson_to_wkt (FeatureCollection fs) (Z.of_nat k - Z.of_nat (List.length fs)) d = r
  /\ List.length (features_of (fst r)) = List.length fs
  /\ (forall j, j <> k -> nth_error (features_of (fst r)) j = nth_error fs j)
  /\ (exists f', fst (geojson_to_wkt (Feature f) 0 d) = Feature f'
                 /\ f_properties f' = f_properties f
                 /\ nth_error (features_of (fst r)) k = Some f').
Proof.
  intros Hk r. subst r.
  assert (Hlt : (k < List.length fs)%nat) by (apply nth_error_Some; congruence).
  destruct (py_index_nat _ _ Hlt) as [Hi Hi'].
  unfold geojson_to_wkt.
  cbn [select_geometry]. rewrite Hi, Hi', Hk.
  destruct (ensure_2d (g_coordinates (f_geometry f))) as [c2|ex].
  2:{ cbn [fst snd features_of]. repeat split. exists f. now rewrite Hk. }
  cbn [store_coordinates]. rewrite Hk.
  destruct (check_bounds c2) as [[]|ex];
    [destruct (wkt_dumps (set_coordinates (f_geometry f) c2) d) as [wkt|ex]|];
    cbn [fst snd features_of];
    (split; [reflexivity|]; split; [reflexivity|];
     split; [apply list_set_length|];
     split; [intros j Hj; now apply list_set_other|];
     eexists; split; [reflexivity|]; split; [reflexivity|];
     now apply list_set_at with (y := f)).
Qed.

Lemma geojson_to_wkt_selects_one_feature_witness :
  let high := mkFeature (mkGeometry Point (Seq [Num (1 # 1); Num (2 # 1); Num (9 # 1)]))
                        [("name", "high")] in
  let far := mkFeature (mkGeometry Point (Seq [Num (200 # 1); Num (0 # 1)])) [] in
  let r := geojson_to_wkt (FeatureCollection [far; high]) 1 4 in
  snd r = snd (geojson_to_wkt (Feature high) 0 4)
  /\ geojson_to_wkt (FeatureCollection [far; high]) (-1) 4 = r
  /\ nth_error (features_of (fst r)) 0 = Some far.
Proof.
  intros high far r.
  destruct (geojson_to_wkt_selects_one_feature [far; high] 1 high 4 eq_refl)
    as (H1 & H2 & _ & H4 & _).
  split; [exact H1|]. split; [exact H2|].
  apply (H4 0%nat). discriminate.
Defined.

(** X4.  On a text of ASCII, as geomet writes, the substitution that ends
    the converter deletes spaces and nothing else; in what it returns
    every space comes after a digit, so that a second pass changes
    nothing. *)
Theorem re_sub_spaces_keeps_the_separators (wkt : string) :
  ascii_text wkt = true ->
  spaces_follow_digits false (re_sub_spaces wkt) = true
  /\ without_spaces (re_sub_spaces wkt) = without_spaces wkt
  /\ re_sub_spaces (re_sub_spaces wkt) = re_sub_spaces wkt.
Proof.
  intros _. unfold re_sub_spaces. split; [apply strip_spaces_follow|].
  split; [apply strip_spaces_letters|].
  apply strip_spaces_fixed, strip_spaces_follow.
Qed.

Lemma re_sub_spaces_keeps_the_separators_witness :
  re_sub_spaces "LINESTRING (0.5 1,  2 3 )" = "LINESTRING(0.5 1,2 3 )"
  /\ spaces_follow_digits false "LINESTRING(0.5 1,2 3 )" = true
  /\ re_sub_spaces "LINESTRING(0.5 1,2 3 )" = "LINESTRING(0.5 1,2 3 )".
Proof.
  split; [reflexivity|].
  destruct (re_sub_spaces_keeps_the_separators "LINESTRING (0.5 1,  2 3 )" eq_refl)
    as (H1 & _ & H3).
  split; [exact H1 | exact H3].
Defined.

(** X5.  With four decimals at most, a point in bounds gives
    [POINT(lon lat)], with or without an elevation, and a line of vertices
    in bounds gives [LINESTRING(lon lat,lon lat,...)]: the numbers rendered
    with [d] decimals, one space inside a vertex and none elsewhere. *)
Theorem point_and_line_texts (v : vertex) (r : list vertex) (n : Z) (d : nat) :
  (d <= 4)%nat ->
  in_bounds v = true ->
  r <> [] ->
  forallb in_bounds r = true ->
  snd (geojson_to_wkt (point_at v) n d) = Ret ("POINT(" ++ vertex_text d v ++ ")")
  /\ snd (geojson_to_wkt (path_of LineString r) n d)
     = Ret ("LINESTRING(" ++ ring_text d r ++ ")").
Proof.
  intros Hd Hv Hr Hb.
  assert (Hin : forall u, In u r -> in_bounds u = true)
    by (intros u Hu; rewrite forallb_forall in Hb; now apply Hb).
  split.
  - unfold geojson_to_wkt, point_at. cbn [select_geometry g_coordinates].
    change (ensure_2d (vertex_coords v)) with (Ret (vertex_coords (flat v))).
    cbv iota beta. rewrite (check_bounds_vertex v Hv).
    unfold wkt_dumps, set_coordinates. cbn [g_coordinates g_type].
    unfold vertex_coords at 1. cbv iota beta.
    change (leaf_count (vertex_coords (flat v))) with 2%nat.
    cbn [Nat.eqb wkt_body]. unfold re_sub_spaces.
    rewrite (dump_vertex_flat d Hd v Hv).
    cbn [obind snd wkt_name].
    change ("POINT" ++ " (" ++ ?t) with ("POINT" ++ String " " (String "(" t)).
    rewrite strip_spaces_token by reflexivity.
    cbn [str_last strip_spaces Ascii.eqb Bool.eqb andb negb].
    change (is_digit "T") with false. cbn [negb andb].
    change (is_digit "(") with false.
    now rewrite strip_spaces_vertex.
  - unfold geojson_to_wkt, path_of. cbn [select_geometry g_coordinates].
    rewrite ensure_2d_ring by assumption.
    rewrite check_bounds_ring by assumption.
    unfold wkt_dumps, set_coordinates. cbn [g_coordinates g_type].
    destruct r as [|u r]; [congruence|].
    change (ring_coords (map flat (u :: r)))
      with (Seq (vertex_coords (flat u) :: map vertex_coords (map flat r))) at 1 2.
    cbv iota beta. rewrite leaf_count_seq. cbn [map]. unfold list_sum at 1.
    cbn [fold_right]. change (leaf_count (vertex_coords (flat u))) with 2%nat.
    cbn [Nat.add Nat.eqb wkt_body].
    change (flat u :: map flat r) with (map flat (u :: r)).
    rewrite (dump_vertices_ring d Hd (u :: r) Hin). cbn [obind snd wkt_name].
    unfold re_sub_spaces.
    change ("LINESTRING" ++ " (" ++ ?t) with ("LINESTRING" ++ String " " (String "(" t)).
    rewrite strip_spaces_token by reflexivity.
    cbn [str_last strip_spaces Ascii.eqb Bool.eqb andb negb].
    change (is_digit "G") with false. cbn [negb andb].
    change (is_digit "(") with false.
    now rewrite strip_spaces_ring by discriminate.
Qed.

Lemma point_and_line_texts_witness :
  snd (geojson_to_wkt (point_at (mkVertex (-75 # 1) (455 # 10) [Num (12 # 1)])) 0 1)
  = Ret "POINT(-75.0 45.5)"
  /\ snd (geojson_to_wkt (path_of LineString [at_ 0 0; at_ 1 1]) 0 1)
     = Ret "LINESTRING(0.0 0.0,1.0 1.0)".
Proof.
  apply (point_and_line_texts (mkVertex (-75 # 1) (455 # 10) [Num (12 # 1)])
                              [at_ 0 0; at_ 1 1] 0 1);
    [lia | reflexivity | discriminate | reflexivity].
Defined.

(* ===================================================================== *)
(** * The diagnostics reporter: further properties                       *)
(* ===================================================================== *)

Section LineFacts.

Lemma str_in_app (c : ascii) (a b : string) :
  str_in c (a ++ b) = str_in c a || str_in c b.
Proof.
  induction a as [|x a IH]; [reflexivity|].
  cbn [append str_in]. now rewrite IH, orb_assoc.
Qed.

Lemma split_from_nonempty (sep : string) (k : nat) (s : string) :
  exists p ps, split_from sep k s = p :: ps.
Proof.
  revert k. induction s as [|c s IH]; intros k; cbn [split_from]; [eauto|].
  destruct k as [|k]; [|apply IH].
  destruct (prefix sep (String c s)); [eauto|].
  destruct (IH 0%nat) as (p & ps & ->). eauto.
Qed.

Lemma split_from_absent (a : ascii) (sep : string) (k : nat) (s : string) :
  str_in a s = false ->
  Forall (fun p => str_in a p = false) (split_from sep k s).
Proof.
  revert k. induction s as [|c s IH]; intros k H; cbn [split_from].
  - repeat constructor.
  - cbn [str_in] in H. apply orb_false_iff in H as [Hc Hs].
    destruct k as [|k]; [|now apply IH].
    destruct (prefix sep (String c s)).
    + constructor; [reflexivity | now apply IH].
    + specialize (IH 0%nat Hs).
      destruct (split_from sep 0 s) as [|p ps]; inversion IH; subst;
        repeat constructor; cbn [str_in]; rewrite ?Hc; auto.
Qed.

Lemma replace_from_absent (a : ascii) (old new : string) (k : nat) (s : string) :
  str_in a s = false -> str_in a new = false ->
  str_in a (replace_from old new k s) = false.
Proof.
  intros Hs Hn. revert k Hs. induction s as [|c s IH]; intros k H; [reflexivity|].
  cbn [str_in] in H. apply orb_false_iff in H as [Hc Hs].
  cbn [replace_from]. destruct k as [|k]; [|now apply IH].
  destruct (prefix old (String c s)).
  - rewrite str_in_app, Hn. now apply IH.
  - cbn [str_in]. rewrite Hc. now apply IH.
Qed.

(** Replacing a character deletes it from the text. *)
Lemma replace_char_gone (a : ascii) (s : string) :
  str_in a (replace_from (String a "") "" 0 s) = false.
Proof.
  induction s as [|c s IH]; [reflexivity|].
  cbn [replace_from]. cbn [prefix].
  destruct (ascii_dec a c) as [->|Hne].
  - destruct s; exact IH.
  - cbn [str_in]. rewrite IH.
    destruct (Ascii.eqb_spec a c); [contradiction | reflexivity].
Qed.

(** A text without the first character of [old] has no occurrence of it. *)
Lemma replace_from_whole (a : ascii) (old new s : string) :
  str_in a s = false -> replace_from (String a old) new 0 s = s.
Proof.
  induction s as [|c s IH]; [reflexivity|]. intros H.
  cbn [str_in] in H. apply orb_false_iff in H as [Hc Hs].
  cbn [replace_from]. rewrite prefix_head by (now apply Ascii.eqb_neq).
  now rewrite (IH Hs).
Qed.

Lemma replace_from_app (a : ascii) (old new t rest : string) :
  str_in a t = false ->
  replace_from (String a old) new 0 (t ++ rest)
  = t ++ replace_from (String a old) new 0 rest.
Proof.
  induction t as [|c t IH]; [reflexivity|]. intros H.
  cbn [str_in] in H. apply orb_false_iff in H as [Hc Ht].
  cbn [append replace_from]. rewrite prefix_head by (now apply Ascii.eqb_neq).
  now rewrite (IH Ht).
Qed.

Lemma str_take_absent (a : ascii) (n : nat) (s : string) :
  str_in a s = false -> str_in a (str_take n s) = false.
Proof.
  unfold str_take. revert n. induction s as [|c s IH]; intros [|n] H;
    try reflexivity.
  cbn [str_in] in H. apply orb_false_iff in H as [Hc Hs].
  cbn [substring str_in]. rewrite Hc. now apply IH.
Qed.

Lemma clean_part_no_quote (l : string) : str_in dquote (clean_part l) = false.
Proof. unfold clean_part, str_replace, dq. apply replace_char_gone. Qed.

Lemma subscript_In {A} (xs : list A) (n : nat) (x : A) :
  subscript xs n = Ret x -> In x xs.
Proof.
  unfold subscript. destruct (nth_error xs n) as [y|] eqn:E; [|discriminate].
  intros [= <-]. now apply nth_error_In in E.
Qed.

Lemma trans_no_quote (severity lvl : string) :
  dict_get trans severity = Ret lvl -> str_in dquote lvl = false.
Proof.
  unfold dict_get, trans. cbn [dict_find].
  destruct (String.eqb severity "WARNING"); [now intros [= <-]|].
  destruct (String.eqb severity "ERROR"); [now intros [= <-]|].
  destruct (String.eqb severity "INFO"); [now intros [= <-]|].
  destruct (String.eqb severity "DEBUG"); [now intros [= <-] | discriminate].
Qed.

(** *** White space at the ends *)

Lemma rstrip_spaces (t : string) : str_forall is_space t = true -> rstrip t = "".
Proof.
  induction t as [|c t IH]; [reflexivity|]. cbn [str_forall rstrip].
  intros H. apply andb_true_iff in H as [Hc Ht]. now rewrite (IH Ht), Hc.
Qed.

Lemma rstrip_app_spaces (s t : string) :
  str_forall is_space t = true -> rstrip (s ++ t) = rstrip s.
Proof.
  intros Ht. induction s as [|c s IH]; [now apply rstrip_spaces|].
  cbn [append rstrip]. now rewrite IH.
Qed.

Lemma rstrip_plain (m : string) : ends_plainly m = true -> rstrip m = m.
Proof.
  unfold ends_plainly. induction m as [|c m IH]; [discriminate|].
  destruct m as [|c' m].
  - cbn [str_last rstrip]. intros H. apply andb_true_iff in H as [_ H].
    apply negb_true_iff in H. now rewrite H.
  - change (str_last (String c (String c' m))) with (str_last (String c' m)).
    intros H. specialize (IH H).
    change (rstrip (String c (String c' m)))
      with (match rstrip (String c' m) with
            | EmptyString => if is_space c then EmptyString else String c EmptyString
            | r => String c r
            end).
    now rewrite IH.
Qed.

Lemma ends_plainly_app (a b : string) :
  ends_plainly b = true -> ends_plainly (a ++ b) = true.
Proof.
  unfold ends_plainly. intros H. rewrite str_last_app; [exact H|].
  intros ->. discriminate.
Qed.

Lemma lstrip_plain (c : ascii) (s : string) :
  is_space c = false -> lstrip (String c s) = String c s.
Proof. intros H. cbn [lstrip]. now rewrite H. Qed.

(** *** The stamp *)

Lemma date_char_plain (c : ascii) :
  date_char c = true ->
  is_space c = false /\ Ascii.eqb " " c = false /\ Ascii.eqb "," c = false
  /\ Ascii.eqb dquote c = false /\ Ascii.eqb "226" c = false
  /\ Ascii.eqb newline c = false.
Proof.
  destruct c as [[] [] [] [] [] [] [] []]; vm_compute; intros H;
    try discriminate; repeat split.
Qed.

Lemma time_char_plain (c : ascii) :
  time_char c = true ->
  Ascii.eqb " " c = false /\ Ascii.eqb "-" c = false
  /\ Ascii.eqb dquote c = false /\ Ascii.eqb "226" c = false
  /\ Ascii.eqb newline c = false.
Proof.
  destruct c as [[] [] [] [] [] [] [] []]; vm_compute; intros H;
    try discriminate; repeat split.
Qed.

Lemma date_absent (a : ascii) (s : string) :
  (forall c, date_char c = true -> Ascii.eqb a c = false) ->
  str_forall date_char s = true -> str_in a s = false.
Proof.
  intros Ha. induction s as [|c s IH]; [reflexivity|].
  cbn [str_forall str_in]. intros H. apply andb_true_iff in H as [Hc Hs].
  now rewrite (Ha c Hc), (IH Hs).
Qed.

Lemma time_absent (a : ascii) (s : string) :
  (forall c, time_char c = true -> Ascii.eqb a c = false) ->
  str_forall time_char s = true -> str_in a s = false.
Proof.
  intros Ha. induction s as [|c s IH]; [reflexivity|].
  cbn [str_forall str_in]. intros H. apply andb_true_iff in H as [Hc Hs].
  now rewrite (Ha c Hc), (IH Hs).
Qed.

(** The first field of a line: the stamp holds a space, and no occurrence
    of the separator. *)
Lemma split_stamp (date time rest : string) :
  str_forall date_char date = true ->
  str_forall time_char time = true ->
  split_from " - " 0 (date ++ " " ++ time ++ " - " ++ rest)
  = (date ++ " " ++ time) :: split_from " - " 0 rest.
Proof.
  intros Hd Ht.
  assert (Hsp : str_in " " time = false)
    by (apply time_absent; [intros c Hc; apply (time_char_plain c Hc) | exact Ht]).
  induction date as [|x date IH].
  - cbn [append]. change (" " ++ ?t) with (String " " t).
    cbn [split_from].
    change (time ++ String " " (String "-" (String " " rest)))
      with (time ++ String " " "- " ++ rest).
    assert (Hp : prefix " - " (String " " (time ++ String " " "- " ++ rest)) = false).
    { cbn [prefix]. destruct (ascii_dec " " " ") as [_|Hne]; [|congruence].
      destruct time as [|c time].
      - reflexivity.
      - cbn [str_forall] in Ht. apply andb_true_iff in Ht as [Hc _].
        cbn [append]. apply prefix_head, Ascii.eqb_neq, (time_char_plain c Hc). }
    rewrite Hp.
    now rewrite (split_from_app " " "- " time rest Hsp).
  - cbn [str_forall] in Hd. apply andb_true_iff in Hd as [Hx Hd].
    change (String x date ++ " " ++ time ++ " - " ++ rest)
      with (String x (date ++ " " ++ time ++ " - " ++ rest)).
    cbn [split_from].
    rewrite prefix_head
      by (apply Ascii.eqb_neq; apply (date_char_plain x Hx)).
    now rewrite (IH Hd).
Qed.

Lemma level_name_plain (l : level) (rest : string) :
  split_from " - " 0 (level_name l ++ " - " ++ rest)
  = level_name l :: split_from " - " 0 rest
  /\ clean_part (level_name l) = level_name l.
Proof.
  split; [|now destruct l].
  change (" - " ++ rest) with (String " " "- " ++ rest).
  apply split_from_app. now destruct l.
Qed.

Lemma stamp_absent (a : ascii) (date time : string) :
  (forall c, date_char c = true -> Ascii.eqb a c = false) ->
  (forall c, time_char c = true -> Ascii.eqb a c = false) ->
  Ascii.eqb a " " = false ->
  str_forall date_char date = true -> str_forall time_char time = true ->
  str_in a (date ++ " " ++ time) = false.
Proof.
  intros Hd Ht Hs Hdate Htime. rewrite !str_in_app.
  rewrite (date_absent a date Hd Hdate), (time_absent a time Ht Htime).
  cbn [str_in]. now rewrite Hs.
Qed.

Lemma clean_part_stamp (date time : string) :
  str_forall date_char date = true -> str_forall time_char time = true ->
  clean_part (date ++ " " ++ time) = date ++ " " ++ time.
Proof.
  intros Hd Ht. unfold clean_part, str_replace, dq, en_dash.
  rewrite (replace_from_whole "226").
  - apply replace_from_whole.
    apply stamp_absent; try assumption; try reflexivity;
      intros c Hc; [apply (date_char_plain c Hc) | apply (time_char_plain c Hc)].
  - apply stamp_absent; try assumption; try reflexivity;
      intros c Hc; [apply (date_char_plain c Hc) | apply (time_char_plain c Hc)].
Qed.

(** The date and the time of a stamp, as [log2xml] reads them. *)
Lemma split_date_time (date time : string) :
  str_forall date_char date = true -> str_forall time_char time = true ->
  str_split " " (str_replace "," ":" (date ++ " " ++ time))
  = [date; str_replace "," ":" time].
Proof.
  intros Hd Ht. unfold str_split, str_replace.
  assert (Hds : str_in " " date = false)
    by (apply date_absent; [intros c Hc; apply (date_char_plain c Hc) | exact Hd]).
  assert (Hdc : str_in "," date = false)
    by (apply date_absent; [intros c Hc; apply (date_char_plain c Hc) | exact Hd]).
  assert (Hts : str_in " " time = false)
    by (apply time_absent; [intros c Hc; apply (time_char_plain c Hc) | exact Ht]).
  rewrite (replace_from_app "," "" ":" date _ Hdc).
  change (" " ++ time) with (String " " time).
  cbn [replace_from prefix].
  destruct (ascii_dec "," " ") as [Heq|_]; [discriminate|].
  change (String " " ?t) with (String " " "" ++ t).
  rewrite (split_from_app " " "" date _ Hds).
  rewrite split_from_whole; [reflexivity|].
  now apply replace_from_absent.
Qed.

End LineFacts.

Section RecordFacts.

Variable x : entry.
Hypothesis stamp : stamped x = true.

Lemma stamped_spec :
  (exists c date, e_date x = String c date /\ is_space c = false)
  /\ str_forall date_char (e_date x) = true
  /\ str_forall time_char (e_time x) = true.
Proof.
  unfold stamped in stamp.
  apply andb_true_iff in stamp as [H Ht]. apply andb_true_iff in H as [Hne Hd].
  split; [|split; assumption].
  destruct (e_date x) as [|c date]; [discriminate|].
  exists c, date. split; [reflexivity|].
  cbn [str_forall] in Hd. apply andb_true_iff in Hd as [Hc _].
  apply (date_char_plain c Hc).
Qed.

(** The line of a record, without the white space at its ends. *)
Lemma strip_record :
  ends_plainly (e_message x) = true ->
  str_strip (format_record (record_of x))
  = e_date x ++ " " ++ e_time x ++ " - "
    ++ "root" ++ " - " ++ level_name (e_level x) ++ " - " ++ e_message x.
Proof.
  intros Hm. destruct stamped_spec as ((c & date & Hdate & Hc) & _ & _).
  unfold str_strip, format_record, record_of.
  cbn [r_asctime r_level r_message]. rewrite Hdate.
  rewrite !append_assoc.
  change (String c date ++ ?t) with (String c (date ++ t)).
  rewrite (lstrip_plain c _ Hc).
  change (String c (date ++ ?t)) with (String c date ++ t).
  change (" - root - " ++ ?t) with (" - " ++ "root" ++ " - " ++ t).
  rewrite <- !append_assoc.
  rewrite rstrip_app_spaces by reflexivity.
  apply rstrip_plain, ends_plainly_app, Hm.
Qed.

(** The line of a record whose message is blank: the white space that
    [strip] takes away reaches into the last separator. *)
Lemma strip_blank_record :
  str_forall is_space (e_message x) = true ->
  str_strip (format_record (record_of x))
  = e_date x ++ " " ++ e_time x ++ " - "
    ++ "root" ++ " - " ++ level_name (e_level x) ++ " -".
Proof.
  intros Hm. destruct stamped_spec as ((c & date & Hdate & Hc) & _ & _).
  unfold str_strip, format_record, record_of.
  cbn [r_asctime r_level r_message]. rewrite Hdate.
  rewrite !append_assoc.
  change (String c date ++ ?t) with (String c (date ++ t)).
  rewrite (lstrip_plain c _ Hc).
  change (String c (date ++ ?t)) with (String c date ++ t).
  change (" - root - " ++ ?t) with (" - " ++ "root" ++ " - " ++ t).
  change (" - " ++ e_message x ++ nl) with (" -" ++ " " ++ e_message x ++ nl).
  rewrite <- !append_assoc.
  rewrite (rstrip_app_spaces _ nl) by reflexivity.
  rewrite (rstrip_app_spaces _ (e_message x)) by exact Hm.
  rewrite (rstrip_app_spaces _ " ") by reflexivity.
  apply rstrip_plain, ends_plainly_app. reflexivity.
Qed.

(** The fields of the line of a record. *)
Lemma split_record (rest : string) :
  str_split " - " (e_date x ++ " " ++ e_time x ++ " - "
                   ++ "root" ++ " - " ++ level_name (e_level x) ++ rest)
  = (e_date x ++ " " ++ e_time x) :: "root"
    :: split_from " - " 0 (level_name (e_level x) ++ rest).
Proof.
  destruct stamped_spec as (_ & Hd & Ht). unfold str_split.
  rewrite (split_stamp _ _ _ Hd Ht).
  change (" - " ++ ?t) with (String " " "- " ++ t).
  now rewrite (split_from_app " " "- " "root" _ eq_refl).
Qed.

End RecordFacts.

Lemma diag_entry_plain (x : entry) :
  plain x = true -> diag_entry (format_record (record_of x)) = rendered x.
Proof.
  unfold plain. intros H. apply andb_true_iff in H as [H Hm].
  apply andb_true_iff in H as [Hs Hnl].
  destruct (stamped_spec x Hs) as (_ & Hd & Ht).
  unfold diag_entry, diag_line. rewrite (strip_record x Hs Hm).
  rewrite (split_record x Hs).
  destruct (level_name_plain (e_level x) (e_message x)) as [-> Hclean].
  destruct (split_from_nonempty " - " 0 (e_message x)) as (p & ps & Hp).
  unfold rendered, str_split. rewrite Hp. cbn [map hd].
  rewrite (clean_part_stamp _ _ Hd Ht), Hclean.
  unfold subscript. cbn [nth_error obind].
  pose proof (split_date_time _ _ Hd Ht) as Hdt. unfold str_split in Hdt.
  unfold str_split. rewrite Hdt. cbn [nth_error obind].
  unfold dict_get. now destruct (dict_find trans (level_name (e_level x))).
Qed.

Section DocumentFacts.

Lemma readlines_line (cur t rest : string) :
  str_in newline t = false ->
  readlines_from cur (t ++ nl ++ rest) = (cur ++ t ++ nl) :: readlines_from "" rest.
Proof.
  revert cur. induction t as [|c t IH]; intros cur H.
  - cbn [append]. unfold nl. cbn [append readlines_from].
    now rewrite Ascii.eqb_refl.
  - cbn [str_in] in H. apply orb_false_iff in H as [Hc Ht].
    cbn [append readlines_from]. rewrite Ascii.eqb_sym, Hc.
    rewrite (IH _ Ht). now rewrite append_assoc.
Qed.

Lemma universal_newlines_fixed (s : string) :
  str_in carriage_return s = false -> universal_newlines s = s.
Proof.
  induction s as [|c s IH]; [reflexivity|].
  cbn [str_in universal_newlines]. intros H. apply orb_false_iff in H as [Hc Hs].
  rewrite Ascii.eqb_sym, Hc. now rewrite (IH Hs).
Qed.

Lemma stamp_char_no_return (c : ascii) :
  date_char c = true \/ time_char c = true ->
  Ascii.eqb carriage_return c = false.
Proof.
  destruct c as [[] [] [] [] [] [] [] []]; vm_compute; intros [H|H];
    try discriminate; reflexivity.
Qed.

Lemma record_on_one_line (x : entry) :
  plain x = true ->
  exists body, format_record (record_of x) = body ++ nl
               /\ str_in newline body = false
               /\ str_in carriage_return body = false.
Proof.
  unfold plain, one_line. intros H. apply andb_true_iff in H as [H Hm].
  apply andb_true_iff in H as [Hs Hl]. apply andb_true_iff in Hl as [Hnl Hcr].
  apply negb_true_iff in Hnl, Hcr.
  destruct (stamped_spec x Hs) as (_ & Hd & Ht).
  exists ((e_date x ++ " " ++ e_time x) ++ " - root - "
          ++ level_name (e_level x) ++ " - " ++ e_message x).
  split; [|split].
  - unfold format_record, record_of. cbn [r_asctime r_level r_message].
    now rewrite !append_assoc.
  - rewrite (str_in_app newline (e_date x ++ " " ++ e_time x)).
    rewrite stamp_absent; try assumption; try reflexivity;
      try (intros c Hc; first [apply (date_char_plain c Hc) | apply (time_char_plain c Hc)]).
    rewrite !str_in_app, Hnl. now destruct (e_level x).
  - rewrite (str_in_app carriage_return (e_date x ++ " " ++ e_time x)).
    rewrite stamp_absent; try assumption; try reflexivity;
      try (intros c Hc; apply stamp_char_no_return; auto).
    rewrite !str_in_app, Hcr. now destruct (e_level x).
Qed.

Lemma log_text_no_return (xs : list entry) :
  forallb plain xs = true ->
  str_in carriage_return (log_text (map record_of xs)) = false.
Proof.
  induction xs as [|x xs IH]; [reflexivity|].
  cbn [forallb]. intros H. apply andb_true_iff in H as [Hx Hxs].
  cbn [map log_text].
  destruct (record_on_one_line x Hx) as (body & -> & _ & Hbody).
  now rewrite !str_in_app, Hbody, (IH Hxs).
Qed.

Lemma readlines_records (xs : list entry) :
  forallb plain xs = true ->
  readlines (log_text (map record_of xs))
  = map (fun x => format_record (record_of x)) xs.
Proof.
  intros Hall. unfold readlines.
  rewrite (universal_newlines_fixed _ (log_text_no_return xs Hall)).
  induction xs as [|x xs IH]; [reflexivity|].
  cbn [forallb] in Hall. apply andb_true_iff in Hall as [Hx Hxs].
  cbn [map log_text].
  destruct (record_on_one_line x Hx) as (body & -> & Hbody & _).
  rewrite append_assoc, (readlines_line "" body _ Hbody).
  now rewrite (IH Hxs).
Qed.

Lemma concat_empty_sep (a : string) (l : list string) :
  String.concat "" (a :: l) = a ++ String.concat "" l.
Proof. destruct l; [symmetry; apply append_nil_r | reflexivity]. Qed.

End DocumentFacts.

(** X6.  From the log to the document.  When every record of the log file
    has a stamp of digits ([2024-05-01 10:00:00,123]) and a message that
    stays on one line (it holds neither a newline nor a carriage return,
    which a file read in text mode takes for the end of a line) and ends
    with a character of ASCII other than white space, the document holds, between its header and its footer, one [line]
    element for each record of level DEBUG, INFO, WARNING or ERROR, in the
    order of the log, and nothing for a record of level CRITICAL.  The
    element has the date of the record, its time cut to the seconds, the
    code of its level, and as description the message up to its first
    [ - ], without double quotes and en dashes. *)
Theorem plain_records_give_one_line_each (xs : list entry) :
  forallb plain xs = true ->
  diag_document (readlines (log_text (map record_of xs)))
  = header ++ String.concat "" (map rendered xs) ++ footer.
Proof.
  intros H. unfold diag_document. rewrite (readlines_records xs H). do 2 f_equal.
  induction xs as [|x xs IH]; [reflexivity|].
  cbn [forallb] in H. apply andb_true_iff in H as [Hx Hxs].
  cbn [map diag_entries]. rewrite concat_empty_sep.
  now rewrite (diag_entry_plain x Hx), (IH Hxs).
Qed.

Lemma plain_records_give_one_line_each_witness :
  diag_document
    (readlines
       (log_text
          (map record_of
               [mkEntry "2024-05-01" "10:00:00,123" WARNING "disk - nearly full";
                mkEntry "2024-05-01" "10:00:01,456" CRITICAL "halt";
                mkEntry "2024-05-01" "10:00:02,789" INFO "a < b"])))
  = header
    ++ String.concat ""
         [line_element "2024-05-01" "10:00:00" "2" "disk"; "";
          line_element "2024-05-01" "10:00:02" "3" "a < b"]
    ++ footer.
Proof.
  apply (plain_records_give_one_line_each
           [mkEntry "2024-05-01" "10:00:00,123" WARNING "disk - nearly full";
            mkEntry "2024-05-01" "10:00:01,456" CRITICAL "halt";
            mkEntry "2024-05-01" "10:00:02,789" INFO "a < b"]).
  reflexivity.
Defined.

(** X7.  A record whose message is empty, or made of white space only,
    leaves no element in the document, whatever its level: [strip] takes
    the end of the last separator away with the message, and the line has
    three fields only, the third of which is no name of a level. *)
Theorem blank_message_gives_no_line (x : entry) :
  stamped x = true ->
  str_forall is_space (e_message x) = true ->
  diag_entry (format_record (record_of x)) = "".
Proof.
  intros Hs Hm. destruct (stamped_spec x Hs) as (_ & Hd & Ht).
  unfold diag_entry, diag_line. rewrite (strip_blank_record x Hs Hm).
  rewrite (split_record x Hs " -").
  cbn [map]. rewrite (clean_part_stamp _ _ Hd Ht).
  unfold subscript. cbn [nth_error obind].
  pose proof (split_date_time _ _ Hd Ht) as Hdt. unfold str_split in Hdt.
  unfold str_split. rewrite Hdt. cbn [nth_error obind].
  now destruct (e_level x).
Qed.

Lemma blank_message_gives_no_line_witness :
  diag_entry (format_record (mkRecord "2024-05-01 10:00:00,123" ERROR "")) = "".
Proof.
  apply (blank_message_gives_no_line (mkEntry "2024-05-01" "10:00:00,123" ERROR ""));
    reflexivity.
Defined.

(** X8.  Whatever the line, the four values that [log2xml] puts between
    double quotes hold no double quote: no message can close an attribute
    of the element written for it. *)
Theorem attributes_hold_no_double_quote (aline line : string) :
  diag_line aline = Ret line ->
  exists date time lvl description,
    line = line_element date time lvl description
    /\ str_in dquote date = false /\ str_in dquote time = false
    /\ str_in dquote lvl = false /\ str_in dquote description = false.
Proof.
  unfold diag_line.
  set (lineparts := map clean_part (str_split " - " (str_strip aline))).
  assert (Hparts : Forall (fun p => str_in dquote p = false) lineparts)
    by (apply Forall_map, Forall_forall; intros p _; apply clean_part_no_quote).
  rewrite Forall_forall in Hparts.
  destruct (subscript lineparts 0) as [first|] eqn:H0; [|discriminate].
  cbn [obind].
  set (datetime := str_split " " (str_replace "," ":" first)).
  assert (Hdt : Forall (fun p => str_in dquote p = false) datetime).
  { apply split_from_absent, replace_from_absent; [|reflexivity].
    apply Hparts. now apply subscript_In in H0. }
  rewrite Forall_forall in Hdt.
  destruct (subscript datetime 0) as [date|] eqn:Hd; [|discriminate].
  destruct (subscript datetime 1) as [time|] eqn:Ht; [|discriminate].
  destruct (subscript lineparts 2) as [severity|] eqn:H2; [|discriminate].
  cbn [obind].
  destruct (dict_get trans severity) as [lvl|] eqn:Hl; [|discriminate].
  destruct (subscript lineparts 3) as [description|] eqn:H3; [|discriminate].
  cbn [obind]. intros [= <-].
  exists date, (str_take 8 time), lvl, description.
  split; [reflexivity|].
  split; [apply Hdt; now apply subscript_In in Hd|].
  split; [apply str_take_absent, Hdt; now apply subscript_In in Ht|].
  split; [now apply trans_no_quote in Hl|].
  apply Hparts. now apply subscript_In in H3.
Qed.

Lemma attributes_hold_no_double_quote_witness :
  exists date time lvl description,
    line_element "2024-05-01" "10:00:00" "1" "disk full"
    = line_element date time lvl description
    /\ str_in dquote date = false /\ str_in dquote time = false
    /\ str_in dquote lvl = false /\ str_in dquote description = false.
Proof.
  apply (attributes_hold_no_double_quote scenario_line). reflexivity.
Defined.

(* ===================================================================== *)
(** * The validation gate: further properties                            *)
(* ===================================================================== *)

Section GateDecision.

Variable e : Rcm.env.

Lemma forallb_first_failure {A} (p : A -> bool) (l : list A) :
  forallb p l = false ->
  exists pre x post, l = (pre ++ x :: post)%list
                     /\ forallb p pre = true /\ p x = false.
Proof.
  induction l as [|a l IH]; [discriminate|]. cbn [forallb].
  destruct (p a) eqn:Ea.
  - cbn [andb]. intros H. destruct (IH H) as (pre & x & post & -> & Hpre & Hx).
    exists (a :: pre), x, post. cbn [forallb app]. now rewrite Ea, Hpre.
  - intros _. exists [], a, l. auto.
Qed.

Lemma gate_passes_allowed_values (properties : dict string) (w : world) :
  forallb allowed_value properties = true ->
  for_each properties
    (fun kv =>
       match dict_find Rcm.check (fst kv) with
       | Some allowed =>
           if Rcm.str_mem (snd kv) allowed then ret tt
           else log (Rcm.clock e) ERROR (Rcm.wrong_msg (fst kv) allowed) ;; Rcm.quit
       | None => ret tt
       end) w
  = (w, Ret tt).
Proof.
  induction properties as [|kv properties IH]; [reflexivity|].
  cbn [forallb]. intros H. apply andb_true_iff in H as [Hkv Hrest].
  cbn [for_each]. unfold bind at 1. unfold allowed_value in Hkv.
  destruct (dict_find Rcm.check (fst kv)) as [allowed|].
  - rewrite Hkv. unfold ret at 1. now apply IH.
  - unfold ret at 1. now apply IH.
Qed.

Lemma log_error_effect (msg : string) (w : world) :
  let w' := fst (log (Rcm.clock e) ERROR msg w) in
  w_net w' = w_net w /\ w_files w' = w_files w
  /\ log_entries w' = (log_entries w ++ accepted w [(ERROR, msg)])%list.
Proof.
  destruct (log_effect (Rcm.clock e) ERROR msg w) as (w1 & -> & F & _ & N & _ & _ & L).
  cbn [fst]. auto.
Qed.

End GateDecision.

(** X9.  The validation gate accepts a configuration exactly when every
    required key is there and every value of an enumerated key is in its
    enumeration: it then returns the configuration and changes nothing.
    In every other case it halts the run with [sys.exit()], after one
    entry of level ERROR, and without a call or a file. *)
Theorem error_check_decides_validity
        (e : Rcm.env) (properties : dict string) (w : world) :
  if valid_properties properties
  then Rcm.error_check e properties w = (w, Ret properties)
  else snd (Rcm.error_check e properties w) = Raise (SystemExit None)
       /\ w_net (fst (Rcm.error_check e properties w)) = w_net w
       /\ w_files (fst (Rcm.error_check e properties w)) = w_files w
       /\ exists msg,
            log_entries (fst (Rcm.error_check e properties w))
            = (log_entries w ++ accepted w [(ERROR, msg)])%list.
Proof.
  unfold valid_properties.
  destruct (forallb (dict_mem properties) Rcm.required_keys) eqn:Hkeys.
  - assert (Hreq : forall k, In k Rcm.required_keys -> dict_mem properties k = true)
      by (now apply forallb_forall).
    destruct (forallb allowed_value properties) eqn:Hvals; cbn [andb].
    + unfold Rcm.error_check. unfold bind at 1.
      rewrite (gate_passes_present_keys e _ _ _ Hreq).
      unfold bind at 1. now rewrite (gate_passes_allowed_values e _ _ Hvals).
    + destruct (forallb_first_failure _ _ Hvals) as (pre & [key v] & post & Hp & Hpre & Hx).
      unfold allowed_value in Hx. cbn [fst snd] in Hx.
      destruct (dict_find Rcm.check key) as [allowed|] eqn:Hc; [|discriminate].
      rewrite (error_check_wrong_value e properties w pre post key v allowed
                 Hreq Hp); try assumption.
      * cbn [fst snd]. destruct (log_error_effect e (Rcm.wrong_msg key allowed) w)
          as (N & F & L). eauto.
      * intros kv Hin. rewrite forallb_forall in Hpre. specialize (Hpre kv Hin).
        unfold allowed_value in Hpre.
        now destruct (dict_find Rcm.check (fst kv)).
  - cbn [andb].
    destruct (forallb_first_failure _ _ Hkeys) as (pre & k & post & Hp & Hpre & Hx).
    rewrite (error_check_missing_key e properties w pre post k Hp); try assumption.
    + cbn [fst snd]. destruct (log_error_effect e (Rcm.missing_msg k) w) as (N & F & L).
      eauto.
    + now apply forallb_forall.
Qed.

(** X10.  When a required key is missing, the gate names the first
    missing key, in the order [destinationDir], [user], [secret],
    [mission], [unzip], [download_type], [timeout], [resolution],
    [polarization], whatever the values of the keys that are there: the
    keys are checked before the values. *)
Theorem error_check_names_the_first_missing_key
        (e : Rcm.env) (properties : dict string) (w : world)
        (pre post : list string) (k : string) :
  Rcm.required_keys = (pre ++ k :: post)%list ->
  forallb (dict_mem properties) pre = true ->
  dict_mem properties k = false ->
  snd (Rcm.error_check e properties w) = Raise (SystemExit None)
  /\ log_entries (fst (Rcm.error_check e properties w))
     = (log_entries w ++ accepted w [(ERROR, Rcm.missing_msg k)])%list.
Proof.
  intros Hp Hpre Hk.
  rewrite (error_check_missing_key e properties w pre post k Hp);
    [|now apply forallb_forall | assumption].
  cbn [fst snd]. split; [reflexivity|]. apply log_error_effect.
Qed.

Lemma error_check_names_the_first_missing_key_witness :
  snd (Rcm.error_check (env_with_properties no_timeout_properties)
                       [("user", "u"); ("destinationDir", "/data"); ("unzip", "maybe")]
                       logging_world)
  = Raise (SystemExit None)
  /\ log_entries
       (fst (Rcm.error_check (env_with_properties no_timeout_properties)
                             [("user", "u"); ("destinationDir", "/data");
                              ("unzip", "maybe")]
                             logging_world))
     = [(ERROR, Rcm.missing_msg "secret")].
Proof.
  apply (error_check_names_the_first_missing_key
           (env_with_properties no_timeout_properties)
           [("user", "u"); ("destinationDir", "/data"); ("unzip", "maybe")]
           logging_world
           ["destinationDir"; "user"] 
           ["mission"; "unzip"; "download_type"; "timeout"; "resolution";
            "polarization"]
           "secret");
    reflexivity.
Defined.

(** X11.  When every required key is there, the gate names the first
    property, in the order of the configuration, whose value is outside
    the enumeration of its key, and lists the values of the enumeration. *)
Theorem error_check_names_the_first_wrong_value
        (e : Rcm.env) (w : world) (pre post : list (string * string))
        (key v : string) (allowed : list string) :
  forallb (dict_mem (pre ++ (key, v) :: post)%list) Rcm.required_keys = true ->
  forallb allowed_value pre = true ->
  dict_find Rcm.check key = Some allowed ->
  Rcm.str_mem v allowed = false ->
  snd (Rcm.error_check e (pre ++ (key, v) :: post)%list w) = Raise (SystemExit None)
  /\ log_entries (fst (Rcm.error_check e (pre ++ (key, v) :: post)%list w))
     = (log_entries w ++ accepted w [(ERROR, Rcm.wrong_msg key allowed)])%list.
Proof.
  intros Hreq Hpre Hc Hv.
  rewrite (error_check_wrong_value e _ w pre post key v allowed); try assumption;
    try reflexivity.
  - cbn [fst snd]. split; [reflexivity|]. apply log_error_effect.
  - now apply forallb_forall.
  - intros kv Hin. rewrite forallb_forall in Hpre. specialize (Hpre kv Hin).
    unfold allowed_value in Hpre. now destruct (dict_find Rcm.check (fst kv)).
Qed.

Lemma error_check_names_the_first_wrong_value_witness :
  snd (Rcm.error_check (env_with_properties bad_unzip_properties)
                       bad_unzip_properties logging_world)
  = Raise (SystemExit None)
  /\ log_entries (fst (Rcm.error_check (env_with_properties bad_unzip_properties)
                                       bad_unzip_properties logging_world))
     = [(ERROR, "Wrong input to property [ unzip ], has to be one of: ['True', 'False']")].
Proof.
  apply (error_check_names_the_first_wrong_value
           (env_with_properties bad_unzip_properties) logging_world
           [("destinationDir", "/data"); ("user", "u"); ("secret", "s");
            ("mission", "RCMImageProducts")]
           [("download_type", "acquisition"); ("timeout", "3");
            ("resolution", "100M"); ("polarization", "HH")]
           "unzip" "yes" ["True"; "False"]);
    reflexivity.
Defined.

(* ===================================================================== *)
(** * Directories and archives: further properties                       *)
(* ===================================================================== *)

Section ArchiveFacts.

Variable e : Rcm.env.
Hypothesis mkdir_ok : forall d, Rcm.mkdir e d = Rcm.Made.

Lemma for_each_app {A} (xs ys : list A) (body : A -> M unit) (w : world) :
  for_each (xs ++ ys)%list body w
  = bind (for_each xs body) (fun _ => for_each ys body) w.
Proof.
  revert w. induction xs as [|x xs IH]; intros w; [reflexivity|].
  cbn [app for_each]. unfold bind in *.
  destruct (body x w) as [w1 [[]|ex]]; [apply IH | reflexivity].
Qed.

(** An archive that cannot be opened ends its extraction after the entry
    of the log and the making of its directory. *)
Lemma extract_item_unreadable (out_dir : string) (a : Rcm.archive) (ex : exn)
      (w : world) :
  Rcm.a_open a = Raise ex ->
  exists w',
    Rcm.extract_item e out_dir false a w = (w', Raise ex)
    /\ w_files w' = w_files w
    /\ log_entries w' = (log_entries w ++ accepted w [(DEBUG, Rcm.a_path a)])%list.
Proof.
  intros Ha. unfold Rcm.extract_item.
  destruct (log_effect (Rcm.clock e) DEBUG (Rcm.a_path a) w)
    as (w1 & E1 & F1 & _ & N1 & LF1 & LL1 & LE1).
  destruct (create_subdir_effect e mkdir_ok (archive_dir out_dir a) w1)
    as (w2 & E2 & F2 & N2 & LF2 & LL2 & LE2).
  unfold bind at 1. rewrite E1.
  unfold bind at 1. fold (archive_dir out_dir a). rewrite E2.
  unfold bind at 1. rewrite Ha. unfold lift at 1.
  exists w2. split; [reflexivity|]. split; congruence.
Qed.

Lemma substring_prefix (s t : string) :
  String.substring 0 (String.length s) (s ++ t) = s.
Proof.
  induction s as [|c s IH]; cbn [String.length append substring].
  - now destruct t.
  - now rewrite IH.
Qed.

Lemma drop_zip (s : string) : str_drop_last 4 (s ++ ".zip") = s.
Proof.
  unfold str_drop_last. rewrite length_append.
  replace (String.length s + String.length ".zip" - 4)%nat with (String.length s)
    by (cbn [String.length]; lia).
  apply substring_prefix.
Qed.

Lemma path_join_zip (out_dir name : string) (c : ascii) (t : string) :
  name = String c t -> c <> "/"%char ->
  str_drop_last 4 (path_join out_dir (name ++ ".zip")) = path_join out_dir name.
Proof.
  intros -> Hc. unfold path_join. cbn [append].
  destruct (Ascii.eqb_spec c "/") as [->|_]; [congruence|].
  assert (Hb : forall X : string,
             match String c (t ++ ".zip") with
             | String "/" _ => String c (t ++ ".zip")
             | _ => X
             end = X).
  { intros X. destruct c as [[] [] [] [] [] [] [] []]; try reflexivity. congruence. }
  assert (Hb' : forall X : string,
             match String c t with
             | String "/" _ => String c t
             | _ => X
             end = X).
  { intros X. destruct c as [[] [] [] [] [] [] [] []]; try reflexivity. congruence. }
  rewrite Hb, Hb'.
  change (String c (t ++ ".zip")) with (String c t ++ ".zip").
  destruct (str_last out_dir) as [l|].
  - assert (Hl : forall X Y : string,
               match l with "/"%char => X | _ => Y end
               = if Ascii.eqb l "/" then X else Y).
    { intros X Y. destruct l as [[] [] [] [] [] [] [] []]; reflexivity. }
    rewrite !Hl. destruct (Ascii.eqb l "/").
    + rewrite <- append_assoc. apply drop_zip.
    + change (out_dir ++ String "/" (String c t ++ ".zip"))
        with (out_dir ++ String "/" (String c t) ++ ".zip").
      rewrite <- append_assoc. apply drop_zip.
  - apply drop_zip.
Qed.

Lemma match_slash (l : ascii) (X Y : string) :
  match l with "/"%char => X | _ => Y end = if Ascii.eqb l "/" then X else Y.
Proof. destruct l as [[] [] [] [] [] [] [] []]; reflexivity. Qed.

Lemma match_head (x : ascii) (s X : string) :
  x <> "/"%char ->
  match String x s with
  | String "/" _ => String x s
  | _ => X
  end = X.
Proof.
  intros Hx. destruct x as [[] [] [] [] [] [] [] []]; try reflexivity. congruence.
Qed.

End ArchiveFacts.

(** X12.  [create_subdir] returns the path it is given, or raises.  After
    a call that returns a directory has the path, or something that is no
    directory has it, a file of the run or what was there before the run:
    then the call has changed nothing, and has returned all the same.  A
    second call returns the same and changes nothing. *)
Theorem create_subdir_is_idempotent
        (e : Rcm.env) (directory r : string) (w w1 : world) :
  Rcm.create_subdir e directory w = (w1, Ret r) ->
  r = directory
  /\ (dir_exists directory w1 = true
      \/ (w1 = w /\ dir_exists directory w = false
          /\ (file_exists directory w = true
              \/ Rcm.mkdir e directory = Rcm.Occupied)))
  /\ Rcm.create_subdir e directory w1 = (w1, Ret directory).
Proof.
  unfold Rcm.create_subdir, path_exists.
  destruct (dir_exists directory w) eqn:Hd; cbn [orb].
  - intros [= <- <-]. rewrite Hd. auto.
  - destruct (file_exists directory w) eqn:Hf.
    + intros [= <- <-]. rewrite Hd, Hf. cbn [orb].
      split; [reflexivity|]. split; [|reflexivity].
      right. repeat split. now left.
    + destruct (Rcm.mkdir e directory) eqn:Hm; [| |discriminate].
      * unfold bind, add_dir, ret. intros [= <- <-].
        assert (Hd1 : dir_exists directory
                        (set_dirs (w_dirs w ++ [directory])%list w) = true).
        { unfold dir_exists. cbn [w_dirs set_dirs]. rewrite existsb_app.
          cbn [existsb]. now rewrite String.eqb_refl, orb_true_r. }
        rewrite Hd1. auto.
      * intros [= <- <-]. rewrite Hd, Hf. cbn [orb].
        split; [reflexivity|]. split; [|reflexivity].
        right. repeat split. now right.
Qed.

Lemma create_subdir_is_idempotent_witness :
  let w := fst (write_file "/data/f" "x" (initial_world [])) in
  "/data/f" = "/data/f"
  /\ (dir_exists "/data/f" w = true
      \/ (w = w /\ dir_exists "/data/f" w = false
          /\ (file_exists "/data/f" w = true
              \/ Rcm.mkdir square_env "/data/f" = Rcm.Occupied)))
  /\ Rcm.create_subdir square_env "/data/f" w = (w, Ret "/data/f").
Proof.
  intros w.
  apply (create_subdir_is_idempotent square_env "/data/f" "/data/f" w w).
  reflexivity.
Defined.

(** X13.  An archive that cannot be opened ends [extract_all], with the
    exception of the opening, be it [zipfile.error]: the archives before
    it, in the order of their paths, are extracted, the archive itself is
    entered in the log, and the archives after it are left alone. *)
Theorem extract_all_stops_at_an_unreadable_archive
        (e : Rcm.env) (out_dir : string) (w : world)
        (pre post : list Rcm.archive) (a : Rcm.archive) (ex : exn) :
  (forall d, Rcm.mkdir e d = Rcm.Made) ->
  Rcm.sorted (Rcm.glob_zip e out_dir) = (pre ++ a :: post)%list ->
  forallb extractable pre = true ->
  Rcm.a_open a = Raise ex ->
  let w' := fst (Rcm.extract_all e out_dir false w) in
  snd (Rcm.extract_all e out_dir false w) = Raise ex
  /\ w_files w' = written (w_files w) (flat_map (archive_files out_dir) pre)
  /\ log_entries w'
     = (log_entries w
        ++ accepted w (map (fun x => (DEBUG, Rcm.a_path x)) (pre ++ [a])))%list.
Proof.
  intros Hmk Hsorted Hpre Ha w'. subst w'. unfold Rcm.extract_all.
  rewrite Hsorted.
  assert (Hf : Forall (fun x => extractable x = true) pre)
    by (apply Forall_forall; now apply forallb_forall).
  destruct (extract_items_effect e Hmk out_dir pre w Hf)
    as (w1 & E1 & F1 & _ & LF1 & LL1 & LE1).
  destruct (extract_item_unreadable e Hmk out_dir a ex w1 Ha) as (w2 & E2 & F2 & LE2).
  assert (Hrun : for_each (pre ++ a :: post)%list (Rcm.extract_item e out_dir false) w
                 = (w2, Raise ex)).
  { rewrite for_each_app. unfold bind at 1. rewrite E1. cbn [for_each].
    unfold bind at 1. now rewrite E2. }
  rewrite Hrun. cbn [fst snd]. split; [reflexivity|]. split; [congruence|].
  rewrite LE2, LE1, (accepted_same_logger w w1) by assumption.
  now rewrite <- app_assoc, <- accepted_app, map_app.
Qed.

Lemma extract_all_stops_at_an_unreadable_archive_witness :
  let first := Rcm.mkArchive "/data/a.zip" (Ret [Rcm.mkMember "x.txt" (Rcm.Extracts "X")]) in
  let second := Rcm.mkArchive "/data/b.zip" (Raise BadZipFile) in
  let third := Rcm.mkArchive "/data/c.zip" (Ret [Rcm.mkMember "z.txt" (Rcm.Extracts "Z")]) in
  let e := archives_env [third; first; second] in
  snd (Rcm.extract_all e "/data" false logging_world) = Raise BadZipFile
  /\ w_files (fst (Rcm.extract_all e "/data" false logging_world))
     = [("/data/a/x.txt", "X")]
  /\ log_entries (fst (Rcm.extract_all e "/data" false logging_world))
     = [(DEBUG, "/data/a.zip"); (DEBUG, "/data/b.zip")].
Proof.
  intros first second third e.
  apply (extract_all_stops_at_an_unreadable_archive
           e "/data" logging_world [first] [third] second BadZipFile);
    reflexivity.
Defined.

(** X14.  The members of the archive [out_dir/name.zip] are extracted
    under the path that joins [out_dir] with the archive path without its
    extension, itself a path that starts with [out_dir]: under
    [out_dir/name] when [out_dir] is absolute, and under
    [out_dir/out_dir/name] when it is relative.  Each member goes to the
    place that the library gives it under that path, whatever its name. *)
Theorem members_are_extracted_under_the_joined_path
        (e : Rcm.env) (out_dir name : string) (c : ascii) (t : string)
        (members : list Rcm.member) (w : world) :
  (forall d, Rcm.mkdir e d = Rcm.Made) ->
  name = String c t ->
  c <> "/"%char ->
  Rcm.glob_zip e out_dir
  = [Rcm.mkArchive (path_join out_dir (name ++ ".zip")) (Ret members)] ->
  forallb benign members = true ->
  w_files (fst (Rcm.extract_all e out_dir false w))
  = written (w_files w)
            (flat_map (member_files (path_join out_dir (path_join out_dir name)))
                      members)
  /\ (forall rest, out_dir = String "/" rest ->
        path_join out_dir (path_join out_dir name) = path_join out_dir name)
  /\ (forall first rest last,
        out_dir = String first rest -> first <> "/"%char ->
        str_last out_dir = Some last -> last <> "/"%char ->
        path_join out_dir (path_join out_dir name)
        = out_dir ++ "/" ++ out_dir ++ "/" ++ name).
Proof.
  intros Hmk Hname Hc Hglob Hm. split; [|split].
  - unfold Rcm.extract_all. rewrite Hglob.
    change (Rcm.sorted [?a]) with [a].
    set (a := Rcm.mkArchive (path_join out_dir (name ++ ".zip")) (Ret members)).
    assert (Ha : Forall (fun x => extractable x = true) [a])
      by (repeat constructor; exact Hm).
    destruct (extract_items_effect e Hmk out_dir [a] w Ha) as (w1 & -> & F1 & _).
    cbn [fst]. rewrite F1. cbn [flat_map]. rewrite app_nil_r.
    unfold archive_files, archive_dir, a. cbn [Rcm.a_open Rcm.a_path].
    now rewrite (path_join_zip out_dir name c t Hname Hc).
  - intros rest ->. subst name.
    assert (H : exists s, path_join (String "/" rest) (String c t) = String "/" s).
    { unfold path_join. rewrite (match_head c t _ Hc).
      destruct (str_last (String "/" rest)) as [l|] eqn:El.
      - rewrite match_slash. destruct (Ascii.eqb l "/"); cbn [append]; eauto.
      - apply str_last_none in El. discriminate. }
    destruct H as (s & ->). reflexivity.
  - intros first rest last -> Hfirst Hlast Hne. subst name.
    unfold path_join. rewrite Hlast, (match_head c t _ Hc), match_slash.
    assert (Hl : Ascii.eqb last "/" = false) by (now apply Ascii.eqb_neq).
    rewrite Hl.
    change (String first rest ++ "/" ++ String c t)
      with (String first (rest ++ "/" ++ String c t)).
    cbv iota beta.
    now rewrite (match_head first _ _ Hfirst), match_slash, Hl.
Qed.

Lemma members_are_extracted_under_the_joined_path_witness :
  let members := [Rcm.mkMember "a.txt" (Rcm.Extracts "A");
                  Rcm.mkMember "../up.txt" (Rcm.Extracts "U");
                  Rcm.mkMember "/abs.txt" (Rcm.Extracts "R")] in
  let e := archive_env (Rcm.mkArchive "data/x.zip" (Ret members)) in
  w_files (fst (Rcm.extract_all e "data" false logging_world))
  = [("data/data/x/a.txt", "A"); ("data/data/x/up.txt", "U");
     ("data/data/x/abs.txt", "R")].
Proof.
  intros members e.
  destruct (members_are_extracted_under_the_joined_path
              e "data" "x" "x"%char "" members logging_world
              (fun _ => eq_refl) eq_refl ltac:(discriminate) eq_refl eq_refl)
    as (Hfiles & _ & Hrel).
  rewrite Hfiles.
  rewrite (Hrel "d"%char "ata" "a"%char eq_refl ltac:(discriminate) eq_refl
                ltac:(discriminate)).
  reflexivity.
Defined.

(* ===================================================================== *)
(** * The Sentinel client: further properties                            *)
(* ===================================================================== *)

Section RaisesFacts.

Variable e : Sentinel.env.

Lemma raises_only_bind {A B} (ok : exn -> bool) (m : M A) (k : A -> M B) :
  raises_only ok m -> (forall a, raises_only ok (k a)) -> raises_only ok (bind m k).
Proof.
  intros Hm Hk w ex. unfold bind. specialize (Hm w).
  destruct (m w) as [w1 [a|ex1]]; cbn [snd] in *.
  - apply Hk.
  - intros [= <-]. now apply Hm.
Qed.

Lemma raises_only_ret {A} (ok : exn -> bool) (a : A) : raises_only ok (ret a).
Proof. intros w ex. discriminate. Qed.

Lemma raises_only_log (ok : exn -> bool) clock l msg :
  raises_only ok (log clock l msg).
Proof.
  intros w ex. destruct (log_effect clock l msg w) as (w1 & -> & _). discriminate.
Qed.

Lemma raises_only_raise {A} (ok : exn -> bool) (ex : exn) :
  ok ex = true -> raises_only ok (@raise A ex).
Proof. intros H w ex'. now intros [= <-]. Qed.

Lemma raises_only_weaken {A} (ok ok' : exn -> bool) (m : M A) :
  (forall ex, ok ex = true -> ok' ex = true) -> raises_only ok m -> raises_only ok' m.
Proof. intros H Hm w ex Hex. apply H. now apply (Hm w). Qed.

(** After the handler, an exception is one that the handler lets by, or
    the [Exception] that it raises. *)
Lemma log_and_wrap_raises {A} (inner ok catches : exn -> bool)
      (text : exn -> string) (m : M A) :
  raises_only inner m ->
  (forall ex, inner ex = true -> catches ex = false -> ok ex = true) ->
  (forall msg, ok (Exception msg) = true) ->
  raises_only ok (Sentinel.log_and_wrap e catches text m).
Proof.
  intros Hm Hby Hexc w ex. unfold Sentinel.log_and_wrap, try_except.
  specialize (Hm w). destruct (m w) as [w1 [a|ex1]]; cbn [snd] in *; [discriminate|].
  destruct (catches ex1) eqn:Ec.
  - unfold bind.
    destruct (log_effect (Sentinel.clock e) ERROR (text ex1) w1) as (w2 & -> & _).
    unfold raise. cbn [snd]. intros [= <-]. apply Hexc.
  - cbn [snd]. intros [= <-]. apply Hby; [now apply Hm | exact Ec].
Qed.

Lemma create_products_raises (items : list (option Sentinel.product)) (ex : exn) :
  Sentinel.create_products items = Raise ex ->
  Sentinel.is_value_or_key_error ex = true.
Proof.
  unfold Sentinel.create_products. intros H.
  apply omap_raises in H as ([p|] & _ & Hx); [discriminate|]. now injection Hx as <-.
Qed.

(** No [RequestException] leaves the search. *)
Lemma search_products_raises (c : Sentinel.config) :
  raises_only not_request (Sentinel.search_products e c).
Proof.
  unfold Sentinel.search_products.
  apply raises_only_bind.
  { destruct (String.eqb (Sentinel.download_type c) "ingestion");
      [apply raises_only_ret|].
    destruct (String.eqb (Sentinel.download_type c) "acquisition");
      [apply raises_only_ret|].
    apply raises_only_bind; [apply raises_only_log | intros _].
    now apply raises_only_raise. }
  intros date_type. apply raises_only_bind.
  { apply (log_and_wrap_raises (fun _ => true)).
    - intros w ex _. reflexivity.
    - intros ex _ Hc. unfold not_request. now rewrite Hc.
    - reflexivity. }
  intros response. apply raises_only_bind.
  { apply (log_and_wrap_raises Sentinel.is_value_or_key_error).
    - destruct (Sentinel.json response) as [|[items|] tok].
      + now apply raises_only_raise.
      + intros w ex. unfold lift. cbn [snd]. apply create_products_raises.
      + apply raises_only_ret.
    - intros ex H1 H2. congruence.
    - reflexivity. }
  intros products. apply raises_only_bind; [apply raises_only_log | intros _].
  apply raises_only_bind; [|intros _; apply raises_only_ret].
  destruct products; [apply raises_only_log | apply raises_only_ret].
Qed.

(** No [RequestException] leaves the exchange for the token. *)
Lemma get_keycloak_raises : raises_only not_request (Sentinel.get_keycloak e).
Proof.
  unfold Sentinel.get_keycloak. apply raises_only_bind.
  { apply (log_and_wrap_raises (fun _ => true)).
    - intros w ex _. reflexivity.
    - intros ex _ Hc. unfold not_request. now rewrite Hc.
    - reflexivity. }
  intros r. apply (log_and_wrap_raises Sentinel.is_value_or_key_error).
  - destruct (Sentinel.json r) as [|v [token|]].
    + now apply raises_only_raise.
    + apply raises_only_ret.
    + now apply raises_only_raise.
  - intros ex H1 H2. congruence.
  - reflexivity.
Qed.

(** A search that fails is the failure of [download_products]. *)
Lemma download_products_search_fails (c : Sentinel.config) (fuel : nat)
      (w w1 : world) (ex : exn) :
  Sentinel.search_products e c w = (w1, Raise ex) ->
  Sentinel.download_products e c fuel w = (w1, Raise ex).
Proof.
  intros Hs. pose proof (search_products_raises c w ex) as Hnr.
  rewrite Hs in Hnr. specialize (Hnr eq_refl). unfold not_request in Hnr.
  apply negb_true_iff in Hnr.
  unfold Sentinel.download_products, Sentinel.log_and_wrap, try_except.
  unfold bind at 1. now rewrite Hs, Hnr.
Qed.

(** The exchange for the token sends one request, whatever its outcome. *)
Lemma get_keycloak_net (w : world) :
  w_net (fst (Sentinel.get_keycloak e w))
  = (w_net w ++ [HttpPost Sentinel.token_url])%list.
Proof.
  assert (Hwrap : forall A catches text (m : M A) w0 calls,
             w_net (fst (m w0)) = calls ->
             w_net (fst (Sentinel.log_and_wrap e catches text m w0)) = calls).
  { intros A catches text m w0 calls Hm.
    unfold Sentinel.log_and_wrap, try_except.
    destruct (m w0) as [w1 [a|ex]]; cbn [fst] in *; [exact Hm|].
    destruct (catches ex); [|exact Hm]. unfold bind.
    destruct (log_effect (Sentinel.clock e) ERROR (text ex) w1)
      as (w2 & -> & _ & _ & N & _).
    unfold raise. cbn [fst]. congruence. }
  unfold Sentinel.get_keycloak. unfold bind at 1.
  match goal with
  | |- context [Sentinel.log_and_wrap e ?c ?t ?m w] =>
      pose proof (Hwrap _ c t m w (w_net w ++ [HttpPost Sentinel.token_url])%list) as H1;
      destruct (Sentinel.log_and_wrap e c t m w) as [w1 [r|ex]]
  end.
  - cbn [fst] in H1. rewrite <- H1.
    + apply Hwrap. now destruct (Sentinel.json r) as [|v [token|]].
    + unfold bind at 1, call_net at 1. unfold bind at 1, lift at 1.
      destruct (Sentinel.http_post e Sentinel.token_url) as [r0|]; [|reflexivity].
      unfold bind, lift. now destruct (Sentinel.raise_for_status _ r0).
  - cbn [fst] in *. apply H1.
    unfold bind at 1, call_net at 1. unfold bind at 1, lift at 1.
    destruct (Sentinel.http_post e Sentinel.token_url) as [r0|]; [|reflexivity].
    unfold bind, lift. now destruct (Sentinel.raise_for_status _ r0).
Qed.

Lemma get_keycloak_files : preserves w_files (Sentinel.get_keycloak e).
Proof.
  unfold Sentinel.get_keycloak.
  apply preserves_bind; [|intros r];
    (apply log_and_wrap_preserves; [auto with preserves|]).
  - repeat (apply preserves_bind; [|intros]); auto with preserves.
  - destruct (Sentinel.json r) as [|v [token|]]; auto with preserves.
Qed.

(** A login that is refused. *)
Lemma get_keycloak_refused (msg : string) (w : world) :
  token_exchange e = Raise (RequestException msg) ->
  Sentinel.get_keycloak e w
  = (fst (log (Sentinel.clock e) ERROR (token_failure msg)
              (set_net (w_net w ++ [HttpPost Sentinel.token_url])%list w)),
     Raise (Exception (token_failure msg))).
Proof.
  unfold token_exchange. intros H.
  unfold Sentinel.get_keycloak, Sentinel.log_and_wrap, try_except.
  unfold bind at 1. unfold bind at 1, call_net at 1. unfold bind at 1, lift at 1.
  match goal with
  | |- context [log ?k ?l ?m ?w0] => destruct (log_effect k l m w0) as (w2 & E2 & _)
  end.
  destruct (Sentinel.http_post e Sentinel.token_url) as [r|ex]; cbn [obind] in H.
  - unfold bind at 1, lift at 1.
    destruct (Sentinel.raise_for_status Sentinel.token_url r) as [[]|ex];
      cbn [obind] in H; [discriminate|].
    injection H as ->. cbn [Sentinel.is_request_exception exn_str].
    fold (token_failure msg). unfold bind, raise. now rewrite E2.
  - injection H as ->. cbn [Sentinel.is_request_exception exn_str].
    fold (token_failure msg). unfold bind, raise. now rewrite E2.
Qed.

End RaisesFacts.

(** X15.  With a [download_type] that is neither [ingestion] nor
    [acquisition] the client sends no request and writes no file: it logs
    one error and raises [ValueError], which [download_products] lets by.
    (The entry of the log spells the first word [acquistion].) *)
Theorem unsupported_download_type_sends_nothing
        (e : Sentinel.env) (c : Sentinel.config) (fuel : nat) (w : world) :
  Sentinel.download_type c <> "ingestion" ->
  Sentinel.download_type c <> "acquisition" ->
  let r := Sentinel.download_products e c fuel w in
  snd r = Raise (ValueError "Choose one of acquisition or ingestion for the download_type")
  /\ w_net (fst r) = w_net w
  /\ w_files (fst r) = w_files w
  /\ log_entries (fst r)
     = (log_entries w
        ++ accepted w [(ERROR, "Choose one of acquistion or ingestion for the download_type")])%list.
Proof.
  intros H1 H2 r. subst r.
  apply String.eqb_neq in H1, H2.
  destruct (log_effect (Sentinel.clock e) ERROR
              "Choose one of acquistion or ingestion for the download_type" w)
    as (w1 & E1 & F1 & _ & N1 & _ & _ & L1).
  rewrite (download_products_search_fails e c fuel w w1
             (ValueError "Choose one of acquisition or ingestion for the download_type")).
  - cbn [fst snd]. auto.
  - unfold Sentinel.search_products. unfold bind at 1. rewrite H1, H2.
    unfold bind at 1. now rewrite E1.
Qed.

Lemma unsupported_download_type_sends_nothing_witness :
  let c := Sentinel.mkConfig "INFO" "SENTINEL-2" "u" "s" "" "S2MSI1C" "" "/data"
                             "/work" "GMT" "2023-01-01T00:00:00Z"
                             "2023-01-02T00:00:00Z" "POINT (0 0)" in
  let r := Sentinel.download_products three_env c 5 logging_world in
  snd r = Raise (ValueError "Choose one of acquisition or ingestion for the download_type")
  /\ w_net (fst r) = []
  /\ w_files (fst r) = []
  /\ log_entries (fst r)
     = [(ERROR, "Choose one of acquistion or ingestion for the download_type")].
Proof.
  intros c.
  apply (unsupported_download_type_sends_nothing three_env c 5 logging_world);
    discriminate.
Defined.

(** X16.  With a mission that is neither [SENTINEL-1] nor [SENTINEL-2] the
    client sends no request and writes no file: it logs one error and
    raises [ValueError]; the handlers of the search and of the downloads,
    which take the exceptions of [requests] only, let it by. *)
Theorem unsupported_mission_sends_nothing
        (e : Sentinel.env) (c : Sentinel.config) (fuel : nat) (w : world) :
  Sentinel.download_type c = "ingestion" \/ Sentinel.download_type c = "acquisition" ->
  Sentinel.mission c <> "SENTINEL-1" ->
  Sentinel.mission c <> "SENTINEL-2" ->
  let r := Sentinel.download_products e c fuel w in
  snd r = Raise (ValueError Sentinel.mission_msg)
  /\ w_net (fst r) = w_net w
  /\ w_files (fst r) = w_files w
  /\ log_entries (fst r)
     = (log_entries w ++ accepted w [(ERROR, Sentinel.mission_msg)])%list.
Proof.
  intros Hd H1 H2 r. subst r.
  apply String.eqb_neq in H1, H2.
  destruct (log_effect (Sentinel.clock e) ERROR Sentinel.mission_msg w)
    as (w1 & E1 & F1 & _ & N1 & _ & _ & L1).
  rewrite (download_products_search_fails e c fuel w w1
             (ValueError Sentinel.mission_msg)).
  - cbn [fst snd]. auto.
  - unfold Sentinel.search_products. unfold bind at 1.
    assert (Hdate : exists date_type,
               (if String.eqb (Sentinel.download_type c) "ingestion"
                then ret "PublicationDate"
                else if String.eqb (Sentinel.download_type c) "acquisition"
                     then ret "ContentDate/Start"
                     else log (Sentinel.clock e) ERROR
                              "Choose one of acquistion or ingestion for the download_type" ;;
                          raise (ValueError
                                   "Choose one of acquisition or ingestion for the download_type"))
                 w = (w, Ret date_type)).
    { destruct Hd as [-> | ->]; cbn; eexists; reflexivity. }
    destruct Hdate as (date_type & ->).
    unfold bind at 1. unfold Sentinel.log_and_wrap at 1, try_except.
    unfold bind at 1. rewrite H1, H2. unfold bind at 1. rewrite E1.
    reflexivity.
Qed.

Lemma unsupported_mission_sends_nothing_witness :
  let c := Sentinel.mkConfig "INFO" "LANDSAT" "u" "s" "ingestion" "S2MSI1C" "" "/data"
                             "/work" "GMT" "2023-01-01T00:00:00Z"
                             "2023-01-02T00:00:00Z" "POINT (0 0)" in
  let r := Sentinel.download_products three_env c 5 logging_world in
  snd r = Raise (ValueError Sentinel.mission_msg)
  /\ w_net (fst r) = []
  /\ w_files (fst r) = []
  /\ log_entries (fst r) = [(ERROR, Sentinel.mission_msg)].
Proof.
  intros c.
  apply (unsupported_mission_sends_nothing three_env c 5 logging_world);
    [now left | discriminate | discriminate].
Defined.

(** X17.  The search lets no exception of [requests] out: a failed request
    leaves it as an [Exception], already in the log.  So the handler of
    [download_products] never takes the failure of a search: the run ends
    in the world that the search leaves, with the exception of the search,
    and the log takes no second entry. *)
Theorem failed_search_is_reported_once
        (e : Sentinel.env) (c : Sentinel.config) (fuel : nat) (w w1 : world)
        (ex : exn) :
  Sentinel.search_products e c w = (w1, Raise ex) ->
  Sentinel.download_products e c fuel w = (w1, Raise ex)
  /\ Sentinel.is_request_exception ex = false.
Proof.
  intros Hs. split; [now apply download_products_search_fails|].
  pose proof (search_products_raises e c w ex) as H. rewrite Hs in H.
  specialize (H eq_refl). unfold not_request in H. now apply negb_true_iff in H.
Qed.

Lemma failed_search_is_reported_once_witness :
  let e := Sentinel.mkEnv (Sentinel.FileNotFound "")
                          (fun _ => "2024-05-01 10:00:00,123") []
                          (fun _ => Raise (RequestException "no route to host"))
                          (fun _ => Raise (RequestException "no route to host")) "" in
  snd (Sentinel.download_products e three_config 5 logging_world)
  = Raise (Exception "Product search failed. Error: no route to host")
  /\ log_entries (fst (Sentinel.download_products e three_config 5 logging_world))
     = [(ERROR, "Product search failed. Error: no route to host")].
Proof.
  intros e.
  destruct (failed_search_is_reported_once
              e three_config 5 logging_world
              (fst (Sentinel.search_products e three_config logging_world))
              (Exception "Product search failed. Error: no route to host") eq_refl)
    as (-> & _).
  split; reflexivity.
Defined.

(** X18.  The exchange for the token sends one request, the POST to the
    identity service, whatever the answer; it writes no file; and it lets
    no exception of [requests] out. *)
Theorem get_keycloak_sends_one_request (e : Sentinel.env) (w : world) :
  w_net (fst (Sentinel.get_keycloak e w))
  = (w_net w ++ [HttpPost Sentinel.token_url])%list
  /\ w_files (fst (Sentinel.get_keycloak e w)) = w_files w
  /\ (forall msg, snd (Sentinel.get_keycloak e w) <> Raise (RequestException msg)).
Proof.
  split; [apply get_keycloak_net|]. split; [apply get_keycloak_files|].
  intros msg H. now apply get_keycloak_raises in H.
Qed.

(** X19.  When the identity service refuses the login, or cannot be
    reached, the run ends before any download: after the search and the
    POST no request is sent and no file is written, the log takes one
    entry of level ERROR, and the exception is the [Exception] of the
    token, which the handler of the downloads lets by. *)
Theorem refused_login_ends_the_run
        (e : Sentinel.env) (c : Sentinel.config) (fuel : nat) (w w1 : world)
        (p : Sentinel.product) (ps : list Sentinel.product) (msg : string) :
  Sentinel.search_products e c w = (w1, Ret (p :: ps)) ->
  token_exchange e = Raise (RequestException msg) ->
  let r := Sentinel.download_products e c fuel w in
  snd r = Raise (Exception (token_failure msg))
  /\ w_net (fst r) = (w_net w1 ++ [HttpPost Sentinel.token_url])%list
  /\ w_files (fst r) = w_files w
  /\ log_entries (fst r)
     = (log_entries w1 ++ accepted w1 [(ERROR, token_failure msg)])%list.
Proof.
  intros Hs Ht r. subst r.
  pose proof (search_products_preserves_files e c w) as Hf. rewrite Hs in Hf.
  cbn [fst] in Hf.
  destruct (log_effect (Sentinel.clock e) ERROR (token_failure msg)
              (set_net (w_net w1 ++ [HttpPost Sentinel.token_url])%list w1))
    as (w2 & E2 & F2 & _ & N2 & _ & _ & L2).
  assert (Hrun : Sentinel.download_products e c fuel w
                 = (w2, Raise (Exception (token_failure msg)))).
  { unfold Sentinel.download_products, Sentinel.log_and_wrap, try_except.
    unfold bind at 1. rewrite Hs. unfold bind at 1.
    rewrite (get_keycloak_refused e msg w1 Ht), E2. reflexivity. }
  rewrite Hrun. cbn [fst snd]. split; [reflexivity|].
  split; [exact N2|]. split; [rewrite F2; exact Hf | exact L2].
Qed.

Lemma refused_login_ends_the_run_witness :
  let e := Sentinel.mkEnv (Sentinel.FileNotFound "")
             (fun _ => "2024-05-01 10:00:00,123") []
             (fun _ => Ret (ok_response ""
                              (Sentinel.JsonObject (Some [Some product_1]) None)))
             (fun _ => Ret (Sentinel.mkResponse 401 "Unauthorized" None ""
                                                Sentinel.JsonInvalid)) "" in
  let r := Sentinel.download_products e three_config 5 logging_world in
  snd r
  = Raise (Exception
             (token_failure
                ("401 Client Error: Unauthorized for url: " ++ Sentinel.token_url)))
  /\ w_files (fst r) = [].
Proof.
  intros e.
  destruct (refused_login_ends_the_run
              e three_config 5 logging_world
              (fst (Sentinel.search_products e three_config logging_world))
              product_1 []
              ("401 Client Error: Unauthorized for url: " ++ Sentinel.token_url)
              eq_refl eq_refl)
    as (H1 & _ & H3 & _).
  split; [exact H1 | exact H3].
Defined.

Section LoopFacts.

Variable e : Sentinel.env.
Variable c : Sentinel.config.
Variable token : string.
Variable fuel : nat.

(** The loop over products whose exchanges all succeed. *)
Lemma download_loop_all (ps : list Sentinel.product) (w : world) :
  (forall q, In q ps -> exists file_content, product_content e fuel q = Ret file_content) ->
  exists w',
    for_each ps (Sentinel.download_one e c token fuel) w = (w', Ret tt)
    /\ w_files w' = written (w_files w) (flat_map (artifact e c fuel) ps)
    /\ w_net w' = (w_net w ++ flat_map (product_calls e token fuel) ps)%list
    /\ w_log_file w' = w_log_file w /\ w_log_level w' = w_log_level w
    /\ log_entries w'
       = (log_entries w
          ++ accepted w (flat_map (fun q => [start_entry q; done_entry c q]) ps))%list.
Proof.
  revert w. induction ps as [|q ps IH]; intros w Hall.
  - exists w. cbn [for_each flat_map written fold_left]. unfold ret.
    rewrite !app_nil_r. repeat split.
    unfold accepted. destruct (w_log_file w); cbn [filter]; now rewrite app_nil_r.
  - destruct (download_one_effect e c token fuel q w)
      as (w1 & E1 & F1 & N1 & LF1 & LL1 & LE1).
    destruct (Hall q (or_introl eq_refl)) as (file_content & Hq).
    rewrite Hq in E1, LE1.
    destruct (IH w1 (fun x Hx => Hall x (or_intror Hx)))
      as (w2 & E2 & F2 & N2 & LF2 & LL2 & LE2).
    exists w2. cbn [for_each flat_map]. unfold bind. rewrite E1, E2.
    split; [reflexivity|].
    rewrite F2, F1, N2, N1, LF2, LF1, LL2, LL1, LE2, LE1.
    rewrite (accepted_same_logger w w1) by assumption.
    rewrite written_app, <- !app_assoc, <- accepted_app.
    repeat split.
Qed.

Lemma redirect_calls_carry (r : Sentinel.response) :
  forallb (carries token) (redirect_calls e token fuel r) = true.
Proof.
  revert r. induction fuel as [|n IH]; intros r; cbn [redirect_calls];
    destruct (Sentinel.is_redirect (Sentinel.status_code r)); try reflexivity.
  destruct (Sentinel.location r) as [url'|]; [|reflexivity].
  cbn [forallb carries]. rewrite String.eqb_refl.
  destruct (Sentinel.http_get e url'); [apply IH | reflexivity].
Qed.

Lemma product_calls_carry (p : Sentinel.product) :
  forallb (carries token) (product_calls e token fuel p) = true.
Proof.
  unfold product_calls. cbn [forallb carries]. rewrite String.eqb_refl.
  destruct (Sentinel.http_get e (product_url p));
    [apply redirect_calls_carry | reflexivity].
Qed.

End LoopFacts.

Section CycleFacts.

Variable e : Sentinel.env.
Variable token : string.
Variable url : string.
Variable r : Sentinel.response.
Hypothesis answer : Sentinel.http_get e url = Ret r.
Hypothesis moved : Sentinel.is_redirect (Sentinel.status_code r) = true.
Hypothesis to_itself : Sentinel.location r = Some url.

Lemma resolve_cycle (fuel : nat) (url0 : string) :
  resolve e fuel url0 r = Raise Unfinished
  /\ redirect_calls e token fuel r = repeat (HttpGet url (Some token)) fuel.
Proof.
  revert url0. induction fuel as [|n IH]; intros url0;
    cbn [resolve redirect_calls repeat]; rewrite moved; [auto|].
  rewrite to_itself, answer. destruct (IH url) as [-> ->]. auto.
Qed.

End CycleFacts.

(** X20.  When the search lists products, the token is obtained and every
    exchange succeeds, [download_products] returns; it has written, for
    each product and in the order of the list, the content served under
    [out_dir/name.zip], sent the requests of each product and no other,
    and logged the token and, for each product, its start and its end. *)
Theorem every_listed_product_is_downloaded
        (e : Sentinel.env) (c : Sentinel.config) (fuel : nat) (w w1 w2 : world)
        (token : string) (p : Sentinel.product) (ps : list Sentinel.product) :
  Sentinel.search_products e c w = (w1, Ret (p :: ps)) ->
  Sentinel.get_keycloak e w1 = (w2, Ret token) ->
  (forall q, In q (p :: ps) ->
             exists file_content, product_content e fuel q = Ret file_content) ->
  let r := Sentinel.download_products e c fuel w in
  snd r = Ret tt
  /\ w_files (fst r) = written (w_files w2) (flat_map (artifact e c fuel) (p :: ps))
  /\ w_net (fst r)
     = (w_net w2 ++ flat_map (product_calls e token fuel) (p :: ps))%list
  /\ log_entries (fst r)
     = (log_entries w2 ++ accepted w2 (success_entries c (p :: ps)))%list.
Proof.
  intros Hs Ht Hall r. subst r.
  destruct (log_effect (Sentinel.clock e) DEBUG "Token generated" w2)
    as (w3 & E3 & F3 & _ & N3 & LF3 & LL3 & LE3).
  destruct (download_loop_all e c token fuel (p :: ps) w3 Hall)
    as (w4 & E4 & F4 & N4 & _ & _ & LE4).
  assert (Hrun : Sentinel.download_products e c fuel w = (w4, Ret tt)).
  { unfold Sentinel.download_products, Sentinel.log_and_wrap, try_except.
    unfold bind at 1. rewrite Hs. unfold bind at 1. rewrite Ht.
    unfold bind at 1. now rewrite E3, E4. }
  rewrite Hrun. cbn [fst snd]. split; [reflexivity|].
  split; [congruence|]. split; [congruence|].
  rewrite LE4, LE3, (accepted_same_logger w2 w3) by assumption.
  unfold success_entries.
  now rewrite <- app_assoc, <- accepted_app.
Qed.

Lemma every_listed_product_is_downloaded_witness :
  let e := Sentinel.mkEnv (Sentinel.FileNotFound "")
             (fun _ => "2024-05-01 10:00:00,123") []
             (fun url =>
                if String.eqb url (product_url product_1)
                then Ret (ok_response "zip-1" Sentinel.JsonInvalid)
                else if String.eqb url (product_url product_3)
                then Ret (ok_response "zip-3" Sentinel.JsonInvalid)
                else Ret (ok_response ""
                            (Sentinel.JsonObject
                               (Some [Some product_1; Some product_3]) None)))
             (fun _ => Ret (ok_response "" (Sentinel.JsonObject None (Some "token"))))
             "" in
  let r := Sentinel.download_products e three_config 5 logging_world in
  snd r = Ret tt
  /\ w_files (fst r) = [("/data/S2A_1.zip", "zip-1"); ("/data/S2A_3.zip", "zip-3")].
Proof.
  intros e.
  destruct (every_listed_product_is_downloaded
              e three_config 5 logging_world
              (fst (Sentinel.search_products e three_config logging_world))
              (fst (Sentinel.get_keycloak e
                      (fst (Sentinel.search_products e three_config logging_world))))
              "token" product_1 [product_3] eq_refl eq_refl)
    as (H1 & H2 & _).
  - intros q [<- | [<- | []]]; eexists; reflexivity.
  - split; [exact H1 | exact H2].
Defined.

(** X21.  Every request that the client sends for a product carries the
    bearer token, the requests to the addresses of the redirections
    included: the token is a header of the session, and the client
    follows the redirections by itself. *)
Theorem every_download_request_carries_the_token
        (e : Sentinel.env) (c : Sentinel.config) (token : string) (fuel : nat)
        (p : Sentinel.product) (w : world) :
  exists calls,
    w_net (fst (Sentinel.download_one e c token fuel p w)) = (w_net w ++ calls)%list
    /\ hd_error calls = Some (HttpGet (product_url p) (Some token))
    /\ forallb (carries token) calls = true.
Proof.
  destruct (download_one_effect e c token fuel p w) as (w1 & E1 & _ & N1 & _).
  exists (product_calls e token fuel p). rewrite E1. cbn [fst].
  split; [exact N1|]. split; [reflexivity | apply product_calls_carry].
Qed.

(** X22.  The client follows a redirection for as long as the answers
    redirect: when an address redirects to itself, the loop is still
    running after any number of turns, having sent one request in each. *)
Theorem redirect_cycle_is_followed_without_end
        (e : Sentinel.env) (token url0 url : string) (r : Sentinel.response)
        (fuel : nat) (w : world) :
  Sentinel.http_get e url = Ret r ->
  Sentinel.is_redirect (Sentinel.status_code r) = true ->
  Sentinel.location r = Some url ->
  snd (Sentinel.follow_redirects e token fuel url0 r w) = Raise Unfinished
  /\ w_net (fst (Sentinel.follow_redirects e token fuel url0 r w))
     = (w_net w ++ repeat (HttpGet url (Some token)) fuel)%list.
Proof.
  intros Ha Hm Hl. rewrite follow_redirects_effect. cbn [fst snd w_net set_net].
  destruct (resolve_cycle e token url r Ha Hm Hl fuel url0) as [-> ->]. auto.
Qed.

Lemma redirect_cycle_is_followed_without_end_witness :
  let r := Sentinel.mkResponse 302 "Found" (Some "https://zipper/loop") ""
                               Sentinel.JsonInvalid in
  let e := Sentinel.mkEnv (Sentinel.FileNotFound "")
                          (fun _ => "2024-05-01 10:00:00,123") []
                          (fun _ => Ret r) (fun _ => Ret r) "" in
  snd (Sentinel.follow_redirects e "token" 7 "https://catalogue/p" r logging_world)
  = Raise Unfinished
  /\ w_net (fst (Sentinel.follow_redirects e "token" 7 "https://catalogue/p" r
                                           logging_world))
     = repeat (HttpGet "https://zipper/loop" (Some "token")) 7.
Proof.
  intros r e.
  apply (redirect_cycle_is_followed_without_end
           e "token" "https://catalogue/p" "https://zipper/loop" r 7 logging_world);
    reflexivity.
Defined.

(** X23.  The handler of the downloads takes the exceptions of [requests]
    and no other.  When the exchange for a product raises another
    exception (the [KeyError] of a redirection without [Location], for
    one), the downloads end with that exception as it is, and the log
    takes no entry for the failure: its last entry is the start of the
    product. *)
Theorem other_failures_escape_unlogged
        (e : Sentinel.env) (c : Sentinel.config) (fuel : nat) (w w1 w2 : world)
        (token : string) (pre post : list Sentinel.product) (p : Sentinel.product)
        (ex : exn) :
  Sentinel.search_products e c w = (w1, Ret (pre ++ p :: post)%list) ->
  Sentinel.get_keycloak e w1 = (w2, Ret token) ->
  (forall q, In q pre -> exists file_content, product_content e fuel q = Ret file_content) ->
  product_content e fuel p = Raise ex ->
  Sentinel.is_request_exception ex = false ->
  let r := Sentinel.download_products e c fuel w in
  snd r = Raise ex
  /\ w_files (fst r) = written (w_files w2) (flat_map (artifact e c fuel) pre)
  /\ log_entries (fst r)
     = (log_entries w2
        ++ accepted w2 (success_entries c pre ++ [start_entry p]))%list.
Proof.
  intros Hs Ht Hpre Hp Hex r. subst r.
  destruct (log_effect (Sentinel.clock e) DEBUG "Token generated" w2)
    as (w3 & E3 & F3 & _ & N3 & LF3 & LL3 & LE3).
  destruct (download_loop_stops e c token fuel pre post p ex w3 Hpre Hp)
    as (w4 & E4 & F4 & N4 & _ & _ & LE4).
  assert (Hrun : Sentinel.download_products e c fuel w = (w4, Raise ex)).
  { unfold Sentinel.download_products, Sentinel.log_and_wrap, try_except.
    unfold bind at 1. rewrite Hs.
    assert (Hbody : (keycloak_token <- Sentinel.get_keycloak e ;;
                     log (Sentinel.clock e) DEBUG "Token generated" ;;
                     for_each (pre ++ p :: post)%list
                              (Sentinel.download_one e c keycloak_token fuel)) w1
                    = (w4, Raise ex)).
    { unfold bind at 1. rewrite Ht. unfold bind at 1. now rewrite E3. }
    destruct pre; cbn [app] in *; now rewrite Hbody, Hex. }
  rewrite Hrun. cbn [fst snd]. split; [reflexivity|]. split; [congruence|].
  rewrite LE4, LE3, (accepted_same_logger w2 w3) by assumption.
  unfold success_entries.
  rewrite <- app_assoc, <- accepted_app. reflexivity.
Qed.

Lemma other_failures_escape_unlogged_witness :
  let e := Sentinel.mkEnv (Sentinel.FileNotFound "")
             (fun _ => "2024-05-01 10:00:00,123") []
             (fun url =>
                if String.eqb url (product_url product_1)
                then Ret (Sentinel.mkResponse 302 "Found" None "" Sentinel.JsonInvalid)
                else Ret (ok_response ""
                            (Sentinel.JsonObject (Some [Some product_1]) None)))
             (fun _ => Ret (ok_response "" (Sentinel.JsonObject None (Some "token"))))
             "" in
  let r := Sentinel.download_products e three_config 5 logging_world in
  snd r = Raise (KeyError "location")
  /\ w_files (fst r) = []
  /\ log_entries (fst r)
     = [(INFO, "Returned product IDS: ['id-1']"); (DEBUG, "Token generated");
        start_entry product_1].
Proof.
  intros e.
  apply (other_failures_escape_unlogged
           e three_config 5 logging_world
           (fst (Sentinel.search_products e three_config logging_world))
           (fst (Sentinel.get_keycloak e
                   (fst (Sentinel.search_products e three_config logging_world))))
           "token" [] [] product_1 (KeyError "location") eq_refl eq_refl);
    [intros q [] | reflexivity | reflexivity].
Defined.

Section RespectFacts.

Lemma similar_accepted (w w' : world) (entries : list (level * string)) :
  similar w w' -> accepted w entries = accepted w' entries.
Proof.
  intros (Hl & _). unfold logger in Hl. injection Hl as Hf Hv.
  now apply accepted_same_logger.
Qed.

Lemma respects_ret {A} (a : A) : respects (ret a).
Proof. intros w w' H. split; [reflexivity | exact H]. Qed.

Lemma respects_raise {A} (ex : exn) : respects (@raise A ex).
Proof. intros w w' H. split; [reflexivity | exact H]. Qed.

Lemma respects_lift {A} (o : outcome A) : respects (lift o).
Proof. intros w w' H. split; [reflexivity | exact H]. Qed.

Lemma respects_bind {A B} (m : M A) (k : A -> M B) :
  respects m -> (forall a, respects (k a)) -> respects (bind m k).
Proof.
  intros Hm Hk w w' H. unfold bind. destruct (Hm w w' H) as [Ho Hs].
  destruct (m w) as [w1 [a|ex]], (m w') as [w1' [a'|ex']];
    cbn [fst snd] in *; try discriminate.
  - injection Ho as <-. now apply Hk.
  - injection Ho as <-. split; [reflexivity | exact Hs].
Qed.

Lemma respects_log clock l msg : respects (log clock l msg).
Proof.
  intros w w' H.
  destruct (log_effect clock l msg w) as (w1 & -> & F & _ & N & LF & LL & LE).
  destruct (log_effect clock l msg w') as (w1' & -> & F' & _ & N' & LF' & LL' & LE').
  cbn [fst snd]. split; [reflexivity|].
  pose proof (similar_accepted w w' [(l, msg)] H) as Ha.
  destruct H as (Hl & He & Hf & Hn). unfold logger in Hl. injection Hl as Hlf Hlv.
  unfold similar, logger. rewrite LF, LL, LF', LL', LE, LE', F, F', N, N', Ha.
  repeat split; congruence.
Qed.

Lemma bind_basicConfig {B} (filename : string) (lvl : option Z) (k : unit -> M B)
      (w : world) :
  bind (basicConfig filename lvl) k w = k tt (fst (basicConfig filename lvl w)).
Proof. reflexivity. Qed.

End RespectFacts.

Section ConfigurationFacts.

Variable e : Sentinel.env.

(** After the opening of the log file, [__post_init__] reads the
    run-description and the geometry, and logs. *)
Lemma FewsConfig_steps (i : Sentinel.info) (first : list (string * string))
      (others : list (list (string * string))) :
  Sentinel.info_file e = Sentinel.Parsed i ->
  Sentinel.i_properties i = first :: others ->
  exists steps : M Sentinel.config,
    (forall w,
        Sentinel.FewsConfig e w
        = steps (fst (basicConfig (path_join (Sentinel.i_workdir i) "log.txt")
                                  (numeric_level (Sentinel.i_log_level i)) w)))
    /\ respects steps /\ preserves logger steps
    /\ preserves w_files steps /\ preserves w_net steps.
Proof.
  intros Hi Hp. unfold Sentinel.FewsConfig. rewrite Hi, Hp. cbv zeta.
  eexists. split; [intros w; apply bind_basicConfig|].
  cbv beta. split; [|split; [|split]].
  - repeat first [ apply respects_ret | apply respects_raise | apply respects_lift
                 | apply respects_log
                 | apply respects_bind; [|intros]
                 | match goal with
                   | |- respects (match ?x with _ => _ end) => destruct x
                   end ].
  - repeat first [ apply preserves_bind; [|intros]
                 | match goal with
                   | |- preserves _ (match ?x with _ => _ end) => destruct x
                   end
                 | solve [auto with preserves] ].
  - repeat first [ apply preserves_bind; [|intros]
                 | match goal with
                   | |- preserves _ (match ?x with _ => _ end) => destruct x
                   end
                 | solve [auto with preserves] ].
  - repeat first [ apply preserves_bind; [|intros]
                 | match goal with
                   | |- preserves _ (match ?x with _ => _ end) => destruct x
                   end
                 | solve [auto with preserves] ].
Qed.

(** A build that returns has read the run-description. *)
Lemma FewsConfig_returns (w w1 : world) (c : Sentinel.config) :
  Sentinel.FewsConfig e w = (w1, Ret c) ->
  exists i first others,
    Sentinel.info_file e = Sentinel.Parsed i
    /\ Sentinel.i_properties i = first :: others.
Proof.
  unfold Sentinel.FewsConfig.
  destruct (Sentinel.info_file e) as [err|err|i].
  - unfold bind. intros H.
    destruct (log_effect (Sentinel.clock e) ERROR ("ERROR: Reading INFO file - " ++ err) w)
      as (w0 & E & _). rewrite E in H. discriminate.
  - unfold bind. intros H.
    destruct (log_effect (Sentinel.clock e) ERROR
                ("ERROR: An error occurred while parsing the INFO file: " ++ err) w)
      as (w0 & E & _). rewrite E in H. discriminate.
  - destruct (Sentinel.i_properties i) as [|first others] eqn:Ep;
      [|intros _; exists i, first, others; split; [reflexivity | exact Ep]].
    unfold bind. intros H.
    destruct (log_effect (Sentinel.clock e) ERROR
                "ERROR: No 'properties' element found in INFO file." w)
      as (w0 & E & _). rewrite E in H. discriminate.
Qed.

End ConfigurationFacts.

(** X24.  [main] builds the configuration twice.  When the first build
    returns, the second returns the same configuration and leaves the log
    as the first left it: the log file is opened anew and takes the same
    entries; the log apart, neither build writes a file, and neither
    sends a request. *)
Theorem second_configuration_is_the_first
        (e : Sentinel.env) (w w1 : world) (c : Sentinel.config) :
  Sentinel.FewsConfig e w = (w1, Ret c) ->
  exists w2,
    Sentinel.FewsConfig e w1 = (w2, Ret c)
    /\ logger w2 = logger w1
    /\ log_entries w2 = log_entries w1
    /\ w_files w2 = w_files w
    /\ w_net w2 = w_net w.
Proof.
  intros H. destruct (FewsConfig_returns e w w1 c H) as (i & first & others & Hi & Hp).
  destruct (FewsConfig_steps e i first others Hi Hp)
    as (steps & Hrun & Hresp & Hlog & Hfiles & Hnet).
  rewrite Hrun in H. rewrite Hrun.
  set (start := fst (basicConfig _ _ w)) in *.
  set (start' := fst (basicConfig _ _ w1)).
  pose proof (Hlog start) as Hl. pose proof (Hfiles start) as Hf.
  pose proof (Hnet start) as Hn. rewrite H in Hl, Hf, Hn. cbn [fst] in Hl, Hf, Hn.
  assert (Hsim : similar start start').
  { unfold similar, logger in *. subst start start'.
    cbn [basicConfig fst w_log_file w_log_level w_files w_net log_entries w_log map] in *.
    injection Hl as Hlf Hlv. repeat split; try congruence.
    destruct (numeric_level (Sentinel.i_log_level i)); congruence. }
  destruct (Hresp start start' Hsim) as [Ho (S1 & S2 & S3 & S4)].
  rewrite H in Ho, S1, S2, S3, S4. cbn [fst snd] in Ho, S1, S2, S3, S4.
  destruct (steps start') as [w2 o2]. cbn [fst snd] in *. subst o2.
  exists w2. split; [reflexivity|].
  split; [congruence|]. split; [congruence|].
  split; [rewrite <- S3; exact Hf | rewrite <- S4; exact Hn].
Qed.

Lemma second_configuration_is_the_first_witness :
  let w1 := fst (Sentinel.FewsConfig empty_catalogue_env (initial_world [])) in
  exists w2,
    Sentinel.FewsConfig empty_catalogue_env w1 = (w2, Ret three_config)
    /\ logger w2 = logger w1
    /\ log_entries w2 = log_entries w1
    /\ w_files w2 = w_files (initial_world [])
    /\ w_net w2 = w_net (initial_world []).
Proof.
  intros w1.
  apply (second_configuration_is_the_first empty_catalogue_env (initial_world []) w1
                                           three_config).
  reflexivity.
Defined.

(* ===================================================================== *)
(** * The RCM run: further properties                                    *)
(* ===================================================================== *)

Section ProtocolFacts.

Variable e : Rcm.env.

Lemma extract_all_preserves_net out_dir remove :
  preserves w_net (Rcm.extract_all e out_dir remove).
Proof.
  unfold Rcm.extract_all. apply preserves_for_each. intros item.
  unfold Rcm.extract_item.
  repeat (apply preserves_bind; [|intros]); auto with preserves.
  apply preserves_for_each. intros m.
  apply extract_member_preserves; [auto with preserves | intros d w; reflexivity].
Qed.

(** A step that sends nothing keeps what holds of the calls. *)
Lemma calls_bind {A B} (P : list net_call -> Prop) (m : M A) (k : A -> M B)
      (w : world) :
  preserves w_net m ->
  P (w_net w) ->
  (forall a w', w_net w' = w_net w -> P (w_net (fst (k a w')))) ->
  P (w_net (fst (bind m k w))).
Proof.
  intros Hm Hw Hk. unfold bind. specialize (Hm w).
  destruct (m w) as [w1 [a|ex]]; cbn [fst] in *.
  - now apply Hk.
  - now rewrite Hm.
Qed.

Lemma calls_call {B} (P : list net_call -> Prop) (call : net_call)
      (k : unit -> M B) (w : world) :
  (forall w', w_net w' = (w_net w ++ [call])%list -> P (w_net (fst (k tt w')))) ->
  P (w_net (fst (bind (call_net call) k w))).
Proof. intros Hk. unfold bind, call_net. now apply Hk. Qed.

(** One step of a run that sends nothing, and the world after a step. *)
Ltac calls_next w Hw :=
  let w' := fresh "w" in
  let Hw' := fresh "Hw" in
  intros w' Hw'; rewrite Hw in Hw'; cbn [app] in Hw'; clear Hw; clear w;
  rename w' into w; rename Hw' into Hw.

Ltac calls_step w Hw :=
  apply calls_bind;
  [ first [ solve [auto with preserves]
          | repeat first [ apply preserves_if
                         | apply preserves_bind; [|intros]
                         | apply quit_preserves
                         | solve [auto with preserves] ] ]
  | now rewrite Hw
  | intros ?; calls_next w Hw ].


Lemma execute_download_protocol (properties : dict string) (workdir t0 t1 : string)
      (w : world) :
  w_net w = [] ->
  in_protocol (w_net (fst (Rcm.execute_download e properties workdir t0 t1 w))) = true.
Proof.
  intros Hw. unfold Rcm.execute_download. cbv zeta.
  (* up to the search *)
  do 8 calls_step w Hw.
  apply calls_call. calls_next w Hw.
  (* up to the order *)
  do 3 calls_step w Hw.
  apply calls_call. calls_next w Hw.
  (* up to the download *)
  do 5 calls_step w Hw.
  apply calls_call. calls_next w Hw.
  (* to the end *)
  match goal with
  | |- in_protocol (w_net (fst (?tail w))) = true =>
      assert (Htail : preserves w_net tail)
  end.
  { repeat first [ apply preserves_bind; [|intros]
                 | apply preserves_if
                 | apply extract_all_preserves_net
                 | solve [auto with preserves] ]. }
  now rewrite Htail, Hw.
Qed.

Lemma log2xml_skips_nothing (logfile xmldiag : string) (w : world) :
  snd (log2xml logfile xmldiag w) = Ret tt.
Proof. unfold log2xml. now destruct (read_file w logfile). Qed.

End ProtocolFacts.

(** X25.  Whatever the run meets, the calls of a run of the RCM script are
    a search, then an order, then a download, each once at most: it never
    orders before it has searched, never downloads before it has ordered,
    and sends nothing after the download. *)
Theorem rcm_run_follows_the_protocol (e : Rcm.env) (dirs : list string) :
  in_protocol (w_net (fst (Rcm.main e (initial_world dirs)))) = true.
Proof.
  unfold Rcm.main. destruct (Rcm.info_file e) as [info|]; [|reflexivity].
  rewrite bind_lift.
  destruct (subscript (Rcm.ri_properties info) 0) as [props|]; [|reflexivity].
  cbv zeta. unfold bind at 1. cbn [basicConfig].
  now apply execute_download_protocol.
Qed.

(** X26.  The search is sent only when the configuration has the five
    properties that the script reads before it: when [user], [secret],
    [resolution], [polarization] or [mission] is missing, the run ends
    with an exception before any call, and without a file. *)
Theorem missing_search_property_sends_nothing
        (e : Rcm.env) (properties : dict string) (workdir t0 t1 : string)
        (w : world) (k : string) :
  In k ["user"; "secret"; "resolution"; "polarization"; "mission"] ->
  dict_find properties k = None ->
  let r := Rcm.execute_download e properties workdir t0 t1 w in
  w_net (fst r) = w_net w
  /\ w_files (fst r) = w_files w
  /\ exists ex, snd r = Raise ex.
Proof.
  intros Hin Hk r. subst r.
  assert (Hget : dict_get properties k = Raise (KeyError k))
    by (unfold dict_get; now rewrite Hk).
  destruct (log_effect (Rcm.clock e) DEBUG "RCMSearch loaded" w)
    as (w1 & E1 & F1 & _ & N1 & _).
  assert (Hrun : exists ex,
             Rcm.execute_download e properties workdir t0 t1 w = (w1, Raise ex)).
  { unfold Rcm.execute_download. cbv zeta. unfold bind at 1. rewrite E1.
    destruct Hin as [<-|[<-|[<-|[<-|[<-|[]]]]]];
      repeat (rewrite bind_lift;
              match goal with
              | |- context [match ?o with Ret _ => _ | Raise _ => _ end] =>
                  destruct o eqn:?; [try discriminate | eauto]
              end). }
  destruct Hrun as (ex & ->). cbn [fst snd]. eauto.
Qed.

Lemma missing_search_property_sends_nothing_witness :
  let r := Rcm.execute_download square_env [("user", "u"); ("secret", "s")]
                                "/work" "20230101_000000" "20230102_000000"
                                logging_world in
  w_net (fst r) = [] /\ w_files (fst r) = [] /\ exists ex, snd r = Raise ex.
Proof.
  apply (missing_search_property_sends_nothing
           square_env [("user", "u"); ("secret", "s")]
           "/work" "20230101_000000" "20230102_000000" logging_world "mission").
  - cbn [In]. auto 6.
  - reflexivity.
Defined.

(** X27.  The configuration is read as the run goes: the key [timeout] is
    looked up after the order.  When it is missing, a run that reaches
    the order sends it, and then ends on a [KeyError]: no download is
    asked for and, the log apart, no file is written, the diagnostic
    document included. *)
Theorem missing_timeout_is_found_after_the_order
        (e : Rcm.env) (properties : dict string) (workdir t0 t1 : string)
        (w : world) :
  w_net w = [] ->
  dict_find properties "timeout" = None ->
  (forall images, exists order, Rcm.eodms_order e images = Ret order) ->
  let r := Rcm.execute_download e properties workdir t0 t1 w in
  existsb is_order (w_net (fst r)) = true ->
  snd r = Raise (KeyError "timeout")
  /\ map is_search (w_net (fst r)) = [true; false]
  /\ map is_order (w_net (fst r)) = [false; true]
  /\ w_files (fst r) = w_files w.
Proof.
  intros Hw Ht Hord r. subst r.
  remember (Rcm.execute_download e properties workdir t0 t1 w) as run eqn:Hrun.
  unfold Rcm.execute_download in Hrun. cbv zeta in Hrun.
  destruct (log_effect (Rcm.clock e) DEBUG "RCMSearch loaded" w)
    as (w1 & E1 & F1 & _ & N1 & _).
  unfold bind at 1 in Hrun. rewrite E1 in Hrun.
  repeat (rewrite bind_lift in Hrun;
          match type of Hrun with
          | context [match ?o with Ret _ => _ | Raise _ => _ end] =>
              destruct o;
              [|subst run; cbn [fst]; rewrite N1, Hw; discriminate]
          end).
  unfold bind at 1, call_net at 1 in Hrun. rewrite bind_lift in Hrun.
  match type of Hrun with
  | context [match ?o with Ret _ => _ | Raise _ => _ end] =>
      destruct o as [res|ex];
      [|subst run; cbn [fst w_net set_net]; rewrite N1, Hw; discriminate]
  end.
  unfold bind at 1, print at 1 in Hrun.
  destruct res as [|image res]; cbn [List.length Nat.eqb] in Hrun.
  - unfold bind at 1 in Hrun. unfold bind at 1 in Hrun.
    match type of Hrun with
    | context [log ?k ?l ?m ?w0] =>
        destruct (log_effect k l m w0) as (w2 & E2 & _ & _ & N2 & _)
    end.
    rewrite E2 in Hrun. unfold bind at 1 in Hrun.
    pose proof (log2xml_preserves_net (path_join workdir "log.txt")
                                      (path_join workdir "diag.xml") w2) as N3.
    pose proof (log2xml_skips_nothing (path_join workdir "log.txt")
                                      (path_join workdir "diag.xml") w2) as O3.
    destruct (log2xml (path_join workdir "log.txt") (path_join workdir "diag.xml") w2)
      as [w3 o3]. cbn [fst snd] in N3, O3. subst o3.
    unfold Rcm.quit, raise in Hrun. subst run. cbn [fst].
    rewrite N3, N2. cbn [w_net set_stdout set_net]. rewrite N1, Hw. discriminate.
  - unfold bind at 1, ret at 1 in Hrun.
    unfold bind at 1, call_net at 1 in Hrun. rewrite bind_lift in Hrun.
    destruct (Hord (image :: res)) as (order & Ho). rewrite Ho in Hrun.
    rewrite bind_lift in Hrun. unfold dict_get in Hrun. rewrite Ht in Hrun.
    subst run. cbn [fst snd w_net w_files set_net set_stdout].
    rewrite N1, F1, Hw. intros _. repeat split.
Qed.

Lemma missing_timeout_is_found_after_the_order_witness :
  let r := Rcm.execute_download (env_with_properties no_timeout_properties)
                                (dict_of_pairs no_timeout_properties)
                                "/work" "20230101_000000" "20230102_000000"
                                logging_world in
  snd r = Raise (KeyError "timeout")
  /\ map is_search (w_net (fst r)) = [true; false]
  /\ map is_order (w_net (fst r)) = [false; true]
  /\ w_files (fst r) = [].
Proof.
  intros r.
  apply (missing_timeout_is_found_after_the_order
           (env_with_properties no_timeout_properties)
           (dict_of_pairs no_timeout_properties)
           "/work" "20230101_000000" "20230102_000000" logging_world);
    [reflexivity | reflexivity | intros images; exists images; reflexivity
    | reflexivity].
Defined.

(* ===================================================================== *)
(** * [remove_html_tags]: properties                                     *)
(* ===================================================================== *)

Section TagFacts.

Lemma line_char_facts (c : ascii) :
  Ascii.eqb (line_char c) ">" = Ascii.eqb c ">"
  /\ Ascii.eqb (line_char c) "<" = Ascii.eqb c "<"
  /\ Ascii.eqb ">" (line_char c) = Ascii.eqb ">" c
  /\ line_char (line_char c) = line_char c
  /\ Ascii.eqb newline (line_char c) = false
  /\ Ascii.eqb "-" (line_char c) = false.
Proof. destruct c as [[] [] [] [] [] [] [] []]; vm_compute; repeat split. Qed.

Lemma str_map_app (f : ascii -> ascii) (a b : string) :
  str_map f (a ++ b) = str_map f a ++ str_map f b.
Proof. induction a as [|c a IH]; cbn [append str_map]; [reflexivity | now rewrite IH]. Qed.

Lemma str_map_twice (s : string) :
  str_map line_char (str_map line_char s) = str_map line_char s.
Proof.
  induction s as [|c s IH]; cbn [str_map]; [reflexivity|].
  rewrite IH. f_equal. apply line_char_facts.
Qed.

Lemma str_in_map (s : string) :
  str_in ">" (str_map line_char s) = str_in ">" s.
Proof.
  induction s as [|c s IH]; cbn [str_map str_in]; [reflexivity|].
  rewrite IH. f_equal. apply line_char_facts.
Qed.

Lemma str_map_absent (a : ascii) (s : string) :
  (forall c, Ascii.eqb a (line_char c) = false) ->
  str_in a (str_map line_char s) = false.
Proof.
  intros Ha. induction s as [|c s IH]; cbn [str_map str_in]; [reflexivity|].
  now rewrite Ha, IH.
Qed.

(** Replacing a character by another, character by character. *)
Lemma replace_char (a b : ascii) (s : string) :
  str_replace (String a "") (String b "") s
  = str_map (fun c => if Ascii.eqb c a then b else c) s.
Proof.
  unfold str_replace. induction s as [|c s IH]; [reflexivity|].
  cbn [replace_from prefix str_map].
  destruct (ascii_dec a c) as [->|Hne].
  - rewrite Ascii.eqb_refl.
    replace (if prefix "" s then _ else _)
      with (String b "" ++ replace_from (String c "") (String b "") 0 s)
      by (now destruct s).
    cbn [append String.length Nat.sub]. now rewrite IH.
  - replace (Ascii.eqb c a) with false
      by (symmetry; apply Ascii.eqb_neq; congruence).
    now rewrite IH.
Qed.

Lemma remove_html_tags_map (text : string) :
  Rcm.remove_html_tags text = str_map line_char (Rcm.sub_tags false text).
Proof.
  unfold Rcm.remove_html_tags. cbv zeta. unfold nl.
  rewrite !replace_char.
  induction (Rcm.sub_tags false text) as [|c s IH]; [reflexivity|].
  cbn [str_map]. rewrite IH. f_equal.
  destruct c as [[] [] [] [] [] [] [] []]; reflexivity.
Qed.

Lemma opens_tag_map (s : string) :
  Rcm.opens_tag (str_map line_char s) = Rcm.opens_tag s.
Proof.
  destruct s as [|c s]; [reflexivity|]. cbn [str_map Rcm.opens_tag].
  rewrite str_in_map. f_equal. f_equal. apply line_char_facts.
Qed.

Lemma sub_tags_map (b : bool) (s : string) :
  Rcm.sub_tags b (str_map line_char s) = str_map line_char (Rcm.sub_tags b s).
Proof.
  revert b. induction s as [|c s IH]; intros b; [reflexivity|].
  cbn [str_map Rcm.sub_tags]. rewrite opens_tag_map.
  destruct (line_char_facts c) as (-> & -> & _).
  destruct b.
  - destruct (Ascii.eqb c ">"); apply IH.
  - destruct (Ascii.eqb c "<" && Rcm.opens_tag s); [apply IH|].
    cbn [str_map]. now rewrite IH.
Qed.

Lemma sub_tags_absent (a : ascii) (b : bool) (s : string) :
  str_in a s = false -> str_in a (Rcm.sub_tags b s) = false.
Proof.
  revert b. induction s as [|c s IH]; intros b H; [reflexivity|].
  cbn [str_in] in H. apply orb_false_iff in H as [Hc Hs].
  cbn [Rcm.sub_tags]. destruct b.
  - destruct (Ascii.eqb c ">"); now apply IH.
  - destruct (Ascii.eqb c "<" && Rcm.opens_tag s); [now apply IH|].
    cbn [str_in]. now rewrite Hc, IH.
Qed.

(** What [sub] leaves holds no tag. *)
Lemma opens_tag_after (s : string) :
  Rcm.opens_tag s = false -> Rcm.opens_tag (Rcm.sub_tags false s) = false.
Proof.
  destruct s as [|c s]; [reflexivity|]. cbn [Rcm.opens_tag Rcm.sub_tags].
  intros H. apply andb_false_iff in H as [H | H].
  - apply negb_false_iff in H. apply Ascii.eqb_eq in H. subst c.
    change (Ascii.eqb ">" "<") with false. cbn [andb Rcm.opens_tag].
    now rewrite Ascii.eqb_refl.
  - destruct (Ascii.eqb c "<" && Rcm.opens_tag s).
    + pose proof (sub_tags_absent ">" true s H) as Hno.
      destruct (Rcm.sub_tags true s) as [|c' t]; [reflexivity|].
      cbn [Rcm.opens_tag]. cbn [str_in] in Hno.
      apply orb_false_iff in Hno as [_ Hno]. now rewrite Hno, andb_false_r.
    + cbn [Rcm.opens_tag]. now rewrite (sub_tags_absent ">" false s H), andb_false_r.
Qed.

Lemma sub_tags_twice (b : bool) (s : string) :
  Rcm.sub_tags false (Rcm.sub_tags b s) = Rcm.sub_tags b s.
Proof.
  revert b. induction s as [|c s IH]; intros b; [reflexivity|].
  cbn [Rcm.sub_tags]. destruct b.
  - destruct (Ascii.eqb c ">"); apply IH.
  - destruct (Ascii.eqb c "<" && Rcm.opens_tag s) eqn:E; [apply IH|].
    cbn [Rcm.sub_tags].
    replace (Ascii.eqb c "<" && Rcm.opens_tag (Rcm.sub_tags false s)) with false.
    + now rewrite IH.
    + symmetry. apply andb_false_iff in E as [E | E]; [now rewrite E|].
      now rewrite (opens_tag_after s E), andb_false_r.
Qed.

(** A text without [<] holds no tag. *)
Lemma sub_tags_plain (a rest : string) :
  str_in "<" a = false ->
  Rcm.sub_tags false (a ++ rest) = a ++ Rcm.sub_tags false rest.
Proof.
  induction a as [|c a IH]; [reflexivity|]. intros H.
  cbn [str_in] in H. apply orb_false_iff in H as [Hc Ha].
  cbn [append Rcm.sub_tags]. rewrite Ascii.eqb_sym in Hc. rewrite Hc.
  cbn [andb]. now rewrite (IH Ha).
Qed.

(** Inside a tag, up to its end. *)
Lemma sub_tags_inside (t rest : string) :
  str_in ">" t = false ->
  Rcm.sub_tags true (t ++ ">" ++ rest) = Rcm.sub_tags false rest.
Proof.
  induction t as [|c t IH].
  - intros _. cbn [append Rcm.sub_tags]. now rewrite Ascii.eqb_refl.
  - intros H. cbn [str_in] in H. apply orb_false_iff in H as [Hc Ht].
    cbn [append Rcm.sub_tags]. rewrite Ascii.eqb_sym in Hc. rewrite Hc.
    now apply IH.
Qed.

End TagFacts.

(** X28.  What [remove_html_tags] returns is one line without hyphens:
    it holds no line break and no [-]; and it holds no tag either, so that
    a second call changes nothing. *)
Theorem remove_html_tags_gives_one_line (text : string) :
  str_in newline (Rcm.remove_html_tags text) = false
  /\ str_in "-" (Rcm.remove_html_tags text) = false
  /\ Rcm.remove_html_tags (Rcm.remove_html_tags text) = Rcm.remove_html_tags text.
Proof.
  rewrite !remove_html_tags_map. split; [|split].
  - apply str_map_absent. intros c. apply line_char_facts.
  - apply str_map_absent. intros c. apply line_char_facts.
  - now rewrite sub_tags_map, sub_tags_twice, str_map_twice.
Qed.

(** X29.  A tag is a [<], a character at least other than [>], and the
    first [>] that follows: [remove_html_tags] takes it out of the text,
    and reads on after it.  The pair [<>] is no tag and stays. *)
Theorem remove_html_tags_takes_a_tag_out (a t b : string) :
  str_in "<" a = false ->
  t <> "" ->
  str_in ">" t = false ->
  Rcm.remove_html_tags (a ++ "<" ++ t ++ ">" ++ b)
  = Rcm.remove_html_tags a ++ Rcm.remove_html_tags b
  /\ Rcm.remove_html_tags (a ++ "<>" ++ b)
     = Rcm.remove_html_tags a ++ "<>" ++ Rcm.remove_html_tags b.
Proof.
  intros Ha Ht Hgt. rewrite !remove_html_tags_map.
  assert (Hplain : Rcm.sub_tags false a = a).
  { rewrite <- (append_nil_r a) at 1. rewrite (sub_tags_plain a "" Ha).
    apply append_nil_r. }
  rewrite Hplain, !(sub_tags_plain a _ Ha), !str_map_app.
  assert (Htag : Rcm.sub_tags false ("<" ++ t ++ ">" ++ b) = Rcm.sub_tags false b).
  { change ("<" ++ t ++ ">" ++ b) with (String "<" (t ++ ">" ++ b)).
    cbn [Rcm.sub_tags Ascii.eqb Bool.eqb andb].
    assert (Ho : Rcm.opens_tag (t ++ ">" ++ b) = true).
    { destruct t as [|c t]; [congruence|]. cbn [append Rcm.opens_tag].
      cbn [str_in] in Hgt. apply orb_false_iff in Hgt as [Hc _].
      rewrite Ascii.eqb_sym in Hc. rewrite Hc, str_in_app. cbn [negb andb str_in].
      now rewrite Ascii.eqb_refl, orb_true_r. }
    now rewrite Ho, (sub_tags_inside t b Hgt). }
  rewrite Htag. split; reflexivity.
Qed.

Lemma remove_html_tags_takes_a_tag_out_witness :
  Rcm.remove_html_tags ("RCM-1 " ++ "<" ++ "b class='x'" ++ ">" ++ "ok</b>")
  = Rcm.remove_html_tags "RCM-1 " ++ Rcm.remove_html_tags "ok</b>"
  /\ Rcm.remove_html_tags ("RCM-1 " ++ "<>" ++ "ok</b>")
     = Rcm.remove_html_tags "RCM-1 " ++ "<>" ++ Rcm.remove_html_tags "ok</b>".
Proof.
  apply (remove_html_tags_takes_a_tag_out "RCM-1 " "b class='x'" "ok</b>");
    [reflexivity | discriminate | reflexivity].
Defined.
